(** * Verification of the reconciliation engine of the PM intake API

    Shallow embedding of the TypeScript / Apps Script sources:
    - [src/unnamed/part_002]      placeholder utilities (coerceToString,
                                  normalizeKey, normalizeMerge);
    - [src/unnamed/part_001]      the OS Airtable client and normalizeDomain;
    - [src/unnamed/part_011]      the Gmail company route (getOrCreateCompany);
    - [src/app/api/inbox/email/route.ts] the inbox ingestion route;
    - [src/unnamed/part_004]      the promote-inbox Apps Script;
    - [src/lib/airtable.ts]       fetchWithRetry.

    Strings are [String.string] over ASCII; the JavaScript string methods used
    by the sources ([trim], [toUpperCase], [toLowerCase], the anchored regular
    expressions, [split(c)[0]]) are written out on them. *)

From Stdlib Require Import String Ascii List Bool Arith Lia ZArith NArith.
Set Warnings "-register-all".
Set Warnings "-abstract-large-number".
Import ListNotations.
Open Scope string_scope.

(* ========================================================================= *)
(** ** JavaScript string primitives                                          *)
(* ========================================================================= *)

Module JsString.

(** [String.prototype.trim] strips WhiteSpace and LineTerminator code points;
    on ASCII these are TAB, LF, VT, FF, CR and SPACE. *)
Definition is_ws (c : ascii) : bool :=
  let n := nat_of_ascii c in Nat.eqb n 32 || (Nat.leb 9 n && Nat.leb n 13).

Fixpoint trim_start (s : string) : string :=
  match s with
  | EmptyString => EmptyString
  | String c r => if is_ws c then trim_start r else s
  end.

Fixpoint trim_end (s : string) : string :=
  match s with
  | EmptyString => EmptyString
  | String c r =>
      let r' := trim_end r in
      if is_ws c && String.eqb r' "" then "" else String c r'
  end.

Definition trim (s : string) : string := trim_end (trim_start s).

(** [toUpperCase] / [toLowerCase] on ASCII letters. *)
Definition upper_char (c : ascii) : ascii :=
  let n := nat_of_ascii c in
  if Nat.leb 97 n && Nat.leb n 122 then ascii_of_nat (n - 32) else c.

Definition lower_char (c : ascii) : ascii :=
  let n := nat_of_ascii c in
  if Nat.leb 65 n && Nat.leb n 90 then ascii_of_nat (n + 32) else c.

Fixpoint map_chars (f : ascii -> ascii) (s : string) : string :=
  match s with
  | EmptyString => EmptyString
  | String c r => String (f c) (map_chars f r)
  end.

Definition toUpperCase (s : string) : string := map_chars upper_char s.
Definition toLowerCase (s : string) : string := map_chars lower_char s.

(** [s.endsWith(suf)]. *)
Definition ends_with (suf s : string) : bool :=
  Nat.leb (String.length suf) (String.length s) &&
  String.eqb (substring (String.length s - String.length suf) (String.length suf) s) suf.

(** [s.slice(n)] for [n >= 0]. *)
Definition drop (n : nat) (s : string) : string :=
  substring n (String.length s - n) s.

(** [s.split(c)[0]]: the text before the first [c] (all of [s] without [c]). *)
Fixpoint before_char (c : ascii) (s : string) : string :=
  match s with
  | EmptyString => EmptyString
  | String d r => if Ascii.eqb d c then EmptyString else String d (before_char c r)
  end.

Fixpoint has_char (c : ascii) (s : string) : bool :=
  match s with
  | EmptyString => false
  | String d r => Ascii.eqb d c || has_char c r
  end.

End JsString.

Import JsString.

(* ========================================================================= *)
(** ** Key normalizer ([src/unnamed/part_002], normalizeKey)                 *)
(* ========================================================================= *)

(** [key.replace(/^\{\{|\}\}$/g, "")]: the global regex scans left to right; at
    index 0 the alternative [^\{\{] is tried first and, after a match there,
    scanning resumes at index 2, so a trailing [}}] is removed only if it lies
    after the removed prefix.  Each alternative matches at most once. *)
Definition strip_braces (s : string) : string :=
  let s1 := if String.prefix "{{" s then drop 2 s else s in
  if ends_with "}}" s1 then substring 0 (String.length s1 - 2) s1 else s1.

(** [key.trim().replace(/^\{\{|\}\}$/g, "").trim().toUpperCase()] *)
Definition normalizeKey (key : string) : string :=
  toUpperCase (trim (strip_braces (trim key))).

(* ========================================================================= *)
(** ** Domain normalizer ([src/unnamed/part_001] lines 386-395; the same body
       is repeated in [src/unnamed/part_011])                                *)
(* ========================================================================= *)

(** [domain.replace(/^https?:\/\//, "")] *)
Definition strip_protocol (d : string) : string :=
  if String.prefix "http://" d then drop 7 d
  else if String.prefix "https://" d then drop 8 d
  else d.

(** [domain.replace(/^www\./, "")] *)
Definition strip_www (d : string) : string :=
  if String.prefix "www." d then drop 4 d else d.

Definition normalizeDomain (input : string) : string :=
  if String.eqb input "" then ""
  else
    let domain := toLowerCase (trim input) in
    let domain := strip_protocol domain in
    let domain := before_char "?"%char (before_char "/"%char domain) in
    strip_www domain.

(* ========================================================================= *)
(** ** JSON values and [JSON.stringify]                                      *)
(* ========================================================================= *)

(** A JSON value as the request parser hands it to the code.  An object is the
    list of its own properties in enumeration order (the order of
    [Object.entries]).  Numbers are modelled by integers; [String(n)] is their
    decimal form (JavaScript's form for |n| < 10^21). *)
Inductive json : Type :=
| JNull
| JBool (b : bool)
| JNum (z : Z)
| JStr (s : string)
| JArr (l : list json)
| JObj (l : list (string * json)).

Module Json.

Definition digit_char (d : N) : ascii := ascii_of_N (48 + d).

Fixpoint digits_go (fuel : nat) (n : N) (acc : string) : string :=
  match fuel with
  | O => acc
  | S f =>
      let acc' := String (digit_char (n mod 10)) acc in
      if (n <? 10)%N then acc' else digits_go f (n / 10) acc'
  end.

Definition string_of_N (n : N) : string := digits_go (S (N.size_nat n)) n "".

(** [String(n)] for an integer [n]. *)
Definition number_to_string (z : Z) : string :=
  match z with
  | Z0 => "0"
  | Zpos p => string_of_N (Npos p)
  | Zneg p => String "-" (string_of_N (Npos p))
  end.

Definition string_of_nat (n : nat) : string := string_of_N (N.of_nat n).

(** The escapes of JSON.stringify's QuoteJSONString. *)
Definition hex_char (d : nat) : ascii :=
  if Nat.ltb d 10 then ascii_of_nat (48 + d) else ascii_of_nat (87 + d).

Definition dq : ascii := ascii_of_nat 34.   (* the double quote *)

Definition escape_char (c : ascii) : string :=
  let n := nat_of_ascii c in
  if Nat.eqb n 34 then String "\" (String dq EmptyString) else
  if Nat.eqb n 92 then "\\" else
  if Nat.eqb n 8 then "\b" else
  if Nat.eqb n 12 then "\f" else
  if Nat.eqb n 10 then "\n" else
  if Nat.eqb n 13 then "\r" else
  if Nat.eqb n 9 then "\t" else
  if Nat.ltb n 32 then "\u00" ++ String (hex_char (n / 16)) (String (hex_char (n mod 16)) EmptyString)
  else String c EmptyString.

Fixpoint escape (s : string) : string :=
  match s with
  | EmptyString => EmptyString
  | String c r => escape_char c ++ escape r
  end.

Definition quote (s : string) : string := String dq (escape s ++ String dq EmptyString).

Fixpoint join (sep : string) (l : list string) : string :=
  match l with
  | [] => ""
  | [x] => x
  | x :: r => x ++ sep ++ join sep r
  end.

(** [JSON.stringify] on an acyclic JSON value; it does not throw there. *)
Fixpoint stringify (j : json) : string :=
  match j with
  | JNull => "null"
  | JBool true => "true"
  | JBool false => "false"
  | JNum z => number_to_string z
  | JStr s => quote s
  | JArr l => "[" ++ join "," (map stringify l) ++ "]"
  | JObj l =>
      "{" ++ join "," (map (fun kv => quote (fst kv) ++ ":" ++ stringify (snd kv)) l) ++ "}"
  end.

(** Property access [obj.k] on an object; [undefined] is [None].  Arrays have
    no [name] or [value] property. *)
Fixpoint lookup (k : string) (l : list (string * json)) : option json :=
  match l with
  | [] => None
  | (k', v) :: r => if String.eqb k k' then Some v else lookup k r
  end.

Definition prop (j : json) (k : string) : option json :=
  match j with
  | JObj l => lookup k l
  | _ => None
  end.

(** JavaScript truthiness of a JSON value. *)
Definition truthy (j : json) : bool :=
  match j with
  | JNull => false
  | JBool b => b
  | JNum z => negb (Z.eqb z 0)
  | JStr s => negb (String.eqb s "")
  | JArr _ | JObj _ => true
  end.

(** [a || b] on possibly-undefined operands. *)
Definition js_or (a b : option json) : option json :=
  match a with
  | Some v => if truthy v then a else b
  | None => b
  end.

(** [x && typeof x === "object"] *)
Definition is_object (o : option json) : bool :=
  match o with
  | Some (JObj _) | Some (JArr _) => true
  | _ => false
  end.

(** [Object.entries] of an object or an array. *)
Definition object_entries (j : json) : list (string * json) :=
  match j with
  | JObj l => l
  | JArr l => combine (map string_of_nat (seq 0 (List.length l))) l
  | _ => []
  end.

End Json.

Import Json.

(* ========================================================================= *)
(** ** Value coercion ([src/unnamed/part_002] lines 18-57, coerceToString)   *)
(* ========================================================================= *)

(** [s.trim() || null] *)
Definition trim_or_null (s : string) : option string :=
  let t := trim s in if String.eqb t "" then None else Some t.

(** The object branch shared by arrays (on their first element) and plain
    objects: [name] if it is a string, else [value] if it is a string, else
    [JSON.stringify]. *)
Definition coerce_object (o : json) : option string :=
  match prop o "name" with
  | Some (JStr s) => trim_or_null s
  | _ =>
      match prop o "value" with
      | Some (JStr s) => trim_or_null s
      | _ => Some (stringify o)
      end
  end.

Definition coerceToString (val : json) : option string :=
  match val with
  | JNull => None
  | JStr s => trim_or_null s
  | JArr [] => None
  | JArr (first :: _) =>
      match first with
      | JObj _ | JArr _ => coerce_object first   (* first && typeof first === "object" *)
      | JStr s => trim_or_null s
      | JNum z => Some (number_to_string z)
      | _ => None
      end
  | JObj _ => coerce_object val
  | JNum z => Some (number_to_string z)
  | JBool _ => None
  end.

(* ========================================================================= *)
(** ** Merge-map builder ([src/unnamed/part_002] lines 89-123, normalizeMerge) *)
(* ========================================================================= *)

(** The output [Record<string, string>] as the list of its own properties.
    Normalized keys are upper case, so [k in out] never meets a property of
    [Object.prototype] (all of whose names contain lower-case letters). *)
Definition merge_map := list (string * string).

Fixpoint mm_lookup (k : string) (m : merge_map) : option string :=
  match m with
  | [] => None
  | (k', v) :: r => if String.eqb k k' then Some v else mm_lookup k r
  end.

Definition mm_has (k : string) (m : merge_map) : bool :=
  match mm_lookup k m with Some _ => true | None => false end.

(** [out[k] = v]: overwrite in place, or append a new property. *)
Fixpoint mm_set (k v : string) (m : merge_map) : merge_map :=
  match m with
  | [] => [(k, v)]
  | (k', v') :: r => if String.eqb k k' then (k', v) :: r else (k', v') :: mm_set k v r
  end.

(** Loop 1: [if (s !== null && normalized) out[normalized] = s]. *)
Definition placeholder_step (out : merge_map) (kv : string * json) : merge_map :=
  let normalized := normalizeKey (fst kv) in
  match coerceToString (snd kv) with
  | Some s => if negb (String.eqb normalized "") then mm_set normalized s out else out
  | None => out
  end.

(** Loop 2: [if (s !== null && normalized && !(normalized in out)) out[normalized] = s]. *)
Definition merge_step (out : merge_map) (kv : string * json) : merge_map :=
  let normalized := normalizeKey (fst kv) in
  match coerceToString (snd kv) with
  | Some s =>
      if negb (String.eqb normalized "") && negb (mm_has normalized out)
      then mm_set normalized s out else out
  | None => out
  end.

Definition placeholders_of (rawBody : json) : option json :=
  js_or (prop rawBody "placeholders") (prop rawBody "Placeholders").

Definition merge_of (rawBody : json) : option json :=
  js_or (js_or (js_or (js_or (js_or (prop rawBody "mergeFields") (prop rawBody "mergefields"))
    (prop rawBody "fields")) (prop rawBody "replacements"))
    (prop rawBody "structuredInputs")) (prop rawBody "structuredinputs").

Definition entries_if_object (o : option json) : list (string * json) :=
  match o with
  | Some j => if is_object o then object_entries j else []
  | None => []
  end.

Definition normalizeMerge (rawBody : json) : merge_map :=
  let out := fold_left placeholder_step (entries_if_object (placeholders_of rawBody)) [] in
  fold_left merge_step (entries_if_object (merge_of rawBody)) out.

(* ========================================================================= *)
(** ** Placeholder map and Docs requests ([src/unnamed/part_002] lines 134-168) *)
(* ========================================================================= *)

(** [buildPlaceholders]: [placeholders[`{{${key.toUpperCase()}}}`] = value]
    for each entry of the merge map, in its order. *)
Definition buildPlaceholders (merge : merge_map) : merge_map :=
  fold_left (fun placeholders kv =>
               mm_set ("{{" ++ toUpperCase (fst kv) ++ "}}") (snd kv) placeholders) merge [].

(** [buildReplaceRequests]: one [replaceAllText] request per entry.  The
    values of a [Record<string, string>] are strings, so
    [value == null ? "" : String(value)] is the value itself. *)
Definition buildReplaceRequests (placeholders : merge_map) : list json :=
  map (fun kv =>
         JObj [("replaceAllText",
                JObj [("containsText", JObj [("text", JStr (fst kv)); ("matchCase", JBool true)]);
                      ("replaceText", JStr (snd kv))])]) placeholders.

(* ========================================================================= *)
(** ** Retry/backoff wrapper ([src/lib/airtable.ts] lines 4-36, fetchWithRetry) *)
(* ========================================================================= *)

Module Retry.

(** A response of the record store, returned to the caller as it is. *)
Record response := mk_response { status : Z; body_text : string }.

(** What the wrapper does, in order: a [fetch] for attempt [n], a [sleep(ms)]. *)
Inductive event := Fetch (attempt : nat) | Sleep (ms : nat).

Definition MAX_RETRIES : nat := 3.

Section FetchWithRetry.

(** [fetch(url, options)] on the [n]-th attempt answers [server n]. *)
Variable server : nat -> response.

(** The recursion of [fetchWithRetry] on [attempt]; [k] bounds the number of
    recursive calls, and is [MAX_RETRIES - attempt] at the entry, so the [O]
    case below is only reached when the guard [attempt < MAX_RETRIES] is
    already false. *)
Fixpoint fetch_go (k attempt : nat) : response * list event :=
  let response := server attempt in
  if Z.eqb (status response) 429 && Nat.ltb attempt MAX_RETRIES then
    match k with
    | O => (response, [Fetch attempt])
    | S k' =>
        let delay := 2 ^ (attempt - 1) * 1000 in
        let '(r, tr) := fetch_go k' (attempt + 1) in
        (r, Fetch attempt :: Sleep delay :: tr)
    end
  else (response, [Fetch attempt]).

Definition fetchWithRetry_from (attempt : nat) : response * list event :=
  fetch_go (MAX_RETRIES - attempt) attempt.

(** The default parameter [attempt = 1]. *)
Definition fetchWithRetry : response * list event := fetchWithRetry_from 1.

End FetchWithRetry.

Definition fetches (tr : list event) : nat :=
  List.length (filter (fun e => match e with Fetch _ => true | _ => false end) tr).

Definition sleeps (tr : list event) : list nat :=
  flat_map (fun e => match e with Sleep ms => [ms] | _ => [] end) tr.

End Retry.

(* ========================================================================= *)
(** ** Cross-base project ids ([src/lib/airtable.ts] lines 152-279)          *)
(* ========================================================================= *)

Module ProjectMapping.

(** The values of [config] and [tables] ([src/lib/config.ts]) the functions
    read: each is an environment variable or its [??] default. *)
Record config := mk_config {
  airtableApiKey : string; clientPmOsBaseId : string; hiveOsBaseId : string;
  projects : string }.

(** The GET of [${AIRTABLE_API}/${baseId}/${encodeURIComponent(tableName)}/${recordId}]. *)
Record get := mk_get { g_base : string; g_table : string; g_record : string }.

(** [res.status] and [await res.json()]; [None] is a body that does not parse. *)
Record response := mk_response { status : Z; body : option json }.

(** A computation of the module: it may throw (its message) and extends the
    log of the requests sent. *)
Definition RM (A : Type) := list get -> (A + string) * list get.

Definition ret {A} (x : A) : RM A := fun tr => (inl x, tr).
Definition throw {A} (msg : string) : RM A := fun tr => (inr msg, tr).
Definition bind {A B} (m : RM A) (k : A -> RM B) : RM B :=
  fun tr => match m tr with
            | (inl x, tr') => k x tr'
            | (inr e, tr') => (inr e, tr')
            end.

Notation "x <- m ;; k" := (bind m (fun x => k)) (at level 61, m at next level, right associativity).

Definition CLIENT_PM_OS_FIELD_HIVE_OS_ID : string := "Hive OS Project Record ID".
Definition HIVE_OS_FIELD_CLIENT_PM_ID : string := "Client PM OS Project Record ID".

Record ProjectIdMapping := mk_mapping {
  clientPmProjectRecordId : string; hiveOsProjectRecordId : option string }.

(** [res.ok]: a status in 200-299. *)
Definition res_ok (r : response) : bool := (200 <=? status r)%Z && (status r <=? 299)%Z.

(** [input && input.trim().startsWith("rec")], and then [input.trim()]. *)
Definition record_input (input : option string) : option string :=
  match input with
  | Some x => if negb (String.eqb x "") && String.prefix "rec" (trim x) then Some (trim x) else None
  | None => None
  end.

(** [typeof v === "string" && v.trim().startsWith("rec") ? v.trim() : null]
    for [v = fields[k]]. *)
Definition linked_id (fields : json) (k : string) : option string :=
  match prop fields k with
  | Some (JStr x) => if String.prefix "rec" (trim x) then Some (trim x) else None
  | _ => None
  end.

Section Lookup.

(** The Airtable API's answer to a GET, and the configuration. *)
Variable server : get -> response.
Variable C : config.

Definition fetch (q : get) : RM response :=
  fun tr => (inl (server q), (tr ++ [q])%list).

(** [getRecord]: [null] without an API key, on 404 and on any other failure;
    otherwise [data?.fields ?? null]. *)
Definition getRecord (baseId tableName recordId : string) : RM (option json) :=
  if String.eqb (airtableApiKey C) "" then ret None else
  res <- fetch (mk_get baseId tableName recordId) ;;
  if negb (res_ok res) then ret None
  else match body res with
       | None => throw "SyntaxError: Unexpected token in JSON"
       | Some data =>
           ret (match prop data "fields" with
                | None | Some JNull => None
                | Some f => Some f
                end)
       end.

Definition resolveProjectIds (inputClientPm inputHiveOs : option string)
    : RM (option ProjectIdMapping) :=
  let clientPmBase := clientPmOsBaseId C in
  let hiveOsBase := hiveOsBaseId C in
  let tableName := projects C in
  if String.eqb clientPmBase "" || String.eqb hiveOsBase "" then ret None else
  match record_input inputClientPm with
  | Some clientPm =>
      fields <- getRecord clientPmBase tableName clientPm ;;
      match fields with
      | Some f =>
          if truthy f
          then ret (Some (mk_mapping clientPm (linked_id f CLIENT_PM_OS_FIELD_HIVE_OS_ID)))
          else ret None
      | None => ret None
      end
  | None =>
      match record_input inputHiveOs with
      | Some hiveOs =>
          fields <- getRecord hiveOsBase tableName hiveOs ;;
          match fields with
          | Some f =>
              if truthy f then
                match linked_id f HIVE_OS_FIELD_CLIENT_PM_ID with
                | Some clientPm => ret (Some (mk_mapping clientPm (Some hiveOs)))
                | None => ret None
                end
              else ret None
          | None => ret None
          end
      | None => ret None
      end
  end.

Definition verifyClientPmProjectExists (clientPmProjectRecordId : string) : RM bool :=
  let clientPmBase := clientPmOsBaseId C in
  if String.eqb clientPmBase "" then ret false else
  fields <- getRecord clientPmBase (projects C) clientPmProjectRecordId ;;
  ret (match fields with Some _ => true | None => false end).

End Lookup.

End ProjectMapping.

(* ========================================================================= *)
(** ** Promotion workflow ([src/unnamed/part_004], promoteInboxItem)         *)
(* ========================================================================= *)

Module Promote.

(** The [UrlFetchApp.fetch] calls of the script. *)
Inductive call :=
| GasGet (table id : string)
| GasCreate (table : string) (batch : list json)
| GasDelete (table id : string).

(** [response.getResponseCode()] and [JSON.parse(response.getContentText())];
    [None] is a body that does not parse. *)
Record gas_response := mk_gas { code : Z; body : option json }.

Definition INBOX_TABLE := "Inbox".
Definition TASKS_TABLE := "Tasks".
Definition DECISIONS_TABLE := "Decisions".

(** A computation of the script: it reads the calls made so far, may throw an
    error (its message), and extends the log of calls. *)
Definition GM (A : Type) := list call -> (A + string) * list call.

Definition ret {A} (x : A) : GM A := fun tr => (inl x, tr).
Definition throw {A} (msg : string) : GM A := fun tr => (inr msg, tr).
Definition bind {A B} (m : GM A) (k : A -> GM B) : GM B :=
  fun tr => match m tr with
            | (inl x, tr') => k x tr'
            | (inr e, tr') => (inr e, tr')
            end.
(** [try { m } catch (err) { ... }]: the result or the message of [err]. *)
Definition attempt {A} (m : GM A) : GM (A + string) :=
  fun tr => match m tr with
            | (inl x, tr') => (inl (inl x), tr')
            | (inr e, tr') => (inl (inr e), tr')
            end.

Notation "x <- m ;; k" := (bind m (fun x => k)) (at level 61, m at next level, right associativity).

Section Script.

(** The Airtable API as the script sees it: the answer to a call may depend on
    every call made before. *)
Variable server : list call -> call -> gas_response.

Definition fetch (c : call) : GM gas_response :=
  fun tr => (inl (server tr c), (tr ++ [c])%list).

Definition parse (r : gas_response) : GM json :=
  match body r with
  | Some j => ret j
  | None => throw "SyntaxError: JSON.parse"
  end.

Definition getAirtableRecord (tableName recordId : string) : GM (option json) :=
  response <- fetch (GasGet tableName recordId) ;;
  if Z.eqb (code response) 404 then ret None
  else if negb (Z.eqb (code response) 200) then throw "Airtable GET failed"
  else j <- parse response ;; ret (Some j).

(** [records.slice(i, i + 10)] for [i = 0, 10, 20, ...]. *)
Fixpoint batches (fuel : nat) (l : list json) : list (list json) :=
  match fuel, l with
  | O, _ => []
  | _, [] => []
  | S f, _ => firstn 10 l :: batches f (skipn 10 l)
  end.

(** [(result.records || []).map((r) => r.id)]; [r.id] on [null] throws, on
    other values it is the property (or [undefined], here [None]). *)
Definition record_ids (result : json) : GM (list (option json)) :=
  match js_or (prop result "records") (Some (JArr [])) with
  | Some (JArr l) =>
      if existsb (fun r => match r with JNull => true | _ => false end) l
      then throw "TypeError: Cannot read properties of null (reading 'id')"
      else ret (map (fun r => prop r "id") l)
  | _ => throw "TypeError: (result.records || []).map is not a function"
  end.

Fixpoint create_batches (tableName : string) (bs : list (list json))
    (createdIds : list (option json)) : GM (list (option json)) :=
  match bs with
  | [] => ret createdIds
  | batch :: rest =>
      response <- fetch (GasCreate tableName batch) ;;
      if negb (Z.eqb (code response) 200) then throw "Airtable CREATE failed"
      else result <- parse response ;;
           ids <- record_ids result ;;
           create_batches tableName rest (createdIds ++ ids)%list
  end.

Definition createAirtableRecords (tableName : string) (records : list json)
    : GM (list (option json)) :=
  match records with
  | [] => ret []
  | _ => create_batches tableName (batches (List.length records) records) []
  end.

Definition deleteAirtableRecord (tableName recordId : string) : GM json :=
  response <- fetch (GasDelete tableName recordId) ;;
  if negb (Z.eqb (code response) 200) then throw "Airtable DELETE failed"
  else parse response.

Record promote_result := mk_result {
  ok : bool;
  inboxRecordId : string;
  createdTasks : list (option json);
  createdDecisions : list (option json);
  inboxDeleted : bool;
  error : option string }.

Definition with_error (r : promote_result) (e : string) : promote_result :=
  mk_result (ok r) (inboxRecordId r) (createdTasks r) (createdDecisions r) (inboxDeleted r) (Some e).

(** The payload's [tasks] and [decisions] arrays ([payload.tasks || []]). *)
Record promote_payload := mk_payload { tasks : list json; decisions : list json }.

Definition mismatch (what : string) (expected got : nat) : string :=
  what ++ " creation mismatch: expected " ++ string_of_nat expected ++ ", got " ++ string_of_nat got.

(** STEP 5 and the final success. *)
Definition promote_delete (recordId : string) (result : promote_result) : GM promote_result :=
  d <- attempt (deleteAirtableRecord INBOX_TABLE recordId) ;;
  match d with
  | inl _ =>
      ret (mk_result true (inboxRecordId result) (createdTasks result)
             (createdDecisions result) true (error result))
  | inr msg =>
      ret (mk_result true (inboxRecordId result) (createdTasks result)
             (createdDecisions result) (inboxDeleted result)
             (Some ("Records created but inbox deletion failed: " ++ msg)))
  end.

(** STEP 4, then STEP 5. *)
Definition promote_check_total (recordId : string) (result : promote_result)
    : GM promote_result :=
  let totalCreated := List.length (createdTasks result) + List.length (createdDecisions result) in
  if Nat.eqb totalCreated 0
  then ret (with_error result "No tasks or decisions to create - nothing to promote")
  else promote_delete recordId result.

(** STEP 3, then the rest. *)
Definition promote_decisions (recordId : string) (payload : promote_payload)
    (result : promote_result) : GM promote_result :=
  let decisionsToCreate := decisions payload in
  if Nat.ltb 0 (List.length decisionsToCreate) then
    c <- attempt (createAirtableRecords DECISIONS_TABLE decisionsToCreate) ;;
    match c with
    | inl createdDecisionIds =>
        if negb (Nat.eqb (List.length createdDecisionIds) (List.length decisionsToCreate))
        then ret (with_error result (mismatch "Decision" (List.length decisionsToCreate)
                                                  (List.length createdDecisionIds)))
        else promote_check_total recordId
               (mk_result (ok result) (inboxRecordId result) (createdTasks result)
                  createdDecisionIds (inboxDeleted result) (error result))
    | inr msg => ret (with_error result ("Decision creation failed: " ++ msg))
    end
  else promote_check_total recordId result.

(** STEP 2, then the rest. *)
Definition promote_tasks (recordId : string) (payload : promote_payload)
    (result : promote_result) : GM promote_result :=
  let tasksToCreate := tasks payload in
  if Nat.ltb 0 (List.length tasksToCreate) then
    c <- attempt (createAirtableRecords TASKS_TABLE tasksToCreate) ;;
    match c with
    | inl createdTaskIds =>
        if negb (Nat.eqb (List.length createdTaskIds) (List.length tasksToCreate))
        then ret (with_error result (mismatch "Task" (List.length tasksToCreate)
                                              (List.length createdTaskIds)))
        else promote_decisions recordId payload
               (mk_result (ok result) (inboxRecordId result) createdTaskIds
                  (createdDecisions result) (inboxDeleted result) (error result))
    | inr msg => ret (with_error result ("Task creation failed: " ++ msg))
    end
  else promote_decisions recordId payload result.

Definition promoteInboxItem (inboxRecordId : string) (payload : promote_payload)
    : GM promote_result :=
  let result := mk_result false inboxRecordId [] [] false None in
  r <- attempt (getAirtableRecord INBOX_TABLE inboxRecordId) ;;
  match r with
  | inr msg => ret (with_error result ("Failed to fetch Inbox record: " ++ msg))
  | inl inboxRecord =>
      match inboxRecord with
      | Some j =>
          if truthy j then promote_tasks inboxRecordId payload result
          else ret (with_error result ("Inbox record not found: " ++ inboxRecordId))
      | None => ret (with_error result ("Inbox record not found: " ++ inboxRecordId))
      end
  end.

End Script.

Definition is_delete (c : call) : bool :=
  match c with GasDelete _ _ => true | _ => false end.

End Promote.

(* ========================================================================= *)
(** ** The Airtable REST API as an in-memory record store                    *)
(* ========================================================================= *)

Module Airtable.

Record record := mk_record { id : string; fields : list (string * json) }.

(** The base: its rows (table name, record) in creation order, and the
    counter from which new record ids are drawn. *)
Record store := mk_store { rows : list (string * record); next : nat }.

Definition bslash : ascii := "\"%char.

(** [value.replace(/\\/g, "\\\\")] and [.replace(/"/g, '\\"')] on one
    character. *)
Fixpoint replace_char (c : ascii) (rep : string) (s : string) : string :=
  match s with
  | EmptyString => EmptyString
  | String c' r => if Ascii.eqb c' c then rep ++ replace_char c rep r
                   else String c' (replace_char c rep r)
  end.

(** [escapeFormulaValue] ([src/unnamed/part_001] lines 379-381). *)
Definition escapeFormulaValue (value : string) : string :=
  replace_char dq (String bslash (String dq EmptyString))
    (replace_char bslash (String bslash (String bslash EmptyString)) value).

(** How the store reads the body of a double-quoted string literal of a
    formula: a backslash takes the next character literally. *)
Fixpoint unescape (s : string) : string :=
  match s with
  | EmptyString => EmptyString
  | String c r =>
      if Ascii.eqb c bslash then
        match r with
        | EmptyString => EmptyString
        | String c' r' => String c' (unescape r')
        end
      else String c (unescape r)
  end.

(** A literal body that sits between two double quotes as one string literal:
    every double quote in it is taken by a preceding backslash, and no
    backslash is left without a character to take at its end. *)
Fixpoint literal_body_ok (s : string) : bool :=
  match s with
  | EmptyString => true
  | String c r =>
      if Ascii.eqb c bslash then
        match r with
        | EmptyString => false
        | String _ r' => literal_body_ok r'
        end
      else negb (Ascii.eqb c dq) && literal_body_ok r
  end.

(** The formula [{field}="literal"]: a text field equal to the literal's
    value; an empty field reads as the empty string. *)
Definition matches (f lit : string) (r : record) : bool :=
  match lookup f (fields r) with
  | Some (JStr x) => String.eqb x (unescape lit)
  | None => String.eqb (unescape lit) ""
  | Some _ => false
  end.

Fixpoint find_first (rs : list (string * record)) (t f lit : string) : option record :=
  match rs with
  | [] => None
  | (t', r) :: rest =>
      if String.eqb t' t && matches f lit r then Some r else find_first rest t f lit
  end.

Definition record_json (r : record) : json :=
  JObj [("id", JStr (id r)); ("fields", JObj (fields r))].

(** PATCH: the given fields overwrite or extend the record's fields. *)
Fixpoint fld_set (k : string) (v : json) (l : list (string * json)) : list (string * json) :=
  match l with
  | [] => [(k, v)]
  | (k', v') :: r => if String.eqb k k' then (k', v) :: r else (k', v') :: fld_set k v r
  end.

Definition patch (old new : list (string * json)) : list (string * json) :=
  fold_left (fun acc kv => fld_set (fst kv) (snd kv) acc) new old.

Fixpoint update_rows (t i : string) (fs : list (string * json)) (rs : list (string * record))
    : option (list (string * record) * record) :=
  match rs with
  | [] => None
  | (t', r) :: rest =>
      if String.eqb t' t && String.eqb (id r) i then
        let r' := mk_record (id r) (patch (fields r) fs) in Some ((t', r') :: rest, r')
      else
        match update_rows t i fs rest with
        | Some (rest', r') => Some ((t', r) :: rest', r')
        | None => None
        end
  end.

(** The requests the sources send: a [filterByFormula={field}="literal"] search
    with [maxRecords=1], a POST of [{fields}], a PATCH of [{fields}]. *)
Inductive request :=
| FindOne (table field literal : string)
| Create (table : string) (fs : list (string * json))
| Update (table rid : string) (fs : list (string * json)).

(** [res.ok] and [await res.json()]. *)
Record http := mk_http { res_ok : bool; data : json }.

Definition new_id (n : nat) : string := "rec" ++ string_of_nat n.

Definition mem_server (s : store) (q : request) : http * store :=
  match q with
  | FindOne t f lit =>
      (mk_http true (JObj [("records", JArr (match find_first (rows s) t f lit with
                                             | Some r => [record_json r]
                                             | None => [] end))]), s)
  | Create t fs =>
      let r := mk_record (new_id (next s)) fs in
      (mk_http true (record_json r), mk_store (rows s ++ [(t, r)]) (S (next s)))
  | Update t i fs =>
      match update_rows t i fs (rows s) with
      | Some (rs', r') => (mk_http true (record_json r'), mk_store rs' (next s))
      | None => (mk_http false (JObj [("error", JObj [("type", JStr "NOT_FOUND")])]), s)
      end
  end.

(** The same store when every update is refused. *)
Definition update_failing_server (s : store) (q : request) : http * store :=
  match q with
  | Update _ _ _ =>
      (mk_http false (JObj [("error", JObj [("type", JStr "SERVER_ERROR");
                                           ("message", JStr "Update failed")])]), s)
  | _ => mem_server s q
  end.

End Airtable.

(* ========================================================================= *)
(** ** The OS Airtable client ([src/unnamed/part_001] lines 211-374)         *)
(* ========================================================================= *)

Module StoreM.
Import Airtable.

(** An async computation of a route: it runs against the store, may throw an
    error (its message) and leaves the store as the requests it sent made it. *)
Definition M (A : Type) := store -> (A + string) * store.

Definition ret {A} (x : A) : M A := fun s => (inl x, s).
Definition throw {A} (msg : string) : M A := fun s => (inr msg, s).
Definition bind {A B} (m : M A) (k : A -> M B) : M B :=
  fun s => match m s with
           | (inl x, s') => k x s'
           | (inr e, s') => (inr e, s')
           end.

Notation "x <- m ;; k" := (bind m (fun x => k)) (at level 61, m at next level, right associativity).

(** [${x}] of a JSON value. *)
Fixpoint js_template (j : json) : string :=
  match j with
  | JNull => "null"
  | JBool true => "true"
  | JBool false => "false"
  | JNum z => number_to_string z
  | JStr s => s
  | JObj _ => "[object Object]"
  | JArr l =>
      (fix go (l : list json) : string :=
         let elem x := match x with JNull => "" | _ => js_template x end in
         match l with
         | [] => ""
         | [x] => elem x
         | x :: r => elem x ++ "," ++ go r
         end) l
  end.

Definition truthy_opt (o : option json) : bool :=
  match o with Some v => truthy v | None => false end.

(** [a || d] with a defined default. *)
Definition or_default (o : option json) (d : json) : json :=
  match o with Some v => if truthy v then v else d | None => d end.

(** [j.k]: reading a property of [null] throws. *)
Definition get_prop (j : json) (k : string) : M (option json) :=
  match j with
  | JNull => throw ("TypeError: Cannot read properties of null (reading '" ++ k ++ "')")
  | _ => ret (prop j k)
  end.

(** [o.k] where [o] may be [undefined]. *)
Definition get_prop_opt (o : option json) (k : string) : M (option json) :=
  match o with
  | Some j => get_prop j k
  | None => throw ("TypeError: Cannot read properties of undefined (reading '" ++ k ++ "')")
  end.

(** A value used through a string method ([.replace], [.match]). *)
Definition as_string (o : option json) : M string :=
  match o with
  | Some (JStr s) => ret s
  | _ => throw "TypeError: value is not a string"
  end.

(** [data?.error?.message || JSON.stringify(data)] *)
Definition err_detail (data : json) : string :=
  match prop data "error" with
  | Some e => match prop e "message" with
              | Some m => if truthy m then js_template m else stringify data
              | None => stringify data
              end
  | None => stringify data
  end.

Section Client.

Variable server : store -> request -> http * store.

Definition send (q : request) : M http :=
  fun s => let (h, s') := server s q in (inl h, s').

(** [findOneByFormula(tableId, `{field}="literal"`)] *)
Definition findOneByFormula (tableId field literal : string) : M (option json) :=
  res <- send (FindOne tableId field literal) ;;
  if negb (res_ok res) then throw ("Airtable find failed: " ++ err_detail (data res))
  else
    records <- get_prop (data res) "records" ;;
    match records with
    | None | Some JNull => throw "TypeError: Cannot read properties of undefined (reading 'length')"
    | Some (JArr []) => ret None
    | Some (JArr (r :: _)) => ret (Some r)
    | Some (JStr (String c _)) => ret (Some (JStr (String c EmptyString)))
    | Some _ => ret None
    end.

Definition createRecord (tableId : string) (fs : list (string * json)) : M json :=
  res <- send (Create tableId fs) ;;
  if negb (res_ok res) then throw ("Airtable create failed: " ++ err_detail (data res))
  else
    e <- get_prop (data res) "error" ;;
    if truthy_opt e then throw ("Airtable create failed: " ++ err_detail (data res))
    else ret (data res).

Definition updateRecord (tableId recordId : string) (fs : list (string * json)) : M json :=
  res <- send (Update tableId recordId fs) ;;
  if negb (res_ok res) then throw ("Airtable update failed: " ++ err_detail (data res))
  else
    e <- get_prop (data res) "error" ;;
    if truthy_opt e then throw ("Airtable update failed: " ++ err_detail (data res))
    else ret (data res).

End Client.

End StoreM.

(* ========================================================================= *)
(** ** Web app entry point ([src/unnamed/part_004] doPost)                   *)
(* ========================================================================= *)

Module PromoteEntry.
Import Promote.

(** [doPost] ([src/unnamed/part_004] lines 36-62).  The call [promoteInboxItem(inboxRecordId, payload)]
    receives the two values as the request holds them, so it is a parameter
    here: [promote] stands for it, returning the result object it builds.
    [jsonResponse] drops its status argument: the answer is the object. *)
Section DoPost.

Variable promote : json -> json -> GM json.
(** [PropertiesService...getProperty("SHARED_SECRET")]: [null] when unset. *)
Variable SHARED_SECRET : option string.

Definition failure (msg : string) : json := JObj [("ok", JBool false); ("error", JStr msg)].

(** The [catch]: [err.message || "Unknown error"]. *)
Definition caught (msg : string) : json :=
  failure (if String.eqb msg "" then "Unknown error" else msg).

(** [e.postData.contents] parsed: [None] when it is not JSON. *)
Definition doPost (contents : option json) : GM json :=
  match contents with
  | None => ret (caught "Unexpected token in JSON")
  | Some JNull => ret (caught "Cannot read properties of null (reading 'secret')")
  | Some payload =>
      let providedSecret := js_or (prop payload "secret") (Some (JStr "")) in
      let authorized :=
        match SHARED_SECRET, providedSecret with
        | Some secret, Some (JStr provided) => negb (String.eqb secret "") && String.eqb provided secret
        | _, _ => false
        end in
      if negb authorized then ret (failure "Unauthorized") else
      let action := prop payload "action" in
      let inboxRecordId := prop payload "inboxRecordId" in
      if negb (match action with Some (JStr a) => String.eqb a "promote" | _ => false end)
      then ret (failure ("Unknown action: " ++
                         match action with Some a => StoreM.js_template a | None => "undefined" end))
      else if negb (match inboxRecordId with Some v => truthy v | None => false end)
      then ret (failure "inboxRecordId is required")
      else
        r <- attempt (promote (match inboxRecordId with Some v => v | None => JNull end) payload) ;;
        match r with
        | inl result => ret result
        | inr msg => ret (caught msg)
        end
  end.

End DoPost.

End PromoteEntry.

(** [extractDomainFromEmail] ([src/unnamed/part_001] lines 400-411). *)
Module EmailDomain.

(** The part of [r] before its first [>], if [r] has one. *)
Fixpoint take_until_gt (r : string) : option string :=
  match r with
  | EmptyString => None
  | String c r' =>
      if Ascii.eqb c ">"%char then Some EmptyString
      else match take_until_gt r' with
           | Some cap => Some (String c cap)
           | None => None
           end
  end.

(** [email.match(/<([^>]+)>/)?.[1]]: the leftmost [<] followed by a non-empty
    run of characters other than [>] and then a [>]. *)
Fixpoint angle_match (s : string) : option string :=
  match s with
  | EmptyString => None
  | String c r =>
      if Ascii.eqb c "<"%char then
        match take_until_gt r with
        | Some cap => if String.eqb cap "" then angle_match r else Some cap
        | None => angle_match r
        end
      else angle_match r
  end.

(** [s.slice(s.lastIndexOf(c) + 1)], or [None] when [c] does not occur. *)
Fixpoint after_last (c : ascii) (s : string) : option string :=
  match s with
  | EmptyString => None
  | String c' r =>
      match after_last c r with
      | Some x => Some x
      | None => if Ascii.eqb c' c then Some r else None
      end
  end.

Definition extractDomainFromEmail (email : string) : option string :=
  if String.eqb email "" then None else
  let emailAddr := match angle_match email with Some cap => cap | None => email end in
  match after_last "@"%char emailAddr with
  | None => None
  | Some d => Some (normalizeDomain d)
  end.

End EmailDomain.

(* ========================================================================= *)
(** ** Gmail inbox ingestion ([src/app/api/inbox/email/route.ts])           *)
(* ========================================================================= *)

Module OSRoute.
Import Airtable StoreM EmailDomain.

(** The environment variables the route reads at module load. *)
Record env := mk_env {
  AIRTABLE_API_KEY : option string;
  AIRTABLE_OS_BASE_ID : option string;
  AIRTABLE_OS_TABLE_COMPANIES : option string;
  AIRTABLE_OS_TABLE_OPPORTUNITIES : option string;
  AIRTABLE_OS_TABLE_INBOX_ITEMS : option string;
  INBOX_SHARED_SECRET : option string }.

Definition is_set (v : option string) : bool :=
  match v with Some x => negb (String.eqb x "") | None => false end.

Definition missingEnvVars (E : env) : list string :=
  flat_map (fun nv => if is_set (snd nv) then [] else [fst nv])
    [("AIRTABLE_API_KEY", AIRTABLE_API_KEY E); ("AIRTABLE_OS_BASE_ID", AIRTABLE_OS_BASE_ID E);
     ("AIRTABLE_OS_TABLE_COMPANIES", AIRTABLE_OS_TABLE_COMPANIES E);
     ("AIRTABLE_OS_TABLE_OPPORTUNITIES", AIRTABLE_OS_TABLE_OPPORTUNITIES E);
     ("AIRTABLE_OS_TABLE_INBOX_ITEMS", AIRTABLE_OS_TABLE_INBOX_ITEMS E);
     ("INBOX_SHARED_SECRET", INBOX_SHARED_SECRET E)].

(** [TABLE!] in a URL. *)
Definition table (v : option string) : string :=
  match v with Some t => t | None => "undefined" end.

Definition SOURCE_SYSTEM : string := "OS – Gmail Inbox".

Definition nl : ascii := ascii_of_nat 10.

(** [CompanyResult], [OpportunityResult] and [InboxEmailResponse]
    ([src/lib/inbox-types.ts]); record ids are the JSON the store returned.
    The [_debug] member depends on the deployment only and is left out. *)
Record CompanyResult := mk_company {
  c_id : option json; c_name : json; c_domain : string; c_created : bool }.

Record OpportunityResult := mk_opp { o_id : option json; o_name : json; o_attached : bool }.

Record InboxEmailResponse := mk_resp {
  r_ok : bool; r_status : string; r_traceId : string;
  r_company : option CompanyResult; r_opportunity : option OpportunityResult;
  r_inboxItem : option (option json); r_error : option string }.

(** The HTTP status and the JSON body of the route's answer. *)
Record route_response := mk_out { http_status : Z; out : InboxEmailResponse }.

(** The request: its [x-inbox-secret] header and its body, [None] when the
    body is not JSON. *)
Record post_request := mk_req { x_inbox_secret : option string; body : option json }.

(** [{ k: v }] where [v] may be [undefined] (left out by [JSON.stringify]). *)
Definition opt_field (k : string) (o : option json) : list (string * json) :=
  match o with Some v => [(k, v)] | None => [] end.

(** [if (v) fields[k] = v] *)
Definition cond_field (k : string) (o : option json) : list (string * json) :=
  if truthy_opt o then opt_field k o else [].

(** [undefined] inside an array serializes as [null]. *)
Definition elem (o : option json) : json :=
  match o with Some v => v | None => JNull end.

Definition json_is (j : json) (s : string) : bool :=
  match j with JStr x => String.eqb x s | _ => false end.

(** [v.slice(0, n)] *)
Definition slice_value (n : nat) (v : json) : M json :=
  match v with
  | JStr x => ret (JStr (substring 0 n x))
  | JArr l => ret (JArr (firstn n l))
  | _ => throw "TypeError: slice is not a function"
  end.

Section Route.

Variable server : store -> request -> http * store.
Variable E : env.
Variable traceId : string.

Definition COMPANIES : string := table (AIRTABLE_OS_TABLE_COMPANIES E).
Definition OPPORTUNITIES : string := table (AIRTABLE_OS_TABLE_OPPORTUNITIES E).
Definition INBOX_ITEMS : string := table (AIRTABLE_OS_TABLE_INBOX_ITEMS E).

Definition errorResponse (error : string) (status : Z) : route_response :=
  mk_out status (mk_resp false "error" traceId None None None (Some error)).

Definition jsonResponse (d : InboxEmailResponse) : route_response := mk_out 200 d.

(** The [return] of an existing company. *)
Definition company_found (existing : json) (normalizedDomain : string) : M CompanyResult :=
  i <- get_prop existing "id" ;;
  f <- get_prop existing "fields" ;;
  n <- get_prop_opt f "Company Name" ;;
  ret (mk_company i (or_default n (JStr normalizedDomain)) normalizedDomain false).

(** The fields of a new company ([companyName] is [fromName || normalizedDomain]). *)
Definition company_fields (fromName : option json) (normalizedDomain : string)
    : list (string * json) :=
  [("Company Name", or_default fromName (JStr normalizedDomain));
   ("Domain", JStr normalizedDomain);
   ("Normalized Domain", JStr normalizedDomain); ("Source System", JStr SOURCE_SYSTEM)].

Definition getOrCreateCompany (domain : string) (fromName : option json) : M CompanyResult :=
  let normalizedDomain := normalizeDomain domain in
  if String.eqb normalizedDomain "" then throw "Cannot determine company domain" else
  let escapedDomain := escapeFormulaValue normalizedDomain in
  existing <- findOneByFormula server COMPANIES "Normalized Domain" escapedDomain ;;
  match existing with
  | Some r => company_found r normalizedDomain
  | None =>
      existing' <- findOneByFormula server COMPANIES "Domain" escapedDomain ;;
      match existing' with
      | Some r => company_found r normalizedDomain
      | None =>
          let companyName := or_default fromName (JStr normalizedDomain) in
          created <- createRecord server COMPANIES (company_fields fromName normalizedDomain) ;;
          i <- get_prop created "id" ;;
          ret (mk_company i companyName normalizedDomain true)
      end
  end.

(** The existing item's [id] and [Activity Log]. *)
Definition findDuplicateInboxItem (gmailMessageId : option json)
    : M (option (option json * option json)) :=
  g <- as_string gmailMessageId ;;
  existing <- findOneByFormula server INBOX_ITEMS "Gmail Message ID" (escapeFormulaValue g) ;;
  match existing with
  | None => ret None
  | Some r =>
      i <- get_prop r "id" ;;
      f <- get_prop r "fields" ;;
      l <- get_prop_opt f "Activity Log" ;;
      ret (Some (i, l))
  end.

Definition findOpportunityByThreadId (gmailThreadId : option json)
    : M (option (option json * json)) :=
  t <- as_string gmailThreadId ;;
  existing <- findOneByFormula server OPPORTUNITIES "Gmail Thread ID" (escapeFormulaValue t) ;;
  match existing with
  | None => ret None
  | Some r =>
      i <- get_prop r "id" ;;
      f <- get_prop r "fields" ;;
      n <- get_prop_opt f "Opportunity Name" ;;
      ret (Some (i, or_default n (JStr "Unnamed")))
  end.

Definition createOpportunity (subject companyId : option json) (companyName : json)
    (gmailThreadId : option json) : M OpportunityResult :=
  let opportunityName :=
    or_default subject (JStr (js_template companyName ++ " — New Opportunity")) in
  created <- createRecord server OPPORTUNITIES
    ([("Opportunity Name", opportunityName); ("Company", JArr [elem companyId]);
      ("Stage", JStr "Qualification"); ("Source System", JStr SOURCE_SYSTEM)]
     ++ opt_field "Gmail Thread ID" gmailThreadId) ;;
  i <- get_prop created "id" ;;
  ret (mk_opp i opportunityName false).

Definition created_entry (now : string) : string :=
  "[" ++ now ++ "] Created via inbox ingestion (" ++ traceId ++ ")".

Definition duplicate_entry (now : string) : string :=
  "[" ++ now ++ "] Duplicate ingestion attempt (" ++ traceId ++ ")".

(** [payload.from.k]; [from] is an object once [from.email] was checked. *)
Definition from_prop (payload : json) (k : string) : option json :=
  match prop payload "from" with Some f => prop f k | None => None end.

(** [now] is [new Date().toISOString()]. *)
Definition createInboxItem (payload : json) (domain : string) (companyId : option json)
    (disposition : string) (opportunityId : option json) (now : string) : M (option json) :=
  bodyText <- (if truthy_opt (prop payload "bodyText")
               then b <- slice_value 10000 (elem (prop payload "bodyText")) ;; ret [("Body Text", b)]
               else ret []) ;;
  let fields :=
    ([("Trace ID", JStr traceId)]
     ++ opt_field "Gmail Message ID" (prop payload "gmailMessageId")
     ++ opt_field "Gmail Thread ID" (prop payload "gmailThreadId")
     ++ [("Subject", or_default (prop payload "subject") (JStr "(no subject)"))]
     ++ opt_field "From Email" (from_prop payload "email")
     ++ [("Domain", JStr domain); ("Disposition", JStr disposition);
         ("Company", JArr [elem companyId])]
     ++ cond_field "Gmail URL" (prop payload "gmailUrl")
     ++ cond_field "Snippet" (prop payload "snippet")
     ++ bodyText
     ++ cond_field "From Name" (from_prop payload "name")
     ++ cond_field "Received At" (prop payload "receivedAt")
     ++ (if truthy_opt opportunityId then [("Opportunity", JArr [elem opportunityId])] else [])
     ++ [("Raw Payload", JStr (substring 0 50000 (stringify payload)));
         ("Activity Log", JStr (created_entry now))])%list in
  created <- createRecord server INBOX_ITEMS fields ;;
  get_prop created "id".

(** The new text of the log: [existingLog ? `${existingLog}\n${newEntry}` : newEntry]. *)
Definition updated_log (existingLog : option json) (now : string) : string :=
  if truthy_opt existingLog
  then js_template (elem existingLog) ++ String nl (duplicate_entry now)
  else duplicate_entry now.

Definition appendActivityLog (inboxItemId existingLog : option json) (now : string) : M unit :=
  u <- updateRecord server INBOX_ITEMS
         (match inboxItemId with Some v => js_template v | None => "undefined" end)
         [("Activity Log", JStr (updated_log existingLog now))] ;;
  ret tt.

(** Step 3: the opportunity (if any), the disposition and the final status. *)
Definition handle_mode (mode : json) (company : CompanyResult) (subject gmailThreadId : option json)
    : M (option OpportunityResult * string * string) :=
  if json_is mode "log_only" then ret (None, "Logged", "logged")
  else if json_is mode "company_only" then
    ret (None, if c_created company then "Company Created" else "Company Exists", "company_only")
  else
    existingOpp <- findOpportunityByThreadId gmailThreadId ;;
    match existingOpp with
    | Some (i, n) => ret (Some (mk_opp i n true), "Attached", "attached")
    | None =>
        o <- createOpportunity subject (c_id company) (c_name company) gmailThreadId ;;
        ret (Some o, "Opportunity Created", "opportunity_created")
    end.

(** The body of the [try] of [POST], after the parse of the request. *)
Definition post_payload (payload : json) (now : string) : M route_response :=
  gmailMessageId <- get_prop payload "gmailMessageId" ;;
  if negb (truthy_opt gmailMessageId) then ret (errorResponse "Missing gmailMessageId" 400) else
  gmailThreadId <- get_prop payload "gmailThreadId" ;;
  if negb (truthy_opt gmailThreadId) then ret (errorResponse "Missing gmailThreadId" 400) else
  from <- get_prop payload "from" ;;
  let email := match from with Some JNull | None => None | Some f => prop f "email" end in
  if negb (truthy_opt email) then ret (errorResponse "Missing from.email" 400) else
  subject <- get_prop payload "subject" ;;
  if negb (truthy_opt subject) then ret (errorResponse "Missing subject" 400) else
  e <- as_string email ;;
  match extractDomainFromEmail e with
  | None => ret (errorResponse "Cannot extract domain from sender email" 400)
  | Some domain =>
      if String.eqb domain "" then ret (errorResponse "Cannot extract domain from sender email" 400)
      else
      let normalizedDomain := normalizeDomain domain in
      modeOpt <- get_prop payload "mode" ;;
      let mode := or_default modeOpt (JStr "opportunity") in
      (* the log line reads [payload.subject?.slice(0, 100)] *)
      logged <- slice_value 100 (elem subject) ;;
      fromName <- get_prop_opt from "name" ;;
      company <- getOrCreateCompany normalizedDomain fromName ;;
      duplicate <- findDuplicateInboxItem gmailMessageId ;;
      match duplicate with
      | Some (i, existingLog) =>
          u <- appendActivityLog i existingLog now ;;
          ret (jsonResponse (mk_resp true "duplicate" traceId (Some company) None (Some i) None))
      | None =>
          step3 <- handle_mode mode company subject gmailThreadId ;;
          let '(opportunityResult, disposition, finalStatus) := step3 in
          inboxItemId <- createInboxItem payload normalizedDomain (c_id company) disposition
                           (match opportunityResult with Some o => o_id o | None => None end) now ;;
          ret (jsonResponse (mk_resp true finalStatus traceId (Some company) opportunityResult
                                     (Some inboxItemId) None))
      end
  end.

(** The [try] block of [POST]; the client constructor cannot throw once no
    variable is missing. *)
Definition post_main (req : post_request) (now : string) : M route_response :=
  let missing := missingEnvVars E in
  if negb (Nat.eqb (List.length missing) 0)
  then ret (errorResponse ("Missing env vars: " ++ join ", " missing) 500) else
  let authorized :=
    match x_inbox_secret req, INBOX_SHARED_SECRET E with
    | Some provided, Some secret => negb (String.eqb provided "") && String.eqb provided secret
    | _, _ => false
    end in
  if negb authorized then ret (errorResponse "Unauthorized" 401) else
  match body req with
  | None => ret (errorResponse "Invalid JSON body" 400)
  | Some payload => post_payload payload now
  end.

(** [POST]: the [catch] turns any error into a 500 answer. *)
Definition POST (req : post_request) (now : string) (s : store) : route_response * store :=
  match post_main req now s with
  | (inl r, s') => (r, s')
  | (inr message, s') => (errorResponse message 500, s')
  end.

End Route.

End OSRoute.

(* ========================================================================= *)
(** ** Gmail company route ([src/unnamed/part_011] lines 155-234)           *)
(* ========================================================================= *)

Module GmailRoute.
Import Airtable StoreM.

(** [normalizedDomain.replace(/"/g, '\\"')]: only the double quote is escaped. *)
Definition escape_quotes (s : string) : string :=
  replace_char dq (String bslash (String dq EmptyString)) s.

(** The [opts] argument; the optional members are the request body's values. *)
Record company_opts := mk_opts {
  domain : string; companyName : option json; website : option json;
  industry : option json; notes : option json }.

Record company_result := mk_result {
  recordId : option json; created : bool; matchedBy : option string }.

Section Gmail.

Variable server : store -> request -> http * store.
Variable INBOUND_COMPANY_TABLE : string.

(** [if (searchData.records?.length > 0) return searchData.records[0].id]. *)
Definition records_hit (searchData : json) : M (option (option json)) :=
  records <- get_prop searchData "records" ;;
  match records with
  | Some (JArr (r :: _)) => i <- get_prop r "id" ;; ret (Some i)
  | Some (JStr (String _ _)) => ret (Some None)
  | _ => ret None
  end.

(** [createData.error.message || JSON.stringify(createData.error)] *)
Definition create_error_message (e : json) : string :=
  match prop e "message" with
  | Some m => if truthy m then js_template m else stringify e
  | None => stringify e
  end.

(** [companyFields]: the three identity fields, then the optional ones. *)
Definition companyFields (opts : company_opts) (normalizedDomain : string)
    : list (string * json) :=
  ([("Name", or_default (companyName opts) (JStr normalizedDomain));
    ("domain", JStr normalizedDomain);
    ("normalizedDomain_text", JStr normalizedDomain)]
   ++ OSRoute.cond_field "Website" (website opts)
   ++ OSRoute.cond_field "Industry" (industry opts)
   ++ OSRoute.cond_field "Notes" (notes opts))%list.

Definition getOrCreateCompany (opts : company_opts) : M company_result :=
  let normalizedDomain := normalizeDomain (domain opts) in
  if String.eqb normalizedDomain "" then throw "Cannot create company: no valid domain provided"
  else
  searchRes1 <- send server (FindOne INBOUND_COMPANY_TABLE "normalizedDomain_text"
                               (escape_quotes normalizedDomain)) ;;
  hit1 <- records_hit (data searchRes1) ;;
  match hit1 with
  | Some rid => ret (mk_result rid false (Some "normalizedDomain_text"))
  | None =>
      searchRes2 <- send server (FindOne INBOUND_COMPANY_TABLE "domain"
                                   (escape_quotes normalizedDomain)) ;;
      hit2 <- records_hit (data searchRes2) ;;
      match hit2 with
      | Some rid => ret (mk_result rid false (Some "domain"))
      | None =>
          createRes <- send server (Create INBOUND_COMPANY_TABLE (companyFields opts normalizedDomain)) ;;
          e <- get_prop (data createRes) "error" ;;
          match e with
          | Some ej =>
              if truthy ej then throw ("Failed to create company: " ++ create_error_message ej)
              else rid <- get_prop (data createRes) "id" ;; ret (mk_result rid true None)
          | None => rid <- get_prop (data createRes) "id" ;; ret (mk_result rid true None)
          end
      end
  end.

End Gmail.

End GmailRoute.

(** A sample Airtable API for the promotion script: the inbox record exists,
    every task batch is created in full, and the decisions endpoint answers
    200 with no records (a count mismatch). *)
Definition promote_sample_server (_ : list Promote.call) (c : Promote.call)
    : Promote.gas_response :=
  match c with
  | Promote.GasGet _ _ => Promote.mk_gas 200 (Some (JObj [("id", JStr "recI")]))
  | Promote.GasCreate t b =>
      if String.eqb t Promote.TASKS_TABLE
      then Promote.mk_gas 200 (Some (JObj [("records",
             JArr (map (fun _ => JObj [("id", JStr "recT")]) b))]))
      else Promote.mk_gas 200 (Some (JObj [("records", JArr [])]))
  | Promote.GasDelete _ _ => Promote.mk_gas 200 (Some (JObj []))
  end.

Definition promote_sample_payload : Promote.promote_payload :=
  Promote.mk_payload [JObj [("fields", JObj [])]] [JObj [("fields", JObj [])]].

(** A project record whose Hive OS link is padded with blanks, and a
    configuration with both bases set. *)
Definition mapping_sample_server (q : ProjectMapping.get) : ProjectMapping.response :=
  ProjectMapping.mk_response 200
    (Some (JObj [("id", JStr (ProjectMapping.g_record q));
                 ("fields", JObj [("Hive OS Project Record ID", JStr " recHIVE42 ")])])).

Definition mapping_sample_config : ProjectMapping.config :=
  ProjectMapping.mk_config "key" "appClient" "appHive" "Projects".

(** An Airtable that answers 404 to everything, and one that answers every
    call with a record. *)
Definition inbox_404_server (tr : list Promote.call) (c : Promote.call) : Promote.gas_response :=
  Promote.mk_gas 404 None.
Definition inbox_present_server (tr : list Promote.call) (c : Promote.call) : Promote.gas_response :=
  Promote.mk_gas 200 (Some (JObj [("id", JStr "recINBOX1")])).

(** An ingestion request body carrying the members of [InboxEmailPayload]
    that [POST] requires ([src/lib/inbox-types.ts]), and no optional one. *)
Definition inbox_payload (gmailMessageId gmailThreadId email name subject : string) : json :=
  JObj [("gmailMessageId", JStr gmailMessageId); ("gmailThreadId", JStr gmailThreadId);
        ("from", JObj [("email", JStr email); ("name", JStr name)]); ("subject", JStr subject)].

(** A company is findable for the normalized domain [nd] in the rows [rs]: by
    ["Normalized Domain"], or else by ["Domain"] (the two searches of the
    route's [getOrCreateCompany]). *)
Definition company_hit (rs : list (string * Airtable.record)) (C nd : string) : Prop :=
  exists r,
    Airtable.find_first rs C "Normalized Domain" (Airtable.escapeFormulaValue nd) = Some r \/
    (Airtable.find_first rs C "Normalized Domain" (Airtable.escapeFormulaValue nd) = None /\
     Airtable.find_first rs C "Domain" (Airtable.escapeFormulaValue nd) = Some r).

(* ========================================================================= *)
(** ** Reading of the merge priority rule (for C5)                          *)
(* ========================================================================= *)

Module MergeReading.

(** The value the placeholder loop leaves for key [K]: the last entry whose key
    normalizes to [K] and whose value coerces to a non-null string. *)
Definition ph_acc (K : string) (acc : option string) (kv : string * json) : option string :=
  if String.eqb (normalizeKey (fst kv)) K then
    match coerceToString (snd kv) with Some s => Some s | None => acc end
  else acc.

Definition placeholder_value (K : string) (P : list (string * json)) : option string :=
  fold_left (ph_acc K) P None.

(** The value the field loop would give for key [K] on its own: the first
    entry whose key normalizes to [K] and whose value coerces to non-null. *)
Fixpoint field_value (K : string) (M : list (string * json)) : option string :=
  match M with
  | [] => None
  | kv :: r =>
      if String.eqb (normalizeKey (fst kv)) K then
        match coerceToString (snd kv) with Some s => Some s | None => field_value K r end
      else field_value K r
  end.

(** Placeholders win whenever they supply a non-null value; fields fill the
    remaining keys; the empty key is never set. *)
Definition expected (rawBody : json) (K : string) : option string :=
  if String.eqb K "" then None else
  match placeholder_value K (entries_if_object (placeholders_of rawBody)) with
  | Some v => Some v
  | None => field_value K (entries_if_object (merge_of rawBody))
  end.

End MergeReading.

(* ========================================================================= *)
(** * Properties                                                            *)
(* ========================================================================= *)

Example normalizeKey_ex1 : normalizeKey "  {{PROJECT}}  " = "PROJECT".
Proof. reflexivity. Qed.
Example normalizeDomain_ex1 :
  normalizeDomain "HTTPS://WWW.Example.com/path?x=1" = "example.com".
Proof. reflexivity. Qed.
Example normalizeDomain_ex2 : normalizeDomain "www.www.example.com" = "www.example.com".
Proof. reflexivity. Qed.
Example normalizeKey_ex2 : normalizeKey "{{{{a}}}}" = "{{A}}".
Proof. reflexivity. Qed.
Example coerce_ex1 : coerceToString (JArr [JObj [("name", JStr " First ")]]) = Some "First".
Proof. reflexivity. Qed.
Example coerce_ex2 : coerceToString (JObj [("a", JStr "x")]) =
  Some ("{" ++ String dq "a" ++ String dq ":" ++ String dq "x" ++ String dq "}").
Proof. reflexivity. Qed.
Example coerce_ex3 : coerceToString (JNum (-120)) = Some "-120".
Proof. reflexivity. Qed.
Example merge_ex1 :
  normalizeMerge (JObj [("placeholders", JObj [("{{PROJECT}}", JStr "A")]);
                        ("fields", JObj [("PROJECT", JStr "B"); ("CLIENT", JStr "C")])])
  = [("PROJECT", "A"); ("CLIENT", "C")].
Proof. reflexivity. Qed.
Example retry_ex1 :
  Retry.fetchWithRetry (fun _ => Retry.mk_response 429 "rate") =
  (Retry.mk_response 429 "rate",
   [Retry.Fetch 1; Retry.Sleep 1000; Retry.Fetch 2; Retry.Sleep 2000; Retry.Fetch 3]).
Proof. reflexivity. Qed.

(* ------------------------------------------------------------------------- *)
(** *** Facts about the string primitives                                    *)
(* ------------------------------------------------------------------------- *)

Module StringFacts.

Lemma trim_start_idem s : trim_start (trim_start s) = trim_start s.
Proof.
  induction s as [|c r IH]; simpl; [reflexivity|].
  destruct (is_ws c) eqn:E; [exact IH | simpl; rewrite E; reflexivity].
Qed.

Lemma trim_end_idem s : trim_end (trim_end s) = trim_end s.
Proof.
  induction s as [|c r IH]; simpl; [reflexivity|].
  destruct (is_ws c && String.eqb (trim_end r) "") eqn:E; [reflexivity|].
  simpl. rewrite IH, E. reflexivity.
Qed.

Lemma trim_start_of_trim_end t :
  trim_start t = t -> trim_start (trim_end t) = trim_end t.
Proof.
  destruct t as [|c r]; simpl; [reflexivity|].
  destruct (is_ws c) eqn:E.
  - intros H. exfalso.
    assert (Hl : String.length (trim_start r) <= String.length r).
    { clear. induction r as [|d r IH]; simpl; [lia|].
      destruct (is_ws d); simpl; lia. }
    rewrite H in Hl. simpl in Hl. lia.
  - intros _. simpl. rewrite E. reflexivity.
Qed.

Lemma trim_idem s : trim (trim s) = trim s.
Proof.
  unfold trim. rewrite trim_start_of_trim_end by apply trim_start_idem.
  apply trim_end_idem.
Qed.

Lemma is_ws_upper c : is_ws (upper_char c) = is_ws c.
Proof. destruct c as [[] [] [] [] [] [] [] []]; reflexivity. Qed.

Lemma upper_char_idem c : upper_char (upper_char c) = upper_char c.
Proof. destruct c as [[] [] [] [] [] [] [] []]; reflexivity. Qed.

Lemma lower_char_idem c : lower_char (lower_char c) = lower_char c.
Proof. destruct c as [[] [] [] [] [] [] [] []]; reflexivity. Qed.

Lemma map_chars_empty f s : String.eqb (map_chars f s) "" = String.eqb s "".
Proof. destruct s; reflexivity. Qed.

Lemma trim_start_upper s :
  trim_start (toUpperCase s) = toUpperCase (trim_start s).
Proof.
  unfold toUpperCase. induction s as [|c r IH]; simpl; [reflexivity|].
  rewrite is_ws_upper. destruct (is_ws c); [exact IH | reflexivity].
Qed.

Lemma trim_end_upper s :
  trim_end (toUpperCase s) = toUpperCase (trim_end s).
Proof.
  unfold toUpperCase. induction s as [|c r IH]; simpl; [reflexivity|].
  fold (toUpperCase r) in *. rewrite IH. unfold toUpperCase.
  rewrite is_ws_upper, map_chars_empty.
  destruct (is_ws c && String.eqb (trim_end r) ""); reflexivity.
Qed.

Lemma trim_upper s : trim (toUpperCase s) = toUpperCase (trim s).
Proof. unfold trim. rewrite trim_start_upper, trim_end_upper. reflexivity. Qed.

Lemma map_chars_idem f s :
  (forall c, f (f c) = f c) -> map_chars f (map_chars f s) = map_chars f s.
Proof.
  intros Hf. induction s as [|c r IH]; simpl; [reflexivity|]. rewrite Hf, IH. reflexivity.
Qed.

(** A string whose first and last characters are not white space is its own
    trim. *)
Lemma trim_end_snoc s d :
  is_ws d = false -> trim_end (s ++ String d EmptyString) = s ++ String d EmptyString.
Proof.
  intros Hd. induction s as [|c r IH]; simpl.
  - rewrite Hd. reflexivity.
  - rewrite IH. destruct (is_ws c); [|reflexivity].
    destruct r; reflexivity.
Qed.

Lemma trim_framed c s d :
  is_ws c = false -> is_ws d = false ->
  trim (String c (s ++ String d EmptyString)) = String c (s ++ String d EmptyString).
Proof.
  intros Hc Hd. unfold trim. simpl trim_start. rewrite Hc.
  change (String c (s ++ String d EmptyString)) with ((String c s) ++ String d EmptyString).
  apply trim_end_snoc. exact Hd.
Qed.

Fixpoint all_chars (p : ascii -> bool) (s : string) : bool :=
  match s with
  | EmptyString => true
  | String c r => p c && all_chars p r
  end.

Lemma trim_no_ws s : all_chars (fun c => negb (is_ws c)) s = true -> trim s = s.
Proof.
  intros H. unfold trim.
  assert (Hs : trim_start s = s).
  { destruct s as [|c r]; simpl in *; [reflexivity|].
    apply andb_true_iff in H as [H _]. apply negb_true_iff in H. rewrite H. reflexivity. }
  rewrite Hs. clear Hs. induction s as [|c r IH]; simpl in *; [reflexivity|].
  apply andb_true_iff in H as [H1 H2]. apply negb_true_iff in H1.
  rewrite IH by exact H2. rewrite H1. reflexivity.
Qed.

(** Facts for the domain normalizer. *)
Definition lowered (s : string) : Prop := toLowerCase s = s.

Lemma lowered_toLowerCase s : lowered (toLowerCase s).
Proof. apply map_chars_idem, lower_char_idem. Qed.

Lemma lowered_substring s n m : lowered s -> lowered (substring n m s).
Proof.
  unfold lowered, toLowerCase. revert n m.
  induction s as [|c r IH]; intros n m H; simpl; [destruct n, m; reflexivity|].
  simpl in H. injection H as Hc Hr.
  destruct n as [|n]; [destruct m as [|m]|]; simpl; try reflexivity.
  - rewrite Hc. f_equal. apply IH. exact Hr.
  - apply IH. exact Hr.
Qed.

Lemma lowered_before_char c s : lowered s -> lowered (before_char c s).
Proof.
  unfold lowered, toLowerCase. induction s as [|d r IH]; intros H; simpl; [reflexivity|].
  simpl in H. injection H as Hd Hr.
  destruct (Ascii.eqb d c); simpl; [reflexivity|]. rewrite Hd, IH by exact Hr. reflexivity.
Qed.

Lemma has_char_before_char c s : has_char c (before_char c s) = false.
Proof.
  induction s as [|d r IH]; simpl; [reflexivity|].
  destruct (Ascii.eqb d c) eqn:E; simpl; [reflexivity|]. rewrite E, IH. reflexivity.
Qed.

Lemma has_char_before_char_other c d s :
  has_char c s = false -> has_char c (before_char d s) = false.
Proof.
  induction s as [|e r IH]; simpl; intros H; [reflexivity|].
  apply orb_false_iff in H as [H1 H2].
  destruct (Ascii.eqb e d); simpl; [reflexivity|]. rewrite H1, IH by exact H2. reflexivity.
Qed.

Lemma before_char_absent c s : has_char c s = false -> before_char c s = s.
Proof.
  induction s as [|d r IH]; simpl; intros H; [reflexivity|].
  apply orb_false_iff in H as [H1 H2]. rewrite H1, IH by exact H2. reflexivity.
Qed.

Lemma prefix_has_char p s c :
  String.prefix p s = true -> has_char c p = true -> has_char c s = true.
Proof.
  revert s. induction p as [|a p IH]; intros s Hp Hc; [discriminate|].
  destruct s as [|b s]; [discriminate|]. simpl in *.
  destruct (ascii_dec a b) as [<-|]; [|discriminate].
  apply orb_true_iff in Hc as [Hc|Hc]; apply orb_true_iff; [left; exact Hc|right; eauto].
Qed.

Lemma strip_protocol_no_slash d :
  has_char "/"%char d = false -> strip_protocol d = d.
Proof.
  intros H. unfold strip_protocol.
  destruct (String.prefix "http://" d) eqn:E1.
  { rewrite (prefix_has_char _ _ "/"%char E1 eq_refl) in H. discriminate. }
  destruct (String.prefix "https://" d) eqn:E2; [|reflexivity].
  rewrite (prefix_has_char _ _ "/"%char E2 eq_refl) in H. discriminate.
Qed.

Lemma has_char_substring c s n m :
  has_char c s = false -> has_char c (substring n m s) = false.
Proof.
  revert n m. induction s as [|d r IH]; intros n m H; simpl; [destruct n, m; reflexivity|].
  simpl in H. apply orb_false_iff in H as [H1 H2].
  destruct n as [|n]; [destruct m as [|m]|]; simpl; try reflexivity.
  - rewrite H1. apply IH. exact H2.
  - apply IH. exact H2.
Qed.

End StringFacts.

(* ------------------------------------------------------------------------- *)
(** *** Key normalization (C8)                                               *)
(* ------------------------------------------------------------------------- *)

(** C8 (counterexample): normalizeKey is not idempotent: the regex strips one
    pair of braces, so [normalizeKey "{{{{a}}}}" = "{{A}}"] while
    [normalizeKey "{{A}}" = "A"]. *)
Lemma normalizeKey_not_idempotent :
  ~ (forall k, normalizeKey (normalizeKey k) = normalizeKey k).
Proof.
  intros H. specialize (H "{{{{a}}}}"). vm_compute in H. discriminate H.
Qed.

(** C8 (amended): normalizeKey leaves its own result unchanged whenever that
    result neither starts with "{{" nor ends with "}}"; and
    [normalizeKey "{{Content}}" = normalizeKey "content" = "CONTENT"]. *)
Theorem normalizeKey_idempotent_on_unbraced :
  (forall k, String.prefix "{{" (normalizeKey k) = false ->
             ends_with "}}" (normalizeKey k) = false ->
             normalizeKey (normalizeKey k) = normalizeKey k) /\
  normalizeKey "{{Content}}" = "CONTENT" /\ normalizeKey "content" = "CONTENT".
Proof.
  split; [|split; reflexivity].
  intros k H1 H2.
  set (r := normalizeKey k) in *.
  assert (Htrim : trim r = r).
  { unfold r, normalizeKey. rewrite StringFacts.trim_upper, StringFacts.trim_idem. reflexivity. }
  assert (Hup : toUpperCase r = r).
  { unfold r, normalizeKey, toUpperCase.
    apply StringFacts.map_chars_idem, StringFacts.upper_char_idem. }
  unfold normalizeKey at 1. rewrite Htrim.
  unfold strip_braces. rewrite H1. cbv zeta. rewrite H2.
  rewrite Htrim. exact Hup.
Qed.

Lemma normalizeKey_idempotent_on_unbraced_witness :
  String.prefix "{{" (normalizeKey " {{Content}} ") = false /\
  normalizeKey (normalizeKey " {{Content}} ") = normalizeKey " {{Content}} ".
Proof.
  split; [reflexivity|].
  apply (proj1 normalizeKey_idempotent_on_unbraced); reflexivity.
Defined.

(* ------------------------------------------------------------------------- *)
(** *** Domain normalization (C9)                                            *)
(* ------------------------------------------------------------------------- *)

(** C9 (counterexample): normalizeDomain is not idempotent: [^www\.] is removed
    once, so "www.www.example.com" normalizes to "www.example.com", which
    normalizes to "example.com". *)
Lemma normalizeDomain_not_idempotent :
  normalizeDomain "www.www.example.com" = "www.example.com" /\
  normalizeDomain (normalizeDomain "www.www.example.com") = "example.com".
Proof. split; reflexivity. Qed.

(** C9 (amended): normalizeDomain returns its own result unchanged whenever
    that result does not start with "www." and has no leading or trailing
    white space; e.g. [normalizeDomain "example.com" = "example.com"] and
    [normalizeDomain "" = ""]. *)
Theorem normalizeDomain_idempotent_on_plain_hosts :
  (forall s, String.prefix "www." (normalizeDomain s) = false ->
             trim (normalizeDomain s) = normalizeDomain s ->
             normalizeDomain (normalizeDomain s) = normalizeDomain s) /\
  normalizeDomain "example.com" = "example.com" /\ normalizeDomain "" = "".
Proof.
  split; [|split; reflexivity].
  intros s Hw Ht.
  set (r := normalizeDomain s) in *.
  destruct (String.eqb r "") eqn:Er.
  { apply String.eqb_eq in Er. rewrite Er. reflexivity. }
  (* the shape of [r] *)
  assert (Hshape : exists d, r = strip_www (before_char "?"%char (before_char "/"%char d))
                             /\ StringFacts.lowered d).
  { unfold r, normalizeDomain in Er |- *.
    destruct (String.eqb s "") eqn:Es; [discriminate|].
    eexists; split; [reflexivity|].
    unfold strip_protocol.
    destruct (String.prefix "http://" _); [apply StringFacts.lowered_substring|];
      [apply StringFacts.lowered_toLowerCase|].
    destruct (String.prefix "https://" _); [apply StringFacts.lowered_substring|];
      apply StringFacts.lowered_toLowerCase. }
  destruct Hshape as [d [Hr Hd]].
  set (x := before_char "?"%char (before_char "/"%char d)) in Hr.
  assert (Hxl : StringFacts.lowered x).
  { apply StringFacts.lowered_before_char, StringFacts.lowered_before_char, Hd. }
  assert (Hxs : has_char "/"%char x = false).
  { apply StringFacts.has_char_before_char_other, StringFacts.has_char_before_char. }
  assert (Hxq : has_char "?"%char x = false) by apply StringFacts.has_char_before_char.
  assert (Hlow : toLowerCase r = r).
  { rewrite Hr. unfold strip_www. destruct (String.prefix "www." x);
      [apply StringFacts.lowered_substring|]; exact Hxl. }
  assert (Hslash : has_char "/"%char r = false).
  { rewrite Hr. unfold strip_www. destruct (String.prefix "www." x);
      [apply StringFacts.has_char_substring|]; exact Hxs. }
  assert (Hq : has_char "?"%char r = false).
  { rewrite Hr. unfold strip_www. destruct (String.prefix "www." x);
      [apply StringFacts.has_char_substring|]; exact Hxq. }
  unfold normalizeDomain at 1. rewrite Er. cbv zeta.
  rewrite Ht, Hlow, (StringFacts.strip_protocol_no_slash r Hslash).
  rewrite (StringFacts.before_char_absent _ r Hslash), (StringFacts.before_char_absent _ r Hq).
  unfold strip_www. rewrite Hw. reflexivity.
Qed.

Lemma normalizeDomain_idempotent_on_plain_hosts_witness :
  normalizeDomain (normalizeDomain "HTTPS://WWW.Example.com/path?x=1") =
  normalizeDomain "HTTPS://WWW.Example.com/path?x=1".
Proof.
  apply (proj1 normalizeDomain_idempotent_on_plain_hosts); reflexivity.
Defined.

(* ------------------------------------------------------------------------- *)
(** *** Value coercion (C6, C7)                                              *)
(* ------------------------------------------------------------------------- *)

Module CoerceFacts.

Definition not_ws (c : ascii) : bool := negb (is_ws c).

(** A CanonicalValue: null, or a non-empty string equal to its own trim. *)
Definition canonical (o : option string) : Prop :=
  o = None \/ exists s, o = Some s /\ s <> EmptyString /\ trim s = s.

Lemma digit_char_not_ws d : (d < 10)%N -> is_ws (digit_char d) = false.
Proof.
  intros H.
  assert (d = 0 \/ d = 1 \/ d = 2 \/ d = 3 \/ d = 4 \/ d = 5 \/ d = 6 \/ d = 7
          \/ d = 8 \/ d = 9)%N as Hd by lia.
  repeat destruct Hd as [-> | Hd]; try reflexivity; subst; reflexivity.
Qed.

Lemma digits_go_not_ws fuel n acc :
  StringFacts.all_chars not_ws acc = true ->
  StringFacts.all_chars not_ws (digits_go fuel n acc) = true.
Proof.
  revert n acc. induction fuel as [|f IH]; intros n acc H; simpl; [exact H|].
  assert (Hc : not_ws (digit_char (n mod 10)) = true).
  { unfold not_ws. rewrite digit_char_not_ws; [reflexivity|].
    apply N.mod_lt. discriminate. }
  destruct (n <? 10)%N; simpl; [rewrite Hc; exact H|].
  apply IH. simpl. rewrite Hc. exact H.
Qed.

Lemma digits_go_nonempty fuel n acc :
  acc <> EmptyString -> digits_go fuel n acc <> EmptyString.
Proof.
  revert n acc. induction fuel as [|f IH]; intros n acc H; simpl; [exact H|].
  destruct (n <? 10)%N; [discriminate|]. apply IH. discriminate.
Qed.

Lemma string_of_N_ok n :
  string_of_N n <> EmptyString /\ StringFacts.all_chars not_ws (string_of_N n) = true.
Proof.
  unfold string_of_N. split.
  - simpl. destruct (n <? 10)%N; [discriminate|]. apply digits_go_nonempty. discriminate.
  - apply digits_go_not_ws. reflexivity.
Qed.

Lemma number_to_string_canonical z : canonical (Some (number_to_string z)).
Proof.
  right. exists (number_to_string z). split; [reflexivity|].
  destruct z as [|p|p]; simpl.
  - split; [discriminate|reflexivity].
  - destruct (string_of_N_ok (Npos p)) as [H1 H2].
    split; [exact H1|]. apply StringFacts.trim_no_ws. exact H2.
  - destruct (string_of_N_ok (Npos p)) as [H1 H2].
    split; [discriminate|]. apply StringFacts.trim_no_ws. simpl. exact H2.
Qed.

Lemma trim_or_null_canonical s : canonical (trim_or_null s).
Proof.
  unfold trim_or_null. destruct (String.eqb (trim s) "") eqn:E; [left; reflexivity|].
  right. exists (trim s). split; [reflexivity|]. split.
  - intros H. rewrite H in E. discriminate.
  - apply StringFacts.trim_idem.
Qed.

Lemma stringify_composite_canonical j :
  (exists l, j = JObj l) \/ (exists l, j = JArr l) -> canonical (Some (stringify j)).
Proof.
  intros Hj. right. exists (stringify j). split; [reflexivity|].
  destruct Hj as [[l ->]|[l ->]]; simpl; (split; [discriminate|]);
    apply StringFacts.trim_framed; reflexivity.
Qed.

Lemma coerce_object_canonical o :
  (exists l, o = JObj l) \/ (exists l, o = JArr l) -> canonical (coerce_object o).
Proof.
  intros Ho. unfold coerce_object.
  destruct (prop o "name") as [[]|]; try apply trim_or_null_canonical;
  destruct (prop o "value") as [[]|]; try apply trim_or_null_canonical;
  apply stringify_composite_canonical; exact Ho.
Qed.

End CoerceFacts.

(** C6: coerceToString is total (a Rocq function, so it never raises) and its
    result is always null or a non-empty string equal to its own trim; it is
    never an empty string, an object or an array. *)
Theorem coerceToString_total_canonical :
  forall v : json, coerceToString v = None \/
    exists s, coerceToString v = Some s /\ s <> EmptyString /\ trim s = s.
Proof.
  intros v. fold (CoerceFacts.canonical (coerceToString v)).
  destruct v as [| b | z | s | l | l]; simpl.
  - left. reflexivity.
  - left. reflexivity.
  - apply CoerceFacts.number_to_string_canonical.
  - apply CoerceFacts.trim_or_null_canonical.
  - destruct l as [|first rest]; [left; reflexivity|].
    destruct first as [| | z | s | l' | l']; try (left; reflexivity).
    + apply CoerceFacts.number_to_string_canonical.
    + apply CoerceFacts.trim_or_null_canonical.
    + apply CoerceFacts.coerce_object_canonical. right. eauto.
    + apply CoerceFacts.coerce_object_canonical. left. eauto.
  - apply CoerceFacts.coerce_object_canonical. left. eauto.
Qed.

(** C7 (counterexample): an object whose [name] is a string that is empty after
    trimming yields null even when its [value] is a non-empty string: the code
    tests only [typeof obj.name === "string"] before returning
    [obj.name.trim() || null]. *)
Lemma coerce_blank_name_hides_value :
  coerceToString (JObj [("name", JStr " "); ("value", JStr "Acme")]) = None /\
  ~ (forall l n v, lookup "name" l = Some (JStr n) -> trim n = EmptyString ->
        lookup "value" l = Some (JStr v) -> trim v <> EmptyString ->
        coerceToString (JObj l) = Some (trim v)).
Proof.
  split; [reflexivity|].
  intros H. specialize (H [("name", JStr " "); ("value", JStr "Acme")] " " "Acme"
                          eq_refl eq_refl eq_refl ltac:(discriminate)).
  discriminate H.
Qed.

(** C7 (amended): for a plain object, or an array whose first element is an
    object, coerceToString returns the trimmed [name] (or null when it is
    blank) as soon as [name] is a string, whatever [value] holds; only when
    [name] is not a string does it return the trimmed [value] (or null when
    blank) if [value] is a string; when neither is a string it returns the
    serialization of the object. *)
Theorem coerce_name_value_serialize :
  forall l v, (v = JObj l \/ exists rest, v = JArr (JObj l :: rest)) ->
  (forall n, lookup "name" l = Some (JStr n) -> coerceToString v = trim_or_null n) /\
  (forall x, (forall n, lookup "name" l <> Some (JStr n)) ->
             lookup "value" l = Some (JStr x) -> coerceToString v = trim_or_null x) /\
  ((forall n, lookup "name" l <> Some (JStr n)) ->
   (forall x, lookup "value" l <> Some (JStr x)) ->
   coerceToString v = Some (stringify (JObj l))).
Proof.
  intros l v Hv.
  assert (Hc : coerceToString v = coerce_object (JObj l)).
  { destruct Hv as [-> | [rest ->]]; reflexivity. }
  rewrite Hc. unfold coerce_object, prop.
  split; [|split].
  - intros n Hn. rewrite Hn. reflexivity.
  - intros x Hn Hx. rewrite Hx.
    destruct (lookup "name" l) as [[]|] eqn:E; try reflexivity.
    exfalso. eapply Hn. reflexivity.
  - intros Hn Hx.
    destruct (lookup "name" l) as [[]|] eqn:E;
      try (exfalso; eapply Hn; reflexivity);
      destruct (lookup "value" l) as [[]|] eqn:E2;
      try (exfalso; eapply Hx; reflexivity); reflexivity.
Qed.

Lemma coerce_name_value_serialize_witness :
  coerceToString (JArr [JObj [("id", JNum 7); ("value", JStr " Acme ")]; JNull]) = Some "Acme".
Proof.
  pose proof (proj1 (proj2 (coerce_name_value_serialize [("id", JNum 7); ("value", JStr " Acme ")]
           (JArr [JObj [("id", JNum 7); ("value", JStr " Acme ")]; JNull])
           (or_intror (ex_intro _ [JNull] eq_refl)))) " Acme "
           ltac:(intros n Hn; vm_compute in Hn; discriminate Hn) eq_refl) as H.
  rewrite H. vm_compute. reflexivity.
Defined.

(* ------------------------------------------------------------------------- *)
(** *** Merge priority (C5)                                                  *)
(* ------------------------------------------------------------------------- *)

Module MergeFacts.
Import MergeReading.

Lemma mm_lookup_set K k v m :
  mm_lookup K (mm_set k v m) = if String.eqb K k then Some v else mm_lookup K m.
Proof.
  induction m as [|[k' v'] r IH]; simpl.
  - destruct (String.eqb K k); reflexivity.
  - destruct (String.eqb k k') eqn:E1; simpl.
    + apply String.eqb_eq in E1. subst k'.
      destruct (String.eqb K k); reflexivity.
    + destruct (String.eqb K k') eqn:E2.
      * apply String.eqb_eq in E2. subst k'.
        destruct (String.eqb K k) eqn:E3; [|reflexivity].
        apply String.eqb_eq in E3. subst. rewrite String.eqb_refl in E1. discriminate.
      * exact IH.
Qed.

Lemma placeholder_loop K P out :
  K <> EmptyString ->
  mm_lookup K (fold_left placeholder_step P out) = fold_left (ph_acc K) P (mm_lookup K out).
Proof.
  intros HK. revert out. induction P as [|kv P IH]; intros out; simpl; [reflexivity|].
  rewrite IH. f_equal. unfold placeholder_step, ph_acc.
  destruct (coerceToString (snd kv)) as [s|];
    destruct (String.eqb (normalizeKey (fst kv)) K) eqn:E; try reflexivity.
  - apply String.eqb_eq in E. rewrite E.
    destruct (String.eqb K "") eqn:E0.
    + apply String.eqb_eq in E0. contradiction.
    + simpl. rewrite mm_lookup_set, String.eqb_refl. reflexivity.
  - destruct (negb (String.eqb (normalizeKey (fst kv)) "")); [|reflexivity].
    rewrite mm_lookup_set, String.eqb_sym, E. reflexivity.
Qed.

Lemma merge_loop K M out :
  K <> EmptyString ->
  mm_lookup K (fold_left merge_step M out) =
  match mm_lookup K out with Some v => Some v | None => field_value K M end.
Proof.
  intros HK. revert out. induction M as [|kv M IH]; intros out; simpl.
  - destruct (mm_lookup K out); reflexivity.
  - rewrite IH. unfold merge_step.
    destruct (coerceToString (snd kv)) as [s|] eqn:Ec;
      destruct (String.eqb (normalizeKey (fst kv)) K) eqn:E.
    + apply String.eqb_eq in E. rewrite E.
      destruct (String.eqb K "") eqn:E0; [apply String.eqb_eq in E0; contradiction|].
      unfold mm_has. destruct (mm_lookup K out) as [v|] eqn:El; simpl.
      * rewrite El. reflexivity.
      * rewrite mm_lookup_set, String.eqb_refl. reflexivity.
    + destruct (negb (String.eqb (normalizeKey (fst kv)) "") &&
                negb (mm_has (normalizeKey (fst kv)) out)); [|reflexivity].
      rewrite mm_lookup_set, String.eqb_sym, E. reflexivity.
    + destruct (mm_lookup K out); reflexivity.
    + reflexivity.
Qed.

Lemma loops_skip_empty_key P M :
  mm_lookup "" (fold_left merge_step M (fold_left placeholder_step P [])) = None.
Proof.
  assert (HP : forall P out, mm_lookup "" out = None ->
            mm_lookup "" (fold_left placeholder_step P out) = None).
  { induction P0 as [|kv P0 IH]; intros out H; simpl; [exact H|].
    apply IH. unfold placeholder_step.
    destruct (coerceToString (snd kv)); [|exact H].
    destruct (String.eqb (normalizeKey (fst kv)) "") eqn:E; simpl; [exact H|].
    rewrite mm_lookup_set. rewrite String.eqb_sym, E. exact H. }
  assert (HM : forall M out, mm_lookup "" out = None ->
            mm_lookup "" (fold_left merge_step M out) = None).
  { induction M0 as [|kv M0 IH]; intros out H; simpl; [exact H|].
    apply IH. unfold merge_step.
    destruct (coerceToString (snd kv)); [|exact H].
    destruct (String.eqb (normalizeKey (fst kv)) "") eqn:E; simpl; [exact H|].
    destruct (negb (mm_has (normalizeKey (fst kv)) out)); [|exact H].
    rewrite mm_lookup_set. rewrite String.eqb_sym, E. exact H. }
  apply HM, HP. reflexivity.
Qed.

End MergeFacts.

(** C5 (counterexample): a placeholder entry whose value coerces to null (here
    an empty string) does not claim its key, so the field value for the same
    key is used: placeholders [{"{{PROJECT}}": ""}] with fields
    [{PROJECT: "B", CLIENT: "C"}] give [PROJECT = "B"]. *)
Lemma merge_blank_placeholder_yields_field :
  normalizeMerge (JObj [("placeholders", JObj [("{{PROJECT}}", JStr "")]);
                        ("fields", JObj [("PROJECT", JStr "B"); ("CLIENT", JStr "C")])])
  = [("PROJECT", "B"); ("CLIENT", "C")].
Proof. reflexivity. Qed.

(** C5 (amended): for every key [K], the merge map holds the placeholder value
    for [K] whenever some placeholder entry for [K] coerces to a non-null
    string (the last such entry); otherwise it holds the first non-null field
    value for [K], if any; the empty key is never set. The example of the spec
    holds: placeholders [{"{{PROJECT}}": "A"}] and fields
    [{PROJECT: "B", CLIENT: "C"}] give [{PROJECT: "A", CLIENT: "C"}]. *)
Theorem normalizeMerge_placeholder_priority :
  (forall rawBody K, mm_lookup K (normalizeMerge rawBody) = MergeReading.expected rawBody K) /\
  normalizeMerge (JObj [("placeholders", JObj [("{{PROJECT}}", JStr "A")]);
                        ("fields", JObj [("PROJECT", JStr "B"); ("CLIENT", JStr "C")])])
  = [("PROJECT", "A"); ("CLIENT", "C")].
Proof.
  split; [|reflexivity].
  intros rawBody K. unfold normalizeMerge, MergeReading.expected.
  destruct (String.eqb K "") eqn:E0.
  - apply String.eqb_eq in E0. subst K. apply MergeFacts.loops_skip_empty_key.
  - assert (HK : K <> EmptyString) by (intros H; subst; discriminate).
    rewrite MergeFacts.merge_loop by exact HK.
    rewrite MergeFacts.placeholder_loop by exact HK.
    reflexivity.
Qed.

(* ------------------------------------------------------------------------- *)
(** *** Retry and backoff (C10)                                              *)
(* ------------------------------------------------------------------------- *)

(** C10: whatever the store answers, [fetchWithRetry] returns the first
    response that is not a 429 without sleeping after it; each 429 on
    attempts 1 and 2 is followed by a sleep of [2^(attempt-1)] seconds
    (1000 ms, then 2000 ms) and a new attempt; a 429 on the third attempt is
    returned as it is, with no fourth attempt. So there are at most three
    fetches, and three consecutive 429s give exactly the sleeps 1 s and 2 s. *)
Theorem fetchWithRetry_backoff :
  forall server : nat -> Retry.response,
  Retry.fetchWithRetry server =
    (if negb (Z.eqb (Retry.status (server 1)) 429) then
       (server 1, [Retry.Fetch 1])
     else if negb (Z.eqb (Retry.status (server 2)) 429) then
       (server 2, [Retry.Fetch 1; Retry.Sleep 1000; Retry.Fetch 2])
     else
       (server 3, [Retry.Fetch 1; Retry.Sleep 1000; Retry.Fetch 2;
                   Retry.Sleep 2000; Retry.Fetch 3])) /\
  Retry.fetches (snd (Retry.fetchWithRetry server)) <= 3 /\
  (Z.eqb (Retry.status (server 1)) 429 = true ->
   Z.eqb (Retry.status (server 2)) 429 = true ->
   Retry.sleeps (snd (Retry.fetchWithRetry server)) = [1000; 2000] /\
   Retry.fetchWithRetry server = (server 3, [Retry.Fetch 1; Retry.Sleep 1000; Retry.Fetch 2;
                                             Retry.Sleep 2000; Retry.Fetch 3])).
Proof.
  intros server.
  assert (E : Retry.fetchWithRetry server =
    (if negb (Z.eqb (Retry.status (server 1)) 429) then
       (server 1, [Retry.Fetch 1])
     else if negb (Z.eqb (Retry.status (server 2)) 429) then
       (server 2, [Retry.Fetch 1; Retry.Sleep 1000; Retry.Fetch 2])
     else
       (server 3, [Retry.Fetch 1; Retry.Sleep 1000; Retry.Fetch 2;
                   Retry.Sleep 2000; Retry.Fetch 3]))).
  { unfold Retry.fetchWithRetry, Retry.fetchWithRetry_from. simpl.
    destruct (Z.eqb (Retry.status (server 1)) 429); simpl; [|reflexivity].
    destruct (Z.eqb (Retry.status (server 2)) 429); simpl; [|reflexivity].
    destruct (Z.eqb (Retry.status (server 3)) 429); reflexivity. }
  split; [exact E|]. rewrite E. split.
  - destruct (Z.eqb (Retry.status (server 1)) 429), (Z.eqb (Retry.status (server 2)) 429);
      apply Nat.leb_le; reflexivity.
  - intros H1 H2. rewrite H1, H2. split; reflexivity.
Qed.

(* ------------------------------------------------------------------------- *)
(** *** Promotion: no deletion before every child write succeeded (C1)       *)
(* ------------------------------------------------------------------------- *)

Module PromoteFacts.
Import Promote.

Section Facts.

Variable server : list call -> call -> gas_response.

(** [m] only appends calls, none of them a deletion. *)
Definition nodel {A} (m : GM A) : Prop :=
  forall tr, exists new, snd (m tr) = (tr ++ new)%list /\ existsb is_delete new = false.

(** The outcome of a promotion step for record [id] and payload [p]: it never
    throws, and either it reports [ok = true] and its last call, and only
    deletion, is the deletion of the inbox record, which comes after child
    batches of exactly the requested sizes, at least one child in all; or it
    reports [ok = false] and made no deletion. *)
Definition good (id : string) (p : promote_payload) (m : GM promote_result) : Prop :=
  forall tr, exists res new, m tr = (inl res, (tr ++ new)%list) /\
    ((ok res = true /\
      (exists pre, new = (pre ++ [GasDelete INBOX_TABLE id])%list /\ existsb is_delete pre = false) /\
      List.length (createdTasks res) = List.length (tasks p) /\
      List.length (createdDecisions res) = List.length (decisions p) /\
      0 < List.length (tasks p) + List.length (decisions p))
     \/ (ok res = false /\ existsb is_delete new = false)).

Lemma nodel_ret {A} (x : A) : nodel (ret x).
Proof. intros tr. exists []. rewrite app_nil_r. split; reflexivity. Qed.

Lemma nodel_throw {A} msg : nodel (A := A) (throw msg).
Proof. intros tr. exists []. rewrite app_nil_r. split; reflexivity. Qed.

Lemma nodel_bind {A B} (m : GM A) (k : A -> GM B) :
  nodel m -> (forall x, nodel (k x)) -> nodel (bind m k).
Proof.
  intros Hm Hk tr. unfold bind. destruct (Hm tr) as [n1 [E1 D1]].
  destruct (m tr) as [[x|e] tr'] eqn:Em; simpl in E1; subst tr'.
  - destruct (Hk x (tr ++ n1)%list) as [n2 [E2 D2]]. exists (n1 ++ n2)%list.
    rewrite E2, app_assoc. split; [reflexivity|]. rewrite existsb_app, D1, D2. reflexivity.
  - exists n1. split; [reflexivity|exact D1].
Qed.

Lemma nodel_fetch c : is_delete c = false -> nodel (fetch server c).
Proof. intros Hc tr. exists [c]. simpl. rewrite Hc. split; reflexivity. Qed.

Lemma nodel_parse r : nodel (parse r).
Proof. unfold parse. destruct (body r); [apply nodel_ret | apply nodel_throw]. Qed.

Lemma nodel_getAirtableRecord t i : nodel (getAirtableRecord server t i).
Proof.
  unfold getAirtableRecord. apply nodel_bind; [apply nodel_fetch; reflexivity|].
  intros r. destruct (Z.eqb (code r) 404); [apply nodel_ret|].
  destruct (negb (Z.eqb (code r) 200)); [apply nodel_throw|].
  apply nodel_bind; [apply nodel_parse|]. intros; apply nodel_ret.
Qed.

Lemma nodel_record_ids j : nodel (record_ids j).
Proof.
  unfold record_ids. destruct (js_or (prop j "records") (Some (JArr []))) as [[]|];
    try apply nodel_throw.
  destruct (existsb _ _); [apply nodel_throw | apply nodel_ret].
Qed.

Lemma nodel_create_batches t bs acc : nodel (create_batches server t bs acc).
Proof.
  revert acc. induction bs as [|b bs IH]; intros acc; simpl; [apply nodel_ret|].
  apply nodel_bind; [apply nodel_fetch; reflexivity|]. intros r.
  destruct (negb (Z.eqb (code r) 200)); [apply nodel_throw|].
  apply nodel_bind; [apply nodel_parse|]. intros j.
  apply nodel_bind; [apply nodel_record_ids|]. intros ids. apply IH.
Qed.

Lemma nodel_createAirtableRecords t l : nodel (createAirtableRecords server t l).
Proof.
  unfold createAirtableRecords. destruct l; [apply nodel_ret | apply nodel_create_batches].
Qed.

Lemma good_ret id p r : ok r = false -> good id p (ret r).
Proof.
  intros H tr. exists r, []. rewrite app_nil_r. split; [reflexivity|]. right. auto.
Qed.

Lemma good_attempt {A} id p (m : GM A) (k : A + string -> GM promote_result) :
  nodel m -> (forall x, good id p (k x)) -> good id p (bind (attempt m) k).
Proof.
  intros Hm Hk tr. unfold bind, attempt. destruct (Hm tr) as [n1 [E1 D1]].
  destruct (m tr) as [[a|e] tr'] eqn:Em; simpl in E1; subst tr';
    [destruct (Hk (inl a) (tr ++ n1)%list) as (res & n2 & E2 & H2)
    |destruct (Hk (inr e) (tr ++ n1)%list) as (res & n2 & E2 & H2)];
    exists res, (n1 ++ n2)%list; rewrite E2, app_assoc; (split; [reflexivity|]);
    (destruct H2 as [(Hok & (pre & Hpre & Dpre) & HL) | (Hok & D2)];
     [left; split; [exact Hok|]; split; [|exact HL];
      exists (n1 ++ pre)%list; rewrite Hpre, app_assoc; split; [reflexivity|];
      rewrite existsb_app, D1, Dpre; reflexivity
     |right; split; [exact Hok|]; rewrite existsb_app, D1, D2; reflexivity]).
Qed.

Lemma good_promote_delete id p r :
  List.length (createdTasks r) = List.length (tasks p) ->
  List.length (createdDecisions r) = List.length (decisions p) ->
  0 < List.length (tasks p) + List.length (decisions p) ->
  good id p (promote_delete server id r).
Proof.
  intros HT HD Hpos tr.
  unfold promote_delete, deleteAirtableRecord, parse, bind, attempt, fetch, ret, throw.
  cbn beta iota.
  destruct (negb (Z.eqb (code (server tr (GasDelete INBOX_TABLE id))) 200));
    [|destruct (body (server tr (GasDelete INBOX_TABLE id)))]; cbn beta iota;
    (eexists; exists [GasDelete INBOX_TABLE id]; split; [reflexivity|]);
    left; simpl; (split; [reflexivity|]);
    (split; [exists []; split; reflexivity|]); auto.
Qed.

Lemma good_check_total id p r :
  ok r = false ->
  List.length (createdTasks r) = List.length (tasks p) ->
  List.length (createdDecisions r) = List.length (decisions p) ->
  good id p (promote_check_total server id r).
Proof.
  intros Hok HT HD. unfold promote_check_total.
  destruct (Nat.eqb _ 0) eqn:E.
  - apply good_ret. exact Hok.
  - apply Nat.eqb_neq in E. apply good_promote_delete; [exact HT | exact HD | lia].
Qed.

Lemma good_decisions id p r :
  ok r = false ->
  List.length (createdTasks r) = List.length (tasks p) ->
  createdDecisions r = [] ->
  good id p (promote_decisions server id p r).
Proof.
  intros Hok HT HD. unfold promote_decisions.
  destruct (Nat.ltb 0 (List.length (decisions p))) eqn:Elt.
  - apply good_attempt; [apply nodel_createAirtableRecords|]. intros [ids|msg].
    + destruct (negb (Nat.eqb (List.length ids) (List.length (decisions p)))) eqn:Em.
      * apply good_ret. exact Hok.
      * apply good_check_total; [exact Hok | exact HT|]. simpl.
        apply negb_false_iff, Nat.eqb_eq in Em. exact Em.
    + apply good_ret. exact Hok.
  - apply good_check_total; [exact Hok | exact HT|]. rewrite HD.
    apply Nat.ltb_ge in Elt. simpl. lia.
Qed.

Lemma good_tasks id p r :
  ok r = false -> createdTasks r = [] -> createdDecisions r = [] ->
  good id p (promote_tasks server id p r).
Proof.
  intros Hok HT HD. unfold promote_tasks.
  destruct (Nat.ltb 0 (List.length (tasks p))) eqn:Elt.
  - apply good_attempt; [apply nodel_createAirtableRecords|]. intros [ids|msg].
    + destruct (negb (Nat.eqb (List.length ids) (List.length (tasks p)))) eqn:Em.
      * apply good_ret. exact Hok.
      * apply good_decisions; [exact Hok| |exact HD]. simpl.
        apply negb_false_iff, Nat.eqb_eq in Em. exact Em.
    + apply good_ret. exact Hok.
  - apply good_decisions; [exact Hok| |exact HD]. rewrite HT.
    apply Nat.ltb_ge in Elt. simpl. lia.
Qed.

Lemma good_promoteInboxItem id p : good id p (promoteInboxItem server id p).
Proof.
  unfold promoteInboxItem. apply good_attempt; [apply nodel_getAirtableRecord|].
  intros [[j|]|msg]; [destruct (truthy j)| |]; try (apply good_ret; reflexivity).
  apply good_tasks; reflexivity.
Qed.

End Facts.

End PromoteFacts.

(** C1: [promoteInboxItem] never throws, and
    (1) whatever the Airtable API answers, it issues a deletion iff it reports
    [ok = true]; then the deletion of the inbox record is its last call and
    its only deletion, the task and decision batches returned exactly as many
    ids as requested, and at least one child was requested; when it reports
    [ok = false] no deletion was issued at all;
    (2) when the inbox record is found, the task batch returns the requested
    count and the decision batch then returns a different count, the result
    is [ok = false], lists the created task ids, reports the inbox record as
    not deleted with a decision-mismatch error, and no deletion was issued. *)
Theorem promote_deletes_only_after_all_children :
  (forall server id p tr0, exists res new,
     Promote.promoteInboxItem server id p tr0 = (inl res, (tr0 ++ new)%list) /\
     (existsb Promote.is_delete new = true <-> Promote.ok res = true) /\
     (Promote.ok res = true ->
        (exists pre, new = (pre ++ [Promote.GasDelete Promote.INBOX_TABLE id])%list /\
                     existsb Promote.is_delete pre = false) /\
        List.length (Promote.createdTasks res) = List.length (Promote.tasks p) /\
        List.length (Promote.createdDecisions res) = List.length (Promote.decisions p) /\
        0 < List.length (Promote.tasks p) + List.length (Promote.decisions p))) /\
  (forall server id p tr0 tr1 tr2 tr3 j tids dids,
     Promote.getAirtableRecord server Promote.INBOX_TABLE id tr0 = (inl (Some j), tr1) ->
     truthy j = true ->
     Promote.createAirtableRecords server Promote.TASKS_TABLE (Promote.tasks p) tr1 = (inl tids, tr2) ->
     List.length tids = List.length (Promote.tasks p) ->
     Promote.createAirtableRecords server Promote.DECISIONS_TABLE (Promote.decisions p) tr2 =
       (inl dids, tr3) ->
     List.length dids <> List.length (Promote.decisions p) ->
     Promote.promoteInboxItem server id p tr0 =
       (inl (Promote.mk_result false id tids [] false
               (Some (Promote.mismatch "Decision" (List.length (Promote.decisions p))
                                                  (List.length dids)))), tr3) /\
     exists new, tr3 = (tr0 ++ new)%list /\ existsb Promote.is_delete new = false).
Proof.
  split.
  - intros server id p tr0.
    destruct (PromoteFacts.good_promoteInboxItem server id p tr0)
      as (res & new & E & [(Hok & (pre & Hpre & Dpre) & HL) | (Hok & D)]);
      exists res, new; (split; [exact E|]).
    + split.
      * split; [intros _; exact Hok|]. intros _. rewrite Hpre, existsb_app. simpl.
        rewrite orb_true_r. reflexivity.
      * intros _. split; [exists pre; split; assumption | exact HL].
    + rewrite Hok, D. split; [split; intros H; discriminate H|]. intros H; discriminate H.
  - intros server id p tr0 tr1 tr2 tr3 j tids dids Hget Hj Ht HT Hd HD.
    assert (Hrun : Promote.promoteInboxItem server id p tr0 =
       (inl (Promote.mk_result false id tids [] false
               (Some (Promote.mismatch "Decision" (List.length (Promote.decisions p))
                                                  (List.length dids)))), tr3)).
    { cbv [Promote.promoteInboxItem Promote.bind Promote.attempt Promote.ret].
      rewrite Hget, Hj.
      cbv [Promote.promote_tasks Promote.bind Promote.attempt Promote.ret].
      destruct (Promote.tasks p) as [|t ts] eqn:Etasks.
      - cbv [Promote.createAirtableRecords Promote.ret] in Ht.
        injection Ht as <- <-. simpl.
        cbv [Promote.promote_decisions Promote.bind Promote.attempt Promote.ret].
        destruct (Promote.decisions p) as [|d ds] eqn:Edec.
        + cbv [Promote.createAirtableRecords Promote.ret] in Hd. injection Hd as <- <-.
          exfalso. apply HD. reflexivity.
        + replace (0 <? List.length (d :: ds))%nat with true by reflexivity.
          apply Nat.eqb_neq in HD. cbv beta. rewrite Hd. cbv beta iota. rewrite HD. reflexivity.
      - replace (0 <? List.length (t :: ts))%nat with true by reflexivity.
        cbv beta. rewrite Ht. cbv beta iota. rewrite HT, Nat.eqb_refl. cbn [negb].
        cbv [Promote.promote_decisions Promote.bind Promote.attempt Promote.ret].
        destruct (Promote.decisions p) as [|d ds] eqn:Edec.
        + cbv [Promote.createAirtableRecords Promote.ret] in Hd. injection Hd as <- <-.
          exfalso. apply HD. reflexivity.
        + replace (0 <? List.length (d :: ds))%nat with true by reflexivity.
          apply Nat.eqb_neq in HD. cbv beta. rewrite Hd. cbv beta iota. rewrite HD. reflexivity. }
    split; [exact Hrun|].
    destruct (PromoteFacts.good_promoteInboxItem server id p tr0)
      as (res & new & E & [(Hok & _) | (Hok & D)]);
      rewrite Hrun in E; injection E as <- ->.
    + discriminate Hok.
    + exists new. split; [reflexivity | exact D].
Qed.

Lemma promote_deletes_only_after_all_children_witness :
  Promote.promoteInboxItem promote_sample_server "recI" promote_sample_payload [] =
    (inl (Promote.mk_result false "recI" [Some (JStr "recT")] [] false
            (Some (Promote.mismatch "Decision" 1 0))),
     [Promote.GasGet "Inbox" "recI";
      Promote.GasCreate "Tasks" [JObj [("fields", JObj [])]];
      Promote.GasCreate "Decisions" [JObj [("fields", JObj [])]]]) /\
  existsb Promote.is_delete
    [Promote.GasGet "Inbox" "recI";
     Promote.GasCreate "Tasks" [JObj [("fields", JObj [])]];
     Promote.GasCreate "Decisions" [JObj [("fields", JObj [])]]] = false.
Proof.
  destruct (proj2 promote_deletes_only_after_all_children promote_sample_server "recI"
              promote_sample_payload []
              [Promote.GasGet "Inbox" "recI"]
              [Promote.GasGet "Inbox" "recI";
               Promote.GasCreate "Tasks" [JObj [("fields", JObj [])]]]
              [Promote.GasGet "Inbox" "recI";
               Promote.GasCreate "Tasks" [JObj [("fields", JObj [])]];
               Promote.GasCreate "Decisions" [JObj [("fields", JObj [])]]]
              (JObj [("id", JStr "recI")]) [Some (JStr "recT")] []
              eq_refl eq_refl eq_refl eq_refl eq_refl ltac:(discriminate))
    as [H1 [new [H2 H3]]].
  split; [exact H1|]. rewrite H2. exact H3.
Defined.

(* ------------------------------------------------------------------------- *)
(** *** The record store                                                     *)
(* ------------------------------------------------------------------------- *)

Module StoreFacts.
Import Airtable.

Lemma find_first_app l1 l2 t f lit :
  find_first (l1 ++ l2) t f lit =
  match find_first l1 t f lit with Some r => Some r | None => find_first l2 t f lit end.
Proof.
  induction l1 as [|[t' r] l1 IH]; simpl; [reflexivity|].
  destruct (String.eqb t' t && matches f lit r); [reflexivity | exact IH].
Qed.

Lemma unescape_escape_quotes s :
  has_char bslash s = false -> unescape (GmailRoute.escape_quotes s) = s.
Proof.
  unfold GmailRoute.escape_quotes.
  induction s as [|c r IH]; simpl; [reflexivity|].
  intros H. apply orb_false_iff in H. destruct H as [Hc Hr].
  destruct (Ascii.eqb c dq) eqn:Edq.
  - apply Ascii.eqb_eq in Edq. subst c. simpl. rewrite IH by exact Hr. reflexivity.
  - simpl. rewrite Hc. rewrite IH by exact Hr. reflexivity.
Qed.

Lemma unescape_escapeFormulaValue s : unescape (escapeFormulaValue s) = s.
Proof.
  unfold escapeFormulaValue.
  induction s as [|c r IH]; simpl; [reflexivity|].
  destruct (Ascii.eqb c bslash) eqn:Eb.
  - apply Ascii.eqb_eq in Eb. subst c. simpl. rewrite IH. reflexivity.
  - destruct (Ascii.eqb c dq) eqn:Edq.
    + apply Ascii.eqb_eq in Edq. subst c. simpl. rewrite IH. reflexivity.
    + simpl. rewrite Edq. simpl. rewrite Eb. rewrite IH. reflexivity.
Qed.

End StoreFacts.

(* ------------------------------------------------------------------------- *)
(** *** Get-or-create of a company (for C2)                                  *)
(* ------------------------------------------------------------------------- *)

Module CompanyFacts.
Import Json JsString Airtable StoreM.

(** [src/unnamed/part_011]: with no match on either identity field, the call
    creates the company under the next id. *)
Lemma gmail_create T opts s0
    (Hne : String.eqb (normalizeDomain (GmailRoute.domain opts)) "" = false)
    (H1 : find_first (rows s0) T "normalizedDomain_text"
            (GmailRoute.escape_quotes (normalizeDomain (GmailRoute.domain opts))) = None)
    (H2 : find_first (rows s0) T "domain"
            (GmailRoute.escape_quotes (normalizeDomain (GmailRoute.domain opts))) = None) :
  GmailRoute.getOrCreateCompany mem_server T opts s0 =
  (inl (GmailRoute.mk_result (Some (JStr (new_id (next s0)))) true None),
   mk_store (rows s0 ++ [(T, mk_record (new_id (next s0))
                               (GmailRoute.companyFields opts (normalizeDomain (GmailRoute.domain opts))))])
            (S (next s0))).
Proof.
  unfold GmailRoute.getOrCreateCompany, GmailRoute.companyFields. cbv zeta.
  remember (normalizeDomain (GmailRoute.domain opts)) as nd eqn:Hnd. clear Hnd.
  rewrite Hne. cbv [bind send mem_server].
  rewrite H1. cbn -[find_first GmailRoute.escape_quotes new_id]. rewrite H2.
  reflexivity.
Qed.

(** The created company is the first match of the primary lookup. *)
Lemma gmail_find T opts nd s0 i
    (Hbs : has_char bslash nd = false)
    (H1 : find_first (rows s0) T "normalizedDomain_text" (GmailRoute.escape_quotes nd) = None) :
  find_first (rows s0 ++ [(T, mk_record i (GmailRoute.companyFields opts nd))]) T
    "normalizedDomain_text" (GmailRoute.escape_quotes nd)
  = Some (mk_record i (GmailRoute.companyFields opts nd)).
Proof.
  rewrite StoreFacts.find_first_app, H1. simpl find_first.
  rewrite String.eqb_refl. unfold matches. cbn -[GmailRoute.escape_quotes unescape].
  rewrite StoreFacts.unescape_escape_quotes by exact Hbs. rewrite String.eqb_refl. reflexivity.
Qed.

(** A primary match answers with its id and writes nothing. *)
Lemma gmail_hit T opts s r
    (Hne : String.eqb (normalizeDomain (GmailRoute.domain opts)) "" = false)
    (H1 : find_first (rows s) T "normalizedDomain_text"
            (GmailRoute.escape_quotes (normalizeDomain (GmailRoute.domain opts))) = Some r) :
  GmailRoute.getOrCreateCompany mem_server T opts s =
  (inl (GmailRoute.mk_result (Some (JStr (id r))) false (Some "normalizedDomain_text")), s).
Proof.
  unfold GmailRoute.getOrCreateCompany. cbv zeta.
  remember (normalizeDomain (GmailRoute.domain opts)) as nd eqn:Hnd. clear Hnd.
  rewrite Hne. cbv [bind send mem_server].
  rewrite H1. reflexivity.
Qed.

(** [src/app/api/inbox/email/route.ts]: the same three steps. *)
Lemma os_create E dom fromName s0
    (Hne : String.eqb (normalizeDomain dom) "" = false)
    (H1 : find_first (rows s0) (OSRoute.COMPANIES E) "Normalized Domain"
            (escapeFormulaValue (normalizeDomain dom)) = None)
    (H2 : find_first (rows s0) (OSRoute.COMPANIES E) "Domain"
            (escapeFormulaValue (normalizeDomain dom)) = None) :
  OSRoute.getOrCreateCompany mem_server E dom fromName s0 =
  (inl (OSRoute.mk_company (Some (JStr (new_id (next s0))))
          (or_default fromName (JStr (normalizeDomain dom))) (normalizeDomain dom) true),
   mk_store (rows s0 ++ [(OSRoute.COMPANIES E, mk_record (new_id (next s0))
                               (OSRoute.company_fields fromName (normalizeDomain dom)))])
            (S (next s0))).
Proof.
  unfold OSRoute.getOrCreateCompany, OSRoute.company_fields. cbv zeta.
  remember (normalizeDomain dom) as nd eqn:Hnd. clear Hnd.
  rewrite Hne. cbv [bind send mem_server findOneByFormula createRecord].
  rewrite H1. cbn -[find_first escapeFormulaValue new_id OSRoute.COMPANIES]. rewrite H2.
  reflexivity.
Qed.

Lemma os_find E fromName nd s0 i
    (H1 : find_first (rows s0) (OSRoute.COMPANIES E) "Normalized Domain" (escapeFormulaValue nd) = None) :
  find_first (rows s0 ++ [(OSRoute.COMPANIES E, mk_record i (OSRoute.company_fields fromName nd))])
    (OSRoute.COMPANIES E) "Normalized Domain" (escapeFormulaValue nd)
  = Some (mk_record i (OSRoute.company_fields fromName nd)).
Proof.
  rewrite StoreFacts.find_first_app, H1. simpl find_first.
  rewrite String.eqb_refl. unfold matches. cbn -[escapeFormulaValue unescape].
  rewrite StoreFacts.unescape_escapeFormulaValue, String.eqb_refl. reflexivity.
Qed.

(** A match on ["Normalized Domain"] answers with the stored company and
    writes nothing; its name is the one stored, whatever [fromName'] is. *)
Lemma os_hit E dom fromName fromName' s i
    (Hne : String.eqb (normalizeDomain dom) "" = false)
    (H1 : find_first (rows s) (OSRoute.COMPANIES E) "Normalized Domain"
            (escapeFormulaValue (normalizeDomain dom))
          = Some (mk_record i (OSRoute.company_fields fromName (normalizeDomain dom)))) :
  OSRoute.getOrCreateCompany mem_server E dom fromName' s =
  (inl (OSRoute.mk_company (Some (JStr i)) (or_default fromName (JStr (normalizeDomain dom)))
          (normalizeDomain dom) false), s).
Proof.
  unfold OSRoute.getOrCreateCompany, OSRoute.company_fields. cbv zeta.
  remember (normalizeDomain dom) as nd eqn:Hnd. clear Hnd.
  rewrite Hne. cbv [bind send mem_server findOneByFormula].
  rewrite H1. cbn -[or_default].
  assert (Ht : truthy (or_default fromName (JStr nd)) = true).
  { destruct fromName as [v|]; simpl; [destruct (truthy v) eqn:Ev; [exact Ev|]|];
      simpl; rewrite Hne; reflexivity. }
  unfold or_default at 1. rewrite Ht. reflexivity.
Qed.

End CompanyFacts.

(** C2 (get-or-create convergence) fails in [src/unnamed/part_011]: its
    lookups write the normalized domain into the formula
    [{normalizedDomain_text}="..."] escaping only double quotes
    ([escape_quotes]), so a backslash in the domain is read by Airtable as an
    escape and the formula's literal is no longer the domain.  For the domain
    [a\b.com], two calls in sequence on an empty table, the second on the
    store the first left, both create a company ([created=true], no
    [matchedBy]) with different record ids: the second call does not find the
    record the first created, neither by [normalizedDomain_text] nor by
    [domain].  ([src/app/api/inbox/email/route.ts] escapes backslashes with
    [escapeFormulaValue] and is not affected.) *)
Lemma gmail_company_backslash_duplicates :
  let opts := GmailRoute.mk_opts "a\b.com" None None None None in
  let call := GmailRoute.getOrCreateCompany Airtable.mem_server "Companies" opts in
  let s0 := Airtable.mk_store [] 0 in
  normalizeDomain "a\b.com" = "a\b.com" /\
  fst (call s0) = inl (GmailRoute.mk_result (Some (JStr "rec0")) true None) /\
  fst (call (snd (call s0))) = inl (GmailRoute.mk_result (Some (JStr "rec1")) true None).
Proof.
  cbv zeta. vm_compute. split; [reflexivity|]. split; reflexivity.
Qed.

(* ------------------------------------------------------------------------- *)
(** *** Ingestion of an inbox email (for C3 and C4)                         *)
(* ------------------------------------------------------------------------- *)

Module InboxFacts.
Import Json JsString Airtable StoreM EmailDomain.
Local Open Scope list_scope.

Lemma find_first_other rs t f lit :
  Forall (fun x => fst x <> t) rs -> find_first rs t f lit = None.
Proof.
  induction 1 as [|[t' r] rs Ht _ IH]; simpl; [reflexivity|].
  simpl in Ht. apply String.eqb_neq in Ht. rewrite Ht. exact IH.
Qed.

Section Steps.
Variable server : store -> request -> http * store.
Hypothesis Hfind : forall s t f l, server s (FindOne t f l) = mem_server s (FindOne t f l).
Hypothesis Hcreate : forall s t fs, server s (Create t fs) = mem_server s (Create t fs).
Variable E : OSRoute.env.

Lemma find_one_eq s t f lit :
  findOneByFormula server t f lit s = (inl (option_map record_json (find_first (rows s) t f lit)), s).
Proof.
  unfold findOneByFormula, bind, send. rewrite Hfind. cbn -[find_first].
  destruct (find_first (rows s) t f lit); reflexivity.
Qed.

Lemma create_eq s t fs :
  createRecord server t fs s =
  (inl (record_json (mk_record (new_id (next s)) fs)),
   mk_store (rows s ++ [(t, mk_record (new_id (next s)) fs)]) (S (next s))).
Proof.
  unfold createRecord, bind, send. rewrite Hcreate. reflexivity.
Qed.

Lemma company_step nd fn s (Hne : normalizeDomain nd <> "") :
  exists c extc,
    OSRoute.getOrCreateCompany server E nd fn s = (inl c, mk_store (rows s ++ extc) (length extc + next s)) /\
    Forall (fun x => fst x = OSRoute.COMPANIES E) extc /\
    company_hit (rows s ++ extc) (OSRoute.COMPANIES E) (normalizeDomain nd).
Proof.
  unfold OSRoute.getOrCreateCompany. cbv zeta.
  remember (normalizeDomain nd) as n' eqn:Hn. clear Hn.
  apply String.eqb_neq in Hne. rewrite Hne.
  cbv [bind]. rewrite find_one_eq.
  destruct (find_first (rows s) (OSRoute.COMPANIES E) "Normalized Domain" (escapeFormulaValue n')) as [r|] eqn:E1.
  - eexists _, []. rewrite app_nil_r. split; [destruct s; reflexivity|]. split; [constructor|].
    exists r. left. exact E1.
  - cbn [option_map]. rewrite find_one_eq.
    destruct (find_first (rows s) (OSRoute.COMPANIES E) "Domain" (escapeFormulaValue n')) as [r|] eqn:E2.
    + eexists _, []. rewrite app_nil_r. split; [destruct s; reflexivity|]. split; [constructor|].
      exists r. right. split; assumption.
    + cbn [option_map]. rewrite create_eq. eexists _, [_]. split; [reflexivity|]. split; [repeat constructor|].
      eexists. left. rewrite StoreFacts.find_first_app, E1. simpl find_first.
      rewrite String.eqb_refl. unfold matches. cbn -[escapeFormulaValue unescape].
      rewrite StoreFacts.unescape_escapeFormulaValue, String.eqb_refl. reflexivity.
Qed.

Lemma company_again pre ext n nd fn (Hne : normalizeDomain nd <> "")
    (Hhit : company_hit pre (OSRoute.COMPANIES E) (normalizeDomain nd))
    (Hext : Forall (fun x => fst x <> OSRoute.COMPANIES E) ext) :
  exists c, OSRoute.getOrCreateCompany server E nd fn (mk_store (pre ++ ext) n) =
            (inl c, mk_store (pre ++ ext) n).
Proof.
  unfold OSRoute.getOrCreateCompany. cbv zeta.
  remember (normalizeDomain nd) as n' eqn:Hn. clear Hn.
  apply String.eqb_neq in Hne. rewrite Hne.
  cbv [bind]. rewrite find_one_eq. cbn [rows]. rewrite StoreFacts.find_first_app.
  destruct Hhit as [r [H1 | [H1 H2]]]; rewrite H1.
  - eexists. reflexivity.
  - rewrite find_first_other by exact Hext. cbn [option_map].
    rewrite find_one_eq. cbn [rows]. rewrite StoreFacts.find_first_app, H2.
    eexists. reflexivity.
Qed.

Lemma dup_none s g (H : find_first (rows s) (OSRoute.INBOX_ITEMS E) "Gmail Message ID" (escapeFormulaValue g) = None) :
  OSRoute.findDuplicateInboxItem server E (Some (JStr g)) s = (inl None, s).
Proof.
  unfold OSRoute.findDuplicateInboxItem. cbv [bind as_string ret]. rewrite find_one_eq, H. reflexivity.
Qed.

Lemma dup_some s g r (H : find_first (rows s) (OSRoute.INBOX_ITEMS E) "Gmail Message ID" (escapeFormulaValue g) = Some r) :
  OSRoute.findDuplicateInboxItem server E (Some (JStr g)) s =
  (inl (Some (Some (JStr (id r)), lookup "Activity Log" (fields r))), s).
Proof.
  unfold OSRoute.findDuplicateInboxItem. cbv [bind as_string ret]. rewrite find_one_eq, H. reflexivity.
Qed.

Lemma handle_mode_step c sub th s :
  exists res exto,
    OSRoute.handle_mode server E (JStr "opportunity") c (Some (JStr sub)) (Some (JStr th)) s =
      (inl res, mk_store (rows s ++ exto) (length exto + next s)) /\
    Forall (fun x => fst x = OSRoute.OPPORTUNITIES E) exto /\
    (snd res = "opportunity_created" \/ snd res = "attached").
Proof.
  unfold OSRoute.handle_mode. cbn [OSRoute.json_is String.eqb Ascii.eqb Bool.eqb].
  unfold OSRoute.findOpportunityByThreadId. cbv [bind as_string ret]. rewrite find_one_eq.
  destruct (find_first (rows s) (OSRoute.OPPORTUNITIES E) "Gmail Thread ID" (escapeFormulaValue th)) as [r|].
  - eexists _, []. rewrite app_nil_r. split; [destruct s; reflexivity|]. split; [constructor|].
    right. reflexivity.
  - cbn [option_map]. unfold OSRoute.createOpportunity. cbv [bind]. rewrite create_eq.
    eexists _, [_]. split; [reflexivity|]. split; [repeat constructor|]. left. reflexivity.
Qed.

Lemma inbox_step tr g th em nm sub domain cid disp oid now s :
  exists F,
    OSRoute.createInboxItem server E tr (inbox_payload g th em nm sub) domain cid disp oid now s =
      (inl (Some (JStr (new_id (next s)))),
       mk_store (rows s ++ [(OSRoute.INBOX_ITEMS E, mk_record (new_id (next s)) F)]) (S (next s))) /\
    lookup "Gmail Message ID" F = Some (JStr g) /\
    lookup "Activity Log" F = Some (JStr (OSRoute.created_entry tr now)).
Proof.
  unfold OSRoute.createInboxItem. cbv [bind ret]. cbn [inbox_payload prop lookup String.eqb Ascii.eqb Bool.eqb truthy_opt].
  rewrite create_eq. eexists. split; [reflexivity|].
  split.
  - reflexivity.
  - unfold OSRoute.cond_field, OSRoute.from_prop, OSRoute.opt_field.
    cbn [inbox_payload prop lookup String.eqb Ascii.eqb Bool.eqb truthy_opt truthy].
    destruct (nm =? ""), (truthy_opt oid); reflexivity.
Qed.

End Steps.

Lemma lookup_fld_set_same k v F : lookup k (fld_set k v F) = Some v.
Proof.
  induction F as [|[k' v'] F IH]; simpl.
  - rewrite String.eqb_refl. reflexivity.
  - destruct (String.eqb k k') eqn:Ek; simpl.
    + apply String.eqb_eq in Ek. subst k'. rewrite String.eqb_refl. reflexivity.
    + rewrite Ek. exact IH.
Qed.

Lemma lookup_fld_set_other k k' v F : k' <> k -> lookup k' (fld_set k v F) = lookup k' F.
Proof.
  intros Hne. apply String.eqb_neq in Hne.
  induction F as [|[k0 v0] F IH]; simpl.
  - rewrite Hne. reflexivity.
  - destruct (String.eqb k k0) eqn:Ek; simpl.
    + apply String.eqb_eq in Ek. subst k0. rewrite Hne. reflexivity.
    + rewrite IH. reflexivity.
Qed.

Lemma update_last pre t i F fs (Hpre : forall r, In (t, r) pre -> id r <> i) :
  update_rows t i fs (pre ++ [(t, mk_record i F)]) =
  Some (pre ++ [(t, mk_record i (patch F fs))], mk_record i (patch F fs)).
Proof.
  induction pre as [|[t' r] pre IH]; simpl.
  - rewrite !String.eqb_refl. reflexivity.
  - destruct (String.eqb t' t) eqn:Et; simpl.
    + apply String.eqb_eq in Et. subst t'.
      assert (Hr : String.eqb (id r) i = false) by (apply String.eqb_neq, Hpre; left; reflexivity).
      rewrite Hr. rewrite IH by (intros r' Hr'; apply Hpre; right; exact Hr'). reflexivity.
    + rewrite IH by (intros r' Hr'; apply Hpre; right; exact Hr'). reflexivity.
Qed.

Section Route.
Variable E : OSRoute.env.

Lemma append_mem tr i log now pre F n
    (Hpre : forall r, In (OSRoute.INBOX_ITEMS E, r) pre -> id r <> i) :
  OSRoute.appendActivityLog mem_server E tr (Some (JStr i)) log now
    (mk_store (pre ++ [(OSRoute.INBOX_ITEMS E, mk_record i F)]) n) =
  (inl tt, mk_store (pre ++ [(OSRoute.INBOX_ITEMS E,
                               mk_record i (fld_set "Activity Log"
                                              (JStr (OSRoute.updated_log tr log now)) F))]) n).
Proof.
  unfold OSRoute.appendActivityLog, updateRecord. cbv [bind send ret]. cbn [mem_server rows next js_template].
  rewrite update_last by exact Hpre. reflexivity.
Qed.

Lemma append_fail tr i log now s :
  OSRoute.appendActivityLog update_failing_server E tr i log now s =
  (inr "Airtable update failed: Update failed", s).
Proof. reflexivity. Qed.

End Route.

Ltac post_prefix :=
  match goal with
  | Hset : OSRoute.missingEnvVars ?E = [], Hsec : OSRoute.INBOX_SHARED_SECRET ?E = Some ?sec,
    Hsec' : (?sec =? "") = false, Hg : (?g =? "") = false, Hth : (?th =? "") = false,
    Hem : (?em =? "") = false, Hsub : (?sub =? "") = false,
    Hd : extractDomainFromEmail ?em = Some ?d, Hdne : (?d =? "") = false |- _ =>
    unfold OSRoute.POST, OSRoute.post_main; rewrite Hset, Hsec;
    cbn [List.length Nat.eqb negb OSRoute.x_inbox_secret OSRoute.body];
    rewrite Hsec', String.eqb_refl; cbn [negb andb];
    unfold OSRoute.post_payload, inbox_payload;
    cbv [bind get_prop ret prop as_string OSRoute.slice_value get_prop_opt];
    cbn [lookup String.eqb Ascii.eqb Bool.eqb truthy_opt truthy negb];
    rewrite Hg, Hth, Hem, Hsub; cbn [negb]; rewrite Hd, Hdne; cbn [OSRoute.elem]
  end.

Lemma secret_nonempty E sec :
  OSRoute.missingEnvVars E = [] -> OSRoute.INBOX_SHARED_SECRET E = Some sec -> (sec =? "") = false.
Proof.
  intros Hset Hsec. destruct (sec =? "") eqn:Hc; [|reflexivity].
  assert (H : In "INBOX_SHARED_SECRET" (OSRoute.missingEnvVars E)).
  { unfold OSRoute.missingEnvVars. apply in_flat_map.
    exists ("INBOX_SHARED_SECRET", OSRoute.INBOX_SHARED_SECRET E). split.
    - simpl. tauto.
    - rewrite Hsec. cbn [snd fst OSRoute.is_set]. rewrite Hc. left. reflexivity. }
  rewrite Hset in H. destruct H.
Qed.

Lemma call_new E tr sec g th em nm sub d now s
    (Hset : OSRoute.missingEnvVars E = []) (Hsec : OSRoute.INBOX_SHARED_SECRET E = Some sec)
    (Hg : g <> "") (Hth : th <> "") (Hem : em <> "") (Hsub : sub <> "")
    (Hd : extractDomainFromEmail em = Some d) (Hdne : d <> "")
    (Hnd : normalizeDomain (normalizeDomain d) <> "")
    (Hnodup : find_first (rows s) (OSRoute.INBOX_ITEMS E) "Gmail Message ID" (escapeFormulaValue g) = None)
    (HIC : OSRoute.INBOX_ITEMS E <> OSRoute.COMPANIES E)
    (HIO : OSRoute.INBOX_ITEMS E <> OSRoute.OPPORTUNITIES E) :
  exists c oo st extc exto F,
    OSRoute.POST mem_server E tr (OSRoute.mk_req (Some sec) (Some (inbox_payload g th em nm sub))) now s =
      (OSRoute.mk_out 200 (OSRoute.mk_resp true st tr (Some c) oo
                             (Some (Some (JStr (new_id (length exto + (length extc + next s)))))) None),
       mk_store (rows s ++ extc ++ exto ++
                 [(OSRoute.INBOX_ITEMS E, mk_record (new_id (length exto + (length extc + next s))) F)])
                (S (length exto + (length extc + next s)))) /\
    (st = "opportunity_created" \/ st = "attached") /\
    Forall (fun x => fst x = OSRoute.COMPANIES E) extc /\
    Forall (fun x => fst x = OSRoute.OPPORTUNITIES E) exto /\
    company_hit (rows s ++ extc) (OSRoute.COMPANIES E) (normalizeDomain (normalizeDomain d)) /\
    lookup "Gmail Message ID" F = Some (JStr g) /\
    lookup "Activity Log" F = Some (JStr (OSRoute.created_entry tr now)).
Proof.
  pose proof (secret_nonempty E sec Hset Hsec) as Hsec'.
  apply String.eqb_neq in Hg, Hth, Hem, Hsub, Hdne.
  post_prefix.
  destruct (company_step mem_server (fun _ _ _ _ => eq_refl) (fun _ _ _ => eq_refl) E
              (normalizeDomain d) (Some (JStr nm)) s Hnd) as (c & extc & Hc & Hextc & Hhit).
  rewrite Hc.
  rewrite dup_none by (reflexivity || (cbn [rows]; rewrite StoreFacts.find_first_app, Hnodup;
    apply find_first_other; eapply Forall_impl; [|exact Hextc]; intros x Hx; rewrite Hx; intros He; apply HIC; symmetry; exact He)).
  cbn [or_default].
  destruct (handle_mode_step mem_server (fun _ _ _ _ => eq_refl) (fun _ _ _ => eq_refl) E c sub th
              (mk_store (rows s ++ extc) (length extc + next s)))
    as ([[oo disp] st] & exto & Hh & Hexto & Hst).
  rewrite Hh. cbn beta iota.
  destruct (inbox_step mem_server (fun _ _ _ => eq_refl) E tr g th em nm sub
              (normalizeDomain d) (OSRoute.c_id c) disp
              (match oo with Some o => OSRoute.o_id o | None => None end) now
              (mk_store ((rows s ++ extc) ++ exto) (length exto + (length extc + next s))))
    as (F & HF & HF1 & HF2).
  cbn [rows next] in HF. cbn [rows next]. fold (inbox_payload g th em nm sub). rewrite HF.
  exists c, oo, st, extc, exto, F.
  split; [rewrite <- !app_assoc; reflexivity|].
  repeat split; assumption.
Qed.


Lemma call_dup E tr sec g th em nm sub d now pre post i F n
    (Hset : OSRoute.missingEnvVars E = []) (Hsec : OSRoute.INBOX_SHARED_SECRET E = Some sec)
    (Hg : g <> "") (Hth : th <> "") (Hem : em <> "") (Hsub : sub <> "")
    (Hd : extractDomainFromEmail em = Some d) (Hdne : d <> "")
    (Hnd : normalizeDomain (normalizeDomain d) <> "")
    (HIC : OSRoute.INBOX_ITEMS E <> OSRoute.COMPANIES E)
    (Hhit : company_hit pre (OSRoute.COMPANIES E) (normalizeDomain (normalizeDomain d)))
    (Hpost : Forall (fun x => fst x <> OSRoute.COMPANIES E) post)
    (Hnone : find_first (pre ++ post) (OSRoute.INBOX_ITEMS E) "Gmail Message ID" (escapeFormulaValue g) = None)
    (Hids : forall r, In (OSRoute.INBOX_ITEMS E, r) (pre ++ post) -> id r <> i)
    (HF : lookup "Gmail Message ID" F = Some (JStr g)) :
  exists c,
    OSRoute.POST mem_server E tr (OSRoute.mk_req (Some sec) (Some (inbox_payload g th em nm sub))) now
      (mk_store (pre ++ post ++ [(OSRoute.INBOX_ITEMS E, mk_record i F)]) n) =
      (OSRoute.mk_out 200 (OSRoute.mk_resp true "duplicate" tr (Some c) None (Some (Some (JStr i))) None),
       mk_store (pre ++ post ++
                 [(OSRoute.INBOX_ITEMS E,
                   mk_record i (fld_set "Activity Log"
                                  (JStr (OSRoute.updated_log tr (lookup "Activity Log" F) now)) F))]) n).
Proof.
  pose proof (secret_nonempty E sec Hset Hsec) as Hsec'.
  apply String.eqb_neq in Hg, Hth, Hem, Hsub, Hdne.
  post_prefix.
  destruct (company_again mem_server (fun _ _ _ _ => eq_refl) E pre
              (post ++ [(OSRoute.INBOX_ITEMS E, mk_record i F)]) n (normalizeDomain d) (Some (JStr nm))
              Hnd Hhit) as [c Hc].
  { apply Forall_app. split; [exact Hpost|]. constructor; [exact HIC | constructor]. }
  rewrite Hc.
  rewrite (dup_some mem_server (fun _ _ _ _ => eq_refl) E _ g (mk_record i F)).
  2: { cbn [rows]. rewrite app_assoc, StoreFacts.find_first_app, Hnone. simpl find_first.
       rewrite String.eqb_refl. unfold matches. cbn [fields]. rewrite HF.
       rewrite StoreFacts.unescape_escapeFormulaValue, String.eqb_refl. reflexivity. }
  cbn [id fields]. rewrite app_assoc, append_mem by exact Hids.
  exists c. rewrite <- app_assoc. reflexivity.
Qed.

End InboxFacts.

(** C3 (duplicate guard of the inbox ingestion).  Three [POST]s of the same
    email (same [gmailMessageId]) in sequence, each on the store the previous
    one left, with fresh trace ids and times: the first creates one inbox
    item (status "opportunity_created" or "attached"), the second and third
    answer status "duplicate" with that same item's id and create no record;
    the store ends with exactly that one new inbox row (the other new rows are
    the company and opportunity rows of the first call), and its Activity Log
    is the creation line followed by one newline-separated line per duplicate
    ingestion.  Assumed: the configuration is complete and its three tables
    are distinct, the request is authorized and well formed, the sender's
    domain normalizes to a non-empty string, no inbox item of the store
    carries that message id, and no inbox row of the store has an id the
    store has not issued yet. *)
Theorem inbox_duplicate_guard (E : OSRoute.env)
    (sec g th em nm sub d tr1 tr2 tr3 now1 now2 now3 : string) (s0 : Airtable.store)
    (Hset : OSRoute.missingEnvVars E = [])
    (Hsec : OSRoute.INBOX_SHARED_SECRET E = Some sec)
    (Hg : g <> "") (Hth : th <> "") (Hem : em <> "") (Hsub : sub <> "")
    (Hd : EmailDomain.extractDomainFromEmail em = Some d) (Hdne : d <> "")
    (Hnd : normalizeDomain (normalizeDomain d) <> "")
    (HIC : OSRoute.INBOX_ITEMS E <> OSRoute.COMPANIES E)
    (HIO : OSRoute.INBOX_ITEMS E <> OSRoute.OPPORTUNITIES E)
    (HCO : OSRoute.COMPANIES E <> OSRoute.OPPORTUNITIES E)
    (Hnodup : Airtable.find_first (Airtable.rows s0) (OSRoute.INBOX_ITEMS E) "Gmail Message ID"
                (Airtable.escapeFormulaValue g) = None)
    (Hfresh : forall r, In (OSRoute.INBOX_ITEMS E, r) (Airtable.rows s0) ->
              forall k, Airtable.next s0 <= k -> Airtable.id r <> Airtable.new_id k) :
  exists i o1 c2 c3 s1 s2 s3 ext F1 F2 F3,
    OSRoute.POST Airtable.mem_server E tr1
      (OSRoute.mk_req (Some sec) (Some (inbox_payload g th em nm sub))) now1 s0
      = (OSRoute.mk_out 200 o1, s1) /\
    OSRoute.r_ok o1 = true /\
    (OSRoute.r_status o1 = "opportunity_created" \/ OSRoute.r_status o1 = "attached") /\
    OSRoute.r_inboxItem o1 = Some (Some (JStr i)) /\
    OSRoute.POST Airtable.mem_server E tr2
      (OSRoute.mk_req (Some sec) (Some (inbox_payload g th em nm sub))) now2 s1
      = (OSRoute.mk_out 200 (OSRoute.mk_resp true "duplicate" tr2 (Some c2) None
                               (Some (Some (JStr i))) None), s2) /\
    OSRoute.POST Airtable.mem_server E tr3
      (OSRoute.mk_req (Some sec) (Some (inbox_payload g th em nm sub))) now3 s2
      = (OSRoute.mk_out 200 (OSRoute.mk_resp true "duplicate" tr3 (Some c3) None
                               (Some (Some (JStr i))) None), s3) /\
    Forall (fun x => fst x <> OSRoute.INBOX_ITEMS E) ext /\
    Airtable.rows s1 = (Airtable.rows s0 ++ ext ++ [(OSRoute.INBOX_ITEMS E, Airtable.mk_record i F1)])%list /\
    Airtable.rows s2 = (Airtable.rows s0 ++ ext ++ [(OSRoute.INBOX_ITEMS E, Airtable.mk_record i F2)])%list /\
    Airtable.rows s3 = (Airtable.rows s0 ++ ext ++ [(OSRoute.INBOX_ITEMS E, Airtable.mk_record i F3)])%list /\
    Json.lookup "Activity Log" F1 = Some (JStr (OSRoute.created_entry tr1 now1)) /\
    Json.lookup "Activity Log" F2 =
      Some (JStr (OSRoute.created_entry tr1 now1 ++ String OSRoute.nl (OSRoute.duplicate_entry tr2 now2))) /\
    Json.lookup "Activity Log" F3 =
      Some (JStr ((OSRoute.created_entry tr1 now1 ++ String OSRoute.nl (OSRoute.duplicate_entry tr2 now2))
                  ++ String OSRoute.nl (OSRoute.duplicate_entry tr3 now3))).
Proof.
  destruct (InboxFacts.call_new E tr1 sec g th em nm sub d now1 s0 Hset Hsec Hg Hth Hem Hsub Hd Hdne
              Hnd Hnodup HIC HIO)
    as (c1 & oo & st & extc & exto & F1 & H1 & Hst & Hextc & Hexto & Hhit & HF1g & HF1l).
  set (k := (length exto + (length extc + Airtable.next s0))%nat) in H1.
  assert (Hpost : Forall (fun x => fst x <> OSRoute.COMPANIES E) exto).
  { eapply Forall_impl; [|exact Hexto]. intros x Hx. rewrite Hx. intro Hc. apply HCO. symmetry. exact Hc. }
  assert (Hnone : Airtable.find_first ((Airtable.rows s0 ++ extc) ++ exto)%list (OSRoute.INBOX_ITEMS E)
                    "Gmail Message ID" (Airtable.escapeFormulaValue g) = None).
  { rewrite !StoreFacts.find_first_app, Hnodup.
    rewrite !InboxFacts.find_first_other; [reflexivity| |].
    - eapply Forall_impl; [|exact Hexto]. intros x Hx. rewrite Hx. intro Hc. apply HIO. symmetry. exact Hc.
    - eapply Forall_impl; [|exact Hextc]. intros x Hx. rewrite Hx. intro Hc. apply HIC. symmetry. exact Hc. }
  assert (Hids : forall r, In (OSRoute.INBOX_ITEMS E, r) ((Airtable.rows s0 ++ extc) ++ exto)%list ->
                 Airtable.id r <> Airtable.new_id k).
  { intros r Hr. apply in_app_iff in Hr as [Hr | Hr]; [apply in_app_iff in Hr as [Hr | Hr]|].
    - apply (Hfresh r Hr). unfold k. lia.
    - rewrite Forall_forall in Hextc. apply Hextc in Hr. simpl in Hr. exfalso. exact (HIC Hr).
    - rewrite Forall_forall in Hexto. apply Hexto in Hr. simpl in Hr. exfalso. exact (HIO Hr). }
  set (F2 := Airtable.fld_set "Activity Log"
               (JStr (OSRoute.updated_log tr2 (Json.lookup "Activity Log" F1) now2)) F1).
  assert (HF2g : Json.lookup "Gmail Message ID" F2 = Some (JStr g)).
  { unfold F2. rewrite InboxFacts.lookup_fld_set_other by discriminate. exact HF1g. }
  destruct (InboxFacts.call_dup E tr2 sec g th em nm sub d now2 (Airtable.rows s0 ++ extc) exto
              (Airtable.new_id k) F1 (S k) Hset Hsec Hg Hth Hem Hsub Hd Hdne Hnd HIC Hhit Hpost
              Hnone Hids HF1g) as [c2 H2].
  destruct (InboxFacts.call_dup E tr3 sec g th em nm sub d now3 (Airtable.rows s0 ++ extc) exto
              (Airtable.new_id k) F2 (S k) Hset Hsec Hg Hth Hem Hsub Hd Hdne Hnd HIC Hhit Hpost
              Hnone Hids HF2g) as [c3 H3].
  rewrite <- !app_assoc in H2, H3.
  eexists (Airtable.new_id k), _, c2, c3, _, _, _, (extc ++ exto)%list, F1, F2, _.
  split; [exact H1|].
  split; [reflexivity|].
  split; [exact Hst|].
  split; [reflexivity|].
  split; [exact H2|].
  split; [exact H3|].
  split; [apply Forall_app; split;
          [eapply Forall_impl; [|exact Hextc]; intros x Hx; rewrite Hx; intro Hc; apply HIC; symmetry; exact Hc
          |eapply Forall_impl; [|exact Hexto]; intros x Hx; rewrite Hx; intro Hc; apply HIO; symmetry; exact Hc]|].
  rewrite <- !app_assoc.
  split; [reflexivity|].
  split; [reflexivity|].
  split; [reflexivity|].
  split; [exact HF1l|].
  split.
  - unfold F2. rewrite InboxFacts.lookup_fld_set_same, HF1l. reflexivity.
  - rewrite InboxFacts.lookup_fld_set_same. unfold F2. rewrite InboxFacts.lookup_fld_set_same, HF1l.
    reflexivity.
Qed.

Lemma inbox_duplicate_guard_witness :
  exists i o1 c2 c3 s1 s2 s3 ext F1 F2 F3,
    OSRoute.POST Airtable.mem_server
      (OSRoute.mk_env (Some "key") (Some "app") (Some "Companies") (Some "Opportunities")
         (Some "Inbox") (Some "secret")) "t1"
      (OSRoute.mk_req (Some "secret")
         (Some (inbox_payload "msg-123" "thread-1" "Ann <ann@Example.com>" "Ann" "Hello")))
      "2026-01-01T00:00:00.000Z" (Airtable.mk_store [] 0)
      = (OSRoute.mk_out 200 o1, s1) /\
    OSRoute.r_ok o1 = true /\
    (OSRoute.r_status o1 = "opportunity_created" \/ OSRoute.r_status o1 = "attached") /\
    OSRoute.r_inboxItem o1 = Some (Some (JStr i)) /\
    OSRoute.POST Airtable.mem_server
      (OSRoute.mk_env (Some "key") (Some "app") (Some "Companies") (Some "Opportunities")
         (Some "Inbox") (Some "secret")) "t2"
      (OSRoute.mk_req (Some "secret")
         (Some (inbox_payload "msg-123" "thread-1" "Ann <ann@Example.com>" "Ann" "Hello")))
      "2026-01-01T00:05:00.000Z" s1
      = (OSRoute.mk_out 200 (OSRoute.mk_resp true "duplicate" "t2" (Some c2) None
                               (Some (Some (JStr i))) None), s2) /\
    OSRoute.POST Airtable.mem_server
      (OSRoute.mk_env (Some "key") (Some "app") (Some "Companies") (Some "Opportunities")
         (Some "Inbox") (Some "secret")) "t3"
      (OSRoute.mk_req (Some "secret")
         (Some (inbox_payload "msg-123" "thread-1" "Ann <ann@Example.com>" "Ann" "Hello")))
      "2026-01-01T00:10:00.000Z" s2
      = (OSRoute.mk_out 200 (OSRoute.mk_resp true "duplicate" "t3" (Some c3) None
                               (Some (Some (JStr i))) None), s3) /\
    Forall (fun x => fst x <> "Inbox") ext /\
    Airtable.rows s1 = (ext ++ [("Inbox", Airtable.mk_record i F1)])%list /\
    Airtable.rows s2 = (ext ++ [("Inbox", Airtable.mk_record i F2)])%list /\
    Airtable.rows s3 = (ext ++ [("Inbox", Airtable.mk_record i F3)])%list /\
    Json.lookup "Activity Log" F1 =
      Some (JStr (OSRoute.created_entry "t1" "2026-01-01T00:00:00.000Z")) /\
    Json.lookup "Activity Log" F2 =
      Some (JStr (OSRoute.created_entry "t1" "2026-01-01T00:00:00.000Z" ++
                  String OSRoute.nl (OSRoute.duplicate_entry "t2" "2026-01-01T00:05:00.000Z"))) /\
    Json.lookup "Activity Log" F3 =
      Some (JStr ((OSRoute.created_entry "t1" "2026-01-01T00:00:00.000Z" ++
                   String OSRoute.nl (OSRoute.duplicate_entry "t2" "2026-01-01T00:05:00.000Z"))
                  ++ String OSRoute.nl (OSRoute.duplicate_entry "t3" "2026-01-01T00:10:00.000Z"))).
Proof.
  apply (inbox_duplicate_guard
           (OSRoute.mk_env (Some "key") (Some "app") (Some "Companies") (Some "Opportunities")
              (Some "Inbox") (Some "secret"))
           "secret" "msg-123" "thread-1" "Ann <ann@Example.com>" "Ann" "Hello" "example.com"
           "t1" "t2" "t3" "2026-01-01T00:00:00.000Z" "2026-01-01T00:05:00.000Z"
           "2026-01-01T00:10:00.000Z" (Airtable.mk_store [] 0));
    first [ reflexivity | discriminate | intro Hc; vm_compute in Hc; discriminate Hc
          | intros r Hr; destruct Hr ].
Defined.

(** C4, the scenario: the inbox item of "msg-123" exists (a first ingestion
    created it), and the store refuses the update of its Activity Log.  The
    repeated ingestion does not answer the duplicate success response: the
    route answers HTTP 500 with ok=false and status "error". *)
Lemma appendActivityLog_failure_fails_call :
  let E := OSRoute.mk_env (Some "key") (Some "app") (Some "Companies") (Some "Opportunities")
             (Some "Inbox") (Some "secret") in
  let req := OSRoute.mk_req (Some "secret")
               (Some (inbox_payload "msg-123" "thread-1" "Ann <ann@Example.com>" "Ann" "Hello")) in
  let s1 := snd (OSRoute.POST Airtable.mem_server E "t1" req "2026-01-01T00:00:00.000Z"
                   (Airtable.mk_store [] 0)) in
  Airtable.find_first (Airtable.rows s1) "Inbox" "Gmail Message ID"
    (Airtable.escapeFormulaValue "msg-123") <> None /\
  fst (OSRoute.POST Airtable.update_failing_server E "t2" req "2026-01-01T00:05:00.000Z" s1) =
    OSRoute.mk_out 500 (OSRoute.mk_resp false "error" "t2" None None None
                          (Some "Airtable update failed: Update failed")).
Proof.
  split.
  - vm_compute. discriminate.
  - vm_compute. reflexivity.
Qed.

Lemma append_update_refused (server : Airtable.store -> Airtable.request -> Airtable.http * Airtable.store)
    (dat : json) E tr i log now s
    (Hupd : forall s t rid fs, server s (Airtable.Update t rid fs) = (Airtable.mk_http false dat, s)) :
  OSRoute.appendActivityLog server E tr i log now s =
  (inr ("Airtable update failed: " ++ StoreM.err_detail dat), s).
Proof.
  unfold OSRoute.appendActivityLog, StoreM.updateRecord. cbv [StoreM.bind StoreM.send].
  rewrite Hupd. reflexivity.
Qed.

(** C4 (corrected).  The Activity Log append of a duplicate ingestion is not
    best-effort: for any store API that answers searches and creations like
    the store but refuses updates (res.ok false, body [dat]), a well-formed
    authorized [POST] whose [gmailMessageId] already has an inbox item answers
    HTTP 500 with ok=false, status "error" and the error
    "Airtable update failed: ..." instead of the duplicate response. *)
Theorem appendActivityLog_failure_propagates
    (server : Airtable.store -> Airtable.request -> Airtable.http * Airtable.store) (dat : json)
    (E : OSRoute.env) (tr sec g th em nm sub d now : string) (s : Airtable.store) (r : Airtable.record)
    (Hfind : forall s t f l, server s (Airtable.FindOne t f l) = Airtable.mem_server s (Airtable.FindOne t f l))
    (Hcreate : forall s t fs, server s (Airtable.Create t fs) = Airtable.mem_server s (Airtable.Create t fs))
    (Hupd : forall s t rid fs, server s (Airtable.Update t rid fs) = (Airtable.mk_http false dat, s))
    (Hset : OSRoute.missingEnvVars E = []) (Hsec : OSRoute.INBOX_SHARED_SECRET E = Some sec)
    (Hg : g <> "") (Hth : th <> "") (Hem : em <> "") (Hsub : sub <> "")
    (Hd : EmailDomain.extractDomainFromEmail em = Some d) (Hdne : d <> "")
    (Hnd : normalizeDomain (normalizeDomain d) <> "")
    (Hdup : Airtable.find_first (Airtable.rows s) (OSRoute.INBOX_ITEMS E) "Gmail Message ID"
              (Airtable.escapeFormulaValue g) = Some r) :
  exists s',
    OSRoute.POST server E tr (OSRoute.mk_req (Some sec) (Some (inbox_payload g th em nm sub))) now s =
      (OSRoute.mk_out 500 (OSRoute.mk_resp false "error" tr None None None
                             (Some ("Airtable update failed: " ++ StoreM.err_detail dat))), s').
Proof.
  pose proof (InboxFacts.secret_nonempty E sec Hset Hsec) as Hsec'.
  apply String.eqb_neq in Hg, Hth, Hem, Hsub, Hdne.
  InboxFacts.post_prefix.
  destruct (InboxFacts.company_step server Hfind Hcreate E (normalizeDomain d) (Some (JStr nm)) s Hnd)
    as (c & extc & Hc & _ & _).
  rewrite Hc.
  rewrite (InboxFacts.dup_some server Hfind E _ g r).
  2: { cbn [Airtable.rows]. rewrite StoreFacts.find_first_app, Hdup. reflexivity. }
  rewrite (append_update_refused server dat) by exact Hupd.
  eexists. reflexivity.
Qed.

Lemma appendActivityLog_failure_propagates_witness :
  exists s',
    OSRoute.POST Airtable.update_failing_server
      (OSRoute.mk_env (Some "key") (Some "app") (Some "Companies") (Some "Opportunities")
         (Some "Inbox") (Some "secret")) "t2"
      (OSRoute.mk_req (Some "secret")
         (Some (inbox_payload "msg-123" "thread-1" "Ann <ann@Example.com>" "Ann" "Hello")))
      "2026-01-01T00:05:00.000Z"
      (Airtable.mk_store [("Inbox", Airtable.mk_record "rec0"
                                      [("Gmail Message ID", JStr "msg-123");
                                       ("Activity Log", JStr "[2026-01-01T00:00:00.000Z] Created via inbox ingestion (t1)")])] 1) =
      (OSRoute.mk_out 500 (OSRoute.mk_resp false "error" "t2" None None None
                             (Some ("Airtable update failed: " ++
                                    StoreM.err_detail (JObj [("error", JObj [("type", JStr "SERVER_ERROR");
                                                                            ("message", JStr "Update failed")])])))), s').
Proof.
  apply (appendActivityLog_failure_propagates Airtable.update_failing_server
           (JObj [("error", JObj [("type", JStr "SERVER_ERROR"); ("message", JStr "Update failed")])])
           (OSRoute.mk_env (Some "key") (Some "app") (Some "Companies") (Some "Opportunities")
              (Some "Inbox") (Some "secret"))
           "t2" "secret" "msg-123" "thread-1" "Ann <ann@Example.com>" "Ann" "Hello" "example.com"
           "2026-01-01T00:05:00.000Z" _
           (Airtable.mk_record "rec0"
              [("Gmail Message ID", JStr "msg-123");
               ("Activity Log", JStr "[2026-01-01T00:00:00.000Z] Created via inbox ingestion (t1)")]));
    first [ reflexivity | discriminate | intro Hc; vm_compute in Hc; discriminate Hc
          | intros; reflexivity ].
Defined.

(* ========================================================================= *)
(** * Further properties of the code                                          *)
(* ========================================================================= *)

Module PlaceholderFacts.

Definition good_key (K : string) : Prop :=
  K <> EmptyString /\ toUpperCase K = K /\ trim K = K.

Definition merge_inv (m : merge_map) : Prop :=
  NoDup (map fst m) /\
  forall K v, In (K, v) m -> good_key K /\ v <> EmptyString /\ trim v = v.

Lemma coerce_value_canonical v s :
  coerceToString v = Some s -> s <> EmptyString /\ trim s = s.
Proof.
  intros H.
  assert (Hc : CoerceFacts.canonical (coerceToString v)).
  { destruct v as [| b | z | s' | l | l]; simpl.
    - left. reflexivity.
    - left. reflexivity.
    - apply CoerceFacts.number_to_string_canonical.
    - apply CoerceFacts.trim_or_null_canonical.
    - destruct l as [|first rest]; [left; reflexivity|].
      destruct first as [| | z | s' | l' | l']; try (left; reflexivity).
      + apply CoerceFacts.number_to_string_canonical.
      + apply CoerceFacts.trim_or_null_canonical.
      + apply CoerceFacts.coerce_object_canonical. right. eauto.
      + apply CoerceFacts.coerce_object_canonical. left. eauto.
    - apply CoerceFacts.coerce_object_canonical. left. eauto. }
  rewrite H in Hc. destruct Hc as [Hc|[s' [Hs' Hc]]]; [discriminate|].
  injection Hs' as <-. exact Hc.
Qed.

Lemma normalizeKey_good k : normalizeKey k <> EmptyString -> good_key (normalizeKey k).
Proof.
  intros H. split; [exact H|]. split.
  - unfold normalizeKey, toUpperCase.
    apply StringFacts.map_chars_idem, StringFacts.upper_char_idem.
  - unfold normalizeKey. rewrite StringFacts.trim_upper, StringFacts.trim_idem. reflexivity.
Qed.

Lemma in_mm_set k v m K w :
  In (K, w) (mm_set k v m) -> In (K, w) m \/ (K = k /\ w = v).
Proof.
  induction m as [|[k' v'] r IH]; simpl.
  - intros [H|[]]. injection H as -> ->. right. split; reflexivity.
  - destruct (String.eqb k k') eqn:E.
    + apply String.eqb_eq in E. subst k'. simpl.
      intros [H|H]; [injection H as -> ->; right; split; reflexivity|left; right; exact H].
    + simpl. intros [H|H]; [left; left; exact H|].
      destruct (IH H) as [H'|H']; [left; right; exact H'|right; exact H'].
Qed.

Lemma keys_mm_set k v m K :
  In K (map fst (mm_set k v m)) -> In K (map fst m) \/ K = k.
Proof.
  intros H. apply in_map_iff in H as [[K' w] [HK Hin]]. simpl in HK. subst K'.
  destruct (in_mm_set _ _ _ _ _ Hin) as [H|[H _]].
  - left. apply in_map_iff. exists (K, w). split; [reflexivity|exact H].
  - right. exact H.
Qed.

Lemma nodup_mm_set k v m : NoDup (map fst m) -> NoDup (map fst (mm_set k v m)).
Proof.
  induction m as [|[k' v'] r IH]; simpl; intros H.
  - constructor; [intros []|constructor].
  - inversion H as [|x l Hn Hd]; subst.
    destruct (String.eqb k k') eqn:E; simpl; [constructor; assumption|].
    constructor; [|apply IH, Hd].
    intros Hin. destruct (keys_mm_set _ _ _ _ Hin) as [H'|H']; [contradiction|].
    subst. rewrite String.eqb_refl in E. discriminate.
Qed.

Lemma merge_inv_set m k v :
  merge_inv m -> good_key k -> v <> EmptyString -> trim v = v -> merge_inv (mm_set k v m).
Proof.
  intros [Hd Hm] Hk Hv Ht. split; [apply nodup_mm_set, Hd|].
  intros K w Hin. destruct (in_mm_set _ _ _ _ _ Hin) as [H|[-> ->]].
  - apply Hm, H.
  - split; [exact Hk|split; assumption].
Qed.

Lemma merge_inv_placeholders P out :
  merge_inv out -> merge_inv (fold_left placeholder_step P out).
Proof.
  revert out. induction P as [|kv P IH]; intros out H; simpl; [exact H|].
  apply IH. unfold placeholder_step.
  destruct (coerceToString (snd kv)) as [s|] eqn:Ec; [|exact H].
  destruct (String.eqb (normalizeKey (fst kv)) "") eqn:E; simpl; [exact H|].
  destruct (coerce_value_canonical _ _ Ec) as [Hs Ht].
  apply merge_inv_set; [exact H| |exact Hs|exact Ht].
  apply normalizeKey_good. intros H0. rewrite H0 in E. discriminate.
Qed.

Lemma merge_inv_fields M out :
  merge_inv out -> merge_inv (fold_left merge_step M out).
Proof.
  revert out. induction M as [|kv M IH]; intros out H; simpl; [exact H|].
  apply IH. unfold merge_step.
  destruct (coerceToString (snd kv)) as [s|] eqn:Ec; [|exact H].
  destruct (String.eqb (normalizeKey (fst kv)) "") eqn:E; simpl; [exact H|].
  destruct (negb (mm_has (normalizeKey (fst kv)) out)); [|exact H].
  destruct (coerce_value_canonical _ _ Ec) as [Hs Ht].
  apply merge_inv_set; [exact H| |exact Hs|exact Ht].
  apply normalizeKey_good. intros H0. rewrite H0 in E. discriminate.
Qed.

Lemma merge_inv_normalizeMerge b : merge_inv (normalizeMerge b).
Proof.
  unfold normalizeMerge. apply merge_inv_fields, merge_inv_placeholders.
  split; [constructor|intros K v []].
Qed.


Definition wrap (K : string) : string := "{{" ++ K ++ "}}".
Definition wrap_kv (kv : string * string) : string * string := (wrap (fst kv), snd kv).

Lemma str_app_assoc a b c : (a ++ b) ++ c = a ++ (b ++ c).
Proof. induction a as [|x a IH]; simpl; [reflexivity|]. rewrite IH. reflexivity. Qed.

Lemma str_app_length a b : String.length (a ++ b) = String.length a + String.length b.
Proof. induction a as [|x a IH]; simpl; [reflexivity|]. rewrite IH. reflexivity. Qed.

Lemma substring_app_l a b : substring 0 (String.length a) (a ++ b) = a.
Proof. induction a as [|x a IH]; simpl; [destruct b; reflexivity|]. rewrite IH. reflexivity. Qed.

Lemma substring_app_r a b : substring (String.length a) (String.length b) (a ++ b) = b.
Proof.
  induction a as [|x a IH]; simpl; [|exact IH].
  induction b as [|y b IHb]; simpl; [reflexivity|]. rewrite IHb. reflexivity.
Qed.

Lemma str_app_cancel_r a b c : a ++ c = b ++ c -> a = b.
Proof.
  intros H.
  assert (Hl : String.length a = String.length b).
  { apply (f_equal String.length) in H. rewrite !str_app_length in H. lia. }
  rewrite <- (substring_app_l a c), <- (substring_app_l b c), H, Hl. reflexivity.
Qed.

Lemma wrap_inj a b : wrap a = wrap b -> a = b.
Proof. unfold wrap. simpl. intros H. injection H as H. exact (str_app_cancel_r _ _ _ H). Qed.

Lemma nodup_wrap m : NoDup (map fst m) -> NoDup (map fst (map wrap_kv m)).
Proof.
  induction m as [|kv m IH]; simpl; intros H; [constructor|].
  inversion H as [|x l Hn Hd]; subst. constructor; [|apply IH, Hd].
  intros Hin. apply in_map_iff in Hin as [kv' [Hk Hin]].
  apply in_map_iff in Hin as [kv'' [<- Hin]]. simpl in Hk. apply wrap_inj in Hk.
  apply Hn. rewrite <- Hk. apply in_map, Hin.
Qed.

Lemma mm_set_fresh k v m : ~ In k (map fst m) -> mm_set k v m = (m ++ [(k, v)])%list.
Proof.
  induction m as [|[k' v'] r IH]; simpl; intros H; [reflexivity|].
  destruct (String.eqb k k') eqn:E.
  - apply String.eqb_eq in E. subst. exfalso. apply H. left. reflexivity.
  - rewrite IH; [reflexivity|]. intros Hin. apply H. right. exact Hin.
Qed.

Lemma buildPlaceholders_go m acc :
  (forall K, In K (map fst m) -> toUpperCase K = K) ->
  NoDup (map fst (acc ++ map wrap_kv m)) ->
  fold_left (fun placeholders kv =>
               mm_set ("{{" ++ toUpperCase (fst kv) ++ "}}") (snd kv) placeholders) m acc
  = (acc ++ map wrap_kv m)%list.
Proof.
  revert acc. induction m as [|[K v] m IH]; intros acc Hup Hd; simpl; [rewrite app_nil_r; reflexivity|].
  rewrite (Hup K (or_introl eq_refl)).
  rewrite mm_set_fresh.
  - rewrite IH.
    + rewrite <- app_assoc. reflexivity.
    + intros K' HK'. apply Hup. right. exact HK'.
    + rewrite <- app_assoc. exact Hd.
  - intros Hin. rewrite map_app in Hd. simpl in Hd.
    apply NoDup_remove_2 in Hd. apply Hd. apply in_or_app. left. exact Hin.
Qed.

Lemma buildPlaceholders_wrap m :
  merge_inv m -> buildPlaceholders m = map wrap_kv m.
Proof.
  intros [Hd Hm]. unfold buildPlaceholders. apply buildPlaceholders_go.
  - intros K HK. apply in_map_iff in HK as [[K' v] [HK Hin]]. simpl in HK. subst K'.
    apply (Hm K v Hin).
  - apply nodup_wrap, Hd.
Qed.

Lemma in_lookup m K v : NoDup (map fst m) -> In (K, v) m <-> mm_lookup K m = Some v.
Proof.
  induction m as [|[k w] r IH]; simpl; intros Hd; [split; [intros []|discriminate]|].
  inversion Hd as [|x l Hn Hd']; subst.
  destruct (String.eqb K k) eqn:E.
  - apply String.eqb_eq in E. subst k. split.
    + intros [H|H]; [injection H as ->; reflexivity|].
      exfalso. apply Hn. apply (in_map fst) in H. exact H.
    + intros H. injection H as ->. left. reflexivity.
  - rewrite <- IH by exact Hd'. split; [intros [H|H]; [|exact H]|intros H; right; exact H].
    injection H as -> _. rewrite String.eqb_refl in E. discriminate.
Qed.

Lemma substring_full s : substring 0 (String.length s) s = s.
Proof. induction s as [|x s IH]; simpl; [reflexivity|]. rewrite IH. reflexivity. Qed.

Lemma drop_two a b s : drop 2 (String a (String b s)) = s.
Proof. unfold drop. simpl. rewrite Nat.sub_0_r. apply substring_full. Qed.

Lemma normalizeKey_wrap K : good_key K -> normalizeKey (wrap K) = K.
Proof.
  intros [Hne [Hup Ht]].
  assert (Hw : wrap K = String "{" (("{" ++ K ++ "}") ++ String "}" EmptyString)).
  { unfold wrap. simpl. rewrite str_app_assoc. reflexivity. }
  unfold normalizeKey. rewrite Hw, StringFacts.trim_framed by reflexivity. rewrite <- Hw.
  unfold strip_braces, wrap.
  change ("{{" ++ K ++ "}}") with (String "{" (String "{" (K ++ "}}"))).
  assert (Hp : String.prefix "{{" (String "{" (String "{" (K ++ "}}"))) = true)
    by (apply String.prefix_correct; simpl; destruct (K ++ "}}"); reflexivity).
  rewrite Hp, drop_two.
  assert (He : ends_with "}}" (K ++ "}}") = true).
  { unfold ends_with. rewrite str_app_length. simpl String.length.
    replace (String.length K + 2 - 2) with (String.length K) by lia.
    pose proof (substring_app_r K "}}") as Hs. cbn [String.length] in Hs. rewrite Hs. apply andb_true_intro; split;
      [apply Nat.leb_le; lia|reflexivity]. }
  rewrite He. rewrite str_app_length. simpl String.length.
  replace (String.length K + 2 - 2) with (String.length K) by lia.
  rewrite substring_app_l, Ht. exact Hup.
Qed.

End PlaceholderFacts.

(** The merge map [normalizeMerge] builds has no two entries with the same
    key; every key is non-empty, upper-case and trimmed, and every value is
    non-empty and trimmed. *)
Theorem normalizeMerge_entries_canonical (rawBody : json) :
  NoDup (map fst (normalizeMerge rawBody)) /\
  forall K v, In (K, v) (normalizeMerge rawBody) ->
    K <> EmptyString /\ toUpperCase K = K /\ trim K = K /\ v <> EmptyString /\ trim v = v.
Proof.
  destruct (PlaceholderFacts.merge_inv_normalizeMerge rawBody) as [Hd Hm].
  split; [exact Hd|]. intros K v Hin.
  destruct (Hm K v Hin) as [[H1 [H2 H3]] [H4 H5]]. repeat split; assumption.
Qed.

(** [buildPlaceholders] of the merge map has one entry per merge key: the
    placeholder ["{{KEY}}"] with that key's value, and nothing else. *)
Theorem buildPlaceholders_of_merge (rawBody : json) :
  NoDup (map fst (buildPlaceholders (normalizeMerge rawBody))) /\
  forall P v, In (P, v) (buildPlaceholders (normalizeMerge rawBody)) <->
    exists K, P = "{{" ++ K ++ "}}" /\ mm_lookup K (normalizeMerge rawBody) = Some v.
Proof.
  pose proof (PlaceholderFacts.merge_inv_normalizeMerge rawBody) as Hinv.
  rewrite (PlaceholderFacts.buildPlaceholders_wrap _ Hinv).
  destruct Hinv as [Hd Hm]. split; [apply PlaceholderFacts.nodup_wrap, Hd|].
  intros P v. split.
  - intros Hin. apply in_map_iff in Hin as [[K w] [Hk Hin]]. injection Hk as <- <-.
    exists K. split; [reflexivity|]. apply PlaceholderFacts.in_lookup; assumption.
  - intros [K [-> Hl]]. apply PlaceholderFacts.in_lookup in Hl; [|exact Hd].
    apply in_map_iff. exists (K, v). split; [reflexivity|exact Hl].
Qed.

(** Every placeholder [buildPlaceholders] produces normalizes back, through
    [normalizeKey], to the merge key whose value it carries. *)
Theorem placeholder_key_renormalizes (rawBody : json) (P v : string)
    (Hin : In (P, v) (buildPlaceholders (normalizeMerge rawBody))) :
  mm_lookup (normalizeKey P) (normalizeMerge rawBody) = Some v.
Proof.
  pose proof (PlaceholderFacts.merge_inv_normalizeMerge rawBody) as Hinv.
  rewrite (PlaceholderFacts.buildPlaceholders_wrap _ Hinv) in Hin.
  apply in_map_iff in Hin as [[K w] [Hk Hin]]. injection Hk as <- <-.
  destruct Hinv as [Hd Hm].
  rewrite PlaceholderFacts.normalizeKey_wrap by exact (proj1 (Hm K w Hin)).
  apply PlaceholderFacts.in_lookup; assumption.
Qed.

Lemma placeholder_key_renormalizes_witness :
  In ("{{PROJECT}}", "Acme")
     (buildPlaceholders (normalizeMerge (JObj [("placeholders", JObj [("{{ project }}", JStr " Acme ")])]))) /\
  mm_lookup (normalizeKey "{{PROJECT}}")
     (normalizeMerge (JObj [("placeholders", JObj [("{{ project }}", JStr " Acme ")])])) = Some "Acme".
Proof.
  split; [vm_compute; left; reflexivity|].
  apply placeholder_key_renormalizes. vm_compute. left. reflexivity.
Defined.

(** Every request [buildReplaceRequests] sends to Docs replaces a
    case-sensitive ["{{KEY}}"] of a non-empty merge key by that key's value,
    which is non-empty and trimmed: no request blanks a placeholder. *)
Theorem replace_requests_nonblank (rawBody : json) (req : json)
    (Hin : In req (buildReplaceRequests (buildPlaceholders (normalizeMerge rawBody)))) :
  exists K v,
    req = JObj [("replaceAllText",
                 JObj [("containsText", JObj [("text", JStr ("{{" ++ K ++ "}}")); ("matchCase", JBool true)]);
                       ("replaceText", JStr v)])] /\
    mm_lookup K (normalizeMerge rawBody) = Some v /\
    K <> EmptyString /\ v <> EmptyString /\ trim v = v.
Proof.
  pose proof (PlaceholderFacts.merge_inv_normalizeMerge rawBody) as Hinv.
  unfold buildReplaceRequests in Hin.
  rewrite (PlaceholderFacts.buildPlaceholders_wrap _ Hinv) in Hin.
  apply in_map_iff in Hin as [[P w] [Hreq Hin]].
  apply in_map_iff in Hin as [[K v] [Hk Hin]]. injection Hk as <- <-.
  destruct Hinv as [Hd Hm]. destruct (Hm K v Hin) as [[HK _] [Hv Ht]].
  exists K, v. split; [symmetry; exact Hreq|].
  split; [apply PlaceholderFacts.in_lookup; assumption|].
  repeat split; assumption.
Qed.

Lemma replace_requests_nonblank_witness :
  exists K v,
    JObj [("replaceAllText",
           JObj [("containsText", JObj [("text", JStr "{{CLIENT}}"); ("matchCase", JBool true)]);
                 ("replaceText", JStr "Acme")])] =
    JObj [("replaceAllText",
           JObj [("containsText", JObj [("text", JStr ("{{" ++ K ++ "}}")); ("matchCase", JBool true)]);
                 ("replaceText", JStr v)])] /\
    mm_lookup K (normalizeMerge (JObj [("fields", JObj [("client", JArr [JStr "Acme "])])])) = Some v /\
    K <> EmptyString /\ v <> EmptyString /\ trim v = v.
Proof.
  apply (replace_requests_nonblank (JObj [("fields", JObj [("client", JArr [JStr "Acme "])])])).
  vm_compute. left. reflexivity.
Defined.

Module EmailFacts.
Import EmailDomain.

Lemma has_char_app c x y : has_char c (x ++ y) = has_char c x || has_char c y.
Proof. induction x as [|d x IH]; simpl; [reflexivity|]. rewrite IH, orb_assoc. reflexivity. Qed.

Lemma after_last_absent c s : has_char c s = false -> after_last c s = None.
Proof.
  induction s as [|d r IH]; simpl; intros H; [reflexivity|].
  apply orb_false_iff in H as [H1 H2]. rewrite IH by exact H2. rewrite H1. reflexivity.
Qed.

Lemma after_last_app c x y :
  has_char c y = false -> after_last c (x ++ String c y) = Some y.
Proof.
  intros Hy. induction x as [|d x IH]; simpl.
  - rewrite after_last_absent by exact Hy. rewrite Ascii.eqb_refl. reflexivity.
  - rewrite IH. reflexivity.
Qed.

Lemma angle_match_skip name t :
  has_char "<"%char name = false -> angle_match (name ++ t) = angle_match t.
Proof.
  induction name as [|d r IH]; simpl; intros H; [reflexivity|].
  apply orb_false_iff in H as [H1 H2]. rewrite H1. apply IH, H2.
Qed.

Lemma take_until_gt_app a rest :
  has_char ">"%char a = false -> take_until_gt (a ++ String ">" rest) = Some a.
Proof.
  induction a as [|d r IH]; simpl; intros H; [reflexivity|].
  apply orb_false_iff in H as [H1 H2]. rewrite H1, IH by exact H2. reflexivity.
Qed.

Lemma take_until_gt_absent a : has_char ">"%char a = false -> take_until_gt a = None.
Proof.
  induction a as [|d r IH]; simpl; intros H; [reflexivity|].
  apply orb_false_iff in H as [H1 H2]. rewrite H1, IH by exact H2. reflexivity.
Qed.

Lemma angle_match_no_gt a : has_char ">"%char a = false -> angle_match a = None.
Proof.
  induction a as [|d r IH]; simpl; intros H; [reflexivity|].
  apply orb_false_iff in H as [H1 H2].
  rewrite take_until_gt_absent by exact H2. rewrite IH by exact H2.
  destruct (Ascii.eqb d "<"%char); reflexivity.
Qed.

Lemma angle_match_no_lt s : has_char "<"%char s = false -> angle_match s = None.
Proof.
  induction s as [|d r IH]; simpl; intros H; [reflexivity|].
  apply orb_false_iff in H as [H1 H2]. rewrite H1. apply IH, H2.
Qed.

Lemma take_until_gt_sub c r cap :
  take_until_gt r = Some cap -> has_char c r = false -> has_char c cap = false.
Proof.
  revert cap. induction r as [|d r IH]; simpl; intros cap H Hc; [discriminate|].
  apply orb_false_iff in Hc as [H1 H2].
  destruct (Ascii.eqb d ">"%char); [injection H as <-; reflexivity|].
  destruct (take_until_gt r) as [cap'|] eqn:E; [|discriminate].
  injection H as <-. simpl. rewrite H1. apply (IH cap' eq_refl H2).
Qed.

Lemma angle_match_sub c s cap :
  angle_match s = Some cap -> has_char c s = false -> has_char c cap = false.
Proof.
  induction s as [|d r IH]; simpl; intros H Hc; [discriminate|].
  apply orb_false_iff in Hc as [_ H2].
  destruct (Ascii.eqb d "<"%char); [|apply IH; assumption].
  destruct (take_until_gt r) as [cap'|] eqn:E; [|apply IH; assumption].
  destruct (String.eqb cap' ""); [apply IH; assumption|].
  injection H as <-. apply (take_until_gt_sub c r); assumption.
Qed.

End EmailFacts.

(** [normalizeDomain] always returns a lower-case string with no [/] and no
    [?]. *)
Theorem normalizeDomain_host_only (input : string) :
  has_char "/"%char (normalizeDomain input) = false /\
  has_char "?"%char (normalizeDomain input) = false /\
  toLowerCase (normalizeDomain input) = normalizeDomain input.
Proof.
  unfold normalizeDomain. destruct (String.eqb input ""); [repeat split; reflexivity|].
  cbv zeta.
  set (d := strip_protocol (toLowerCase (trim input))).
  assert (Hd : StringFacts.lowered d).
  { unfold d, strip_protocol.
    destruct (String.prefix "http://" _); [apply StringFacts.lowered_substring|];
      [apply StringFacts.lowered_toLowerCase|].
    destruct (String.prefix "https://" _); [apply StringFacts.lowered_substring|];
      apply StringFacts.lowered_toLowerCase. }
  set (x := before_char "?"%char (before_char "/"%char d)).
  assert (Hxl : StringFacts.lowered x).
  { apply StringFacts.lowered_before_char, StringFacts.lowered_before_char, Hd. }
  assert (Hxs : has_char "/"%char x = false).
  { apply StringFacts.has_char_before_char_other, StringFacts.has_char_before_char. }
  assert (Hxq : has_char "?"%char x = false) by apply StringFacts.has_char_before_char.
  unfold strip_www. destruct (String.prefix "www." x).
  - repeat split; [apply StringFacts.has_char_substring, Hxs
                  |apply StringFacts.has_char_substring, Hxq
                  |apply StringFacts.lowered_substring, Hxl].
  - repeat split; [exact Hxs|exact Hxq|exact Hxl].
Qed.

(** For a bare address [local@dom] with no [<] and a single [@] in the domain
    part, [extractDomainFromEmail] returns the normalized domain part. *)
Theorem extractDomain_plain_address (local dom : string)
    (Hl : has_char "<"%char local = false) (Hd : has_char "<"%char dom = false)
    (Ha : has_char "@"%char dom = false) :
  EmailDomain.extractDomainFromEmail (local ++ "@" ++ dom) = Some (normalizeDomain dom).
Proof.
  unfold EmailDomain.extractDomainFromEmail.
  replace (String.eqb (local ++ "@" ++ dom) "") with false by (destruct local; reflexivity).
  rewrite EmailFacts.angle_match_no_lt
    by (rewrite EmailFacts.has_char_app; simpl; rewrite Hl, Hd; reflexivity).
  change ("@" ++ dom) with (String "@" dom). rewrite (EmailFacts.after_last_app "@"%char local dom Ha). reflexivity.
Qed.

Lemma extractDomain_plain_address_witness :
  EmailDomain.extractDomainFromEmail ("jo@corp" ++ "@" ++ "Mail.Example.COM/x") =
  Some (normalizeDomain "Mail.Example.COM/x").
Proof. apply extractDomain_plain_address; reflexivity. Defined.

(** For ["Name <addr> rest"] with no [<] in the name, [extractDomainFromEmail]
    reads only the address between the first [<] and the following [>]. *)
Theorem extractDomain_angle_form (name addr rest : string)
    (Hn : has_char "<"%char name = false) (Ha : addr <> EmptyString)
    (Hg : has_char ">"%char addr = false) :
  EmailDomain.extractDomainFromEmail (name ++ "<" ++ addr ++ ">" ++ rest) =
  EmailDomain.extractDomainFromEmail addr.
Proof.
  unfold EmailDomain.extractDomainFromEmail.
  replace (String.eqb (name ++ "<" ++ addr ++ ">" ++ rest) "") with false
    by (destruct name; reflexivity).
  replace (String.eqb addr "") with false
    by (destruct addr; [contradiction|reflexivity]).
  rewrite EmailFacts.angle_match_skip by exact Hn.
  change ("<" ++ addr ++ ">" ++ rest) with (String "<" (addr ++ String ">" rest)).
  cbn [EmailDomain.angle_match]. rewrite Ascii.eqb_refl.
  rewrite EmailFacts.take_until_gt_app by exact Hg.
  replace (String.eqb addr "") with false
    by (destruct addr; [contradiction|reflexivity]).
  rewrite EmailFacts.angle_match_no_gt by exact Hg. reflexivity.
Qed.

Lemma extractDomain_angle_form_witness :
  EmailDomain.extractDomainFromEmail ("Jo Smith " ++ "<" ++ "jo@Example.com" ++ ">" ++ " (work)") =
  Some "example.com".
Proof.
  rewrite extractDomain_angle_form by (reflexivity || discriminate). reflexivity.
Defined.

(** A sender string without [@] has no domain: [extractDomainFromEmail]
    returns [null]. *)
Theorem extractDomain_requires_at (email : string) (H : has_char "@"%char email = false) :
  EmailDomain.extractDomainFromEmail email = None.
Proof.
  unfold EmailDomain.extractDomainFromEmail.
  destruct (String.eqb email ""); [reflexivity|].
  destruct (EmailDomain.angle_match email) as [cap|] eqn:E.
  - rewrite EmailFacts.after_last_absent; [reflexivity|].
    apply (EmailFacts.angle_match_sub _ email); assumption.
  - rewrite EmailFacts.after_last_absent by exact H. reflexivity.
Qed.

Lemma extractDomain_requires_at_witness :
  EmailDomain.extractDomainFromEmail "Jo <jo at example.com>" = None.
Proof. apply extractDomain_requires_at. reflexivity. Defined.

Module FormulaFacts.
Import Airtable StoreM.

Lemma find_first_some rs t f lit r :
  find_first rs t f lit = Some r <->
  exists pre post, rs = (pre ++ (t, r) :: post)%list /\ matches f lit r = true /\
    forall t' r', In (t', r') pre -> t' = t -> matches f lit r' = false.
Proof.
  induction rs as [|[t0 r0] rs IH]; simpl.
  - split; [discriminate|]. intros [pre [post [H _]]]. destruct pre; discriminate.
  - destruct (String.eqb t0 t && matches f lit r0) eqn:E.
    + apply andb_true_iff in E as [E1 E2]. apply String.eqb_eq in E1. subst t0.
      split.
      * intros H. injection H as <-. exists [], rs. split; [reflexivity|].
        split; [exact E2|]. intros t' r' [].
      * intros [pre [post [Hrs [Hm Hpre]]]].
        destruct pre as [|[t1 r1] pre]; simpl in Hrs.
        { injection Hrs as <- _. reflexivity. }
        injection Hrs as <- <- _. exfalso.
        rewrite (Hpre t r0 (or_introl eq_refl) eq_refl) in E2. discriminate.
    + rewrite IH. split.
      * intros [pre [post [Hrs [Hm Hpre]]]]. exists ((t0, r0) :: pre), post.
        split; [rewrite Hrs; reflexivity|]. split; [exact Hm|].
        intros t' r' [H|H] Ht'; [|exact (Hpre t' r' H Ht')].
        injection H as H1 H2. rewrite <- H1 in Ht'. subst r'.
        rewrite Ht', String.eqb_refl in E. exact E.
      * intros [pre [post [Hrs [Hm Hpre]]]].
        destruct pre as [|[t1 r1] pre]; simpl in Hrs.
        { injection Hrs as <- <- _. rewrite String.eqb_refl, Hm in E. discriminate. }
        injection Hrs as -> -> Hrs. exists pre, post. split; [exact Hrs|].
        split; [exact Hm|]. intros t' r' H Ht'. exact (Hpre t' r' (or_intror H) Ht').
Qed.

Lemma find_first_none rs t f lit :
  find_first rs t f lit = None <-> forall r, In (t, r) rs -> matches f lit r = false.
Proof.
  induction rs as [|[t0 r0] rs IH]; simpl.
  - split; [intros _ r []|reflexivity].
  - destruct (String.eqb t0 t && matches f lit r0) eqn:E.
    + split; [discriminate|]. intros H. exfalso.
      apply andb_true_iff in E as [E1 E2]. apply String.eqb_eq in E1. subst t0.
      rewrite (H r0 (or_introl eq_refl)) in E2. discriminate.
    + rewrite IH. split.
      * intros H r [Hr|Hr]; [|exact (H r Hr)]. injection Hr as -> ->.
        rewrite String.eqb_refl in E. exact E.
      * intros H r Hr. exact (H r (or_intror Hr)).
Qed.

Lemma matches_escaped f v r :
  matches f (escapeFormulaValue v) r = true <->
  lookup f (fields r) = Some (JStr v) \/ (lookup f (fields r) = None /\ v = EmptyString).
Proof.
  unfold matches. rewrite StoreFacts.unescape_escapeFormulaValue.
  destruct (lookup f (fields r)) as [[]|]; split; intros H;
    try discriminate; try (destruct H as [H|[H _]]; discriminate).
  - apply String.eqb_eq in H. subst. left. reflexivity.
  - destruct H as [H|[H _]]; [injection H as ->; apply String.eqb_refl|discriminate].
  - apply String.eqb_eq in H. subst. right. split; reflexivity.
  - destruct H as [H|[_ ->]]; [discriminate|reflexivity].
Qed.

Lemma findOne_mem T F lit s :
  findOneByFormula mem_server T F lit s =
  (inl (match find_first (rows s) T F lit with Some r => Some (record_json r) | None => None end), s).
Proof.
  unfold findOneByFormula, bind, send, mem_server. cbn.
  destruct (find_first (rows s) T F lit); reflexivity.
Qed.

Lemma record_json_inj r r' : record_json r = record_json r' -> r = r'.
Proof.
  destruct r, r'. unfold record_json. simpl. intros H. injection H as -> ->. reflexivity.
Qed.

End FormulaFacts.

(** [escapeFormulaValue v] always forms the body of a single double-quoted
    formula literal (no unescaped quote, no dangling backslash), and that
    literal reads back as [v]. *)
Theorem escapeFormulaValue_literal (v : string) :
  Airtable.literal_body_ok (Airtable.escapeFormulaValue v) = true /\
  Airtable.unescape (Airtable.escapeFormulaValue v) = v.
Proof.
  split; [|apply StoreFacts.unescape_escapeFormulaValue].
  unfold Airtable.escapeFormulaValue.
  induction v as [|c r IH]; simpl; [reflexivity|].
  destruct (Ascii.eqb c Airtable.bslash) eqn:Eb.
  - simpl. exact IH.
  - destruct (Ascii.eqb c dq) eqn:Edq.
    + apply Ascii.eqb_eq in Edq. subst c. simpl. exact IH.
    + simpl. rewrite Edq. simpl. rewrite Eb. simpl. rewrite Edq. exact IH.
Qed.

(** Over the in-memory Airtable, [findOneByFormula] with the formula
    [{F}="escapeFormulaValue v"] changes nothing and matches exactly the rows
    of the table whose field [F] is the string [v] (a missing field when [v]
    is empty): it returns the first such row, or [null] when there is none. *)
Theorem findOneByFormula_escaped_exact (T F v : string) (s : Airtable.store) :
  snd (StoreM.findOneByFormula Airtable.mem_server T F (Airtable.escapeFormulaValue v) s) = s /\
  (fst (StoreM.findOneByFormula Airtable.mem_server T F (Airtable.escapeFormulaValue v) s) = inl None <->
   forall r, In (T, r) (Airtable.rows s) ->
     ~ (lookup F (Airtable.fields r) = Some (JStr v) \/
        (lookup F (Airtable.fields r) = None /\ v = EmptyString))) /\
  (forall r,
   fst (StoreM.findOneByFormula Airtable.mem_server T F (Airtable.escapeFormulaValue v) s) =
     inl (Some (Airtable.record_json r)) <->
   exists pre post, Airtable.rows s = (pre ++ (T, r) :: post)%list /\
     (lookup F (Airtable.fields r) = Some (JStr v) \/
      (lookup F (Airtable.fields r) = None /\ v = EmptyString)) /\
     forall r', In (T, r') pre ->
       ~ (lookup F (Airtable.fields r') = Some (JStr v) \/
          (lookup F (Airtable.fields r') = None /\ v = EmptyString))).
Proof.
  rewrite FormulaFacts.findOne_mem. simpl. split; [reflexivity|]. split.
  - destruct (Airtable.find_first _ _ _ _) as [r|] eqn:E.
    + split; [discriminate|]. intros H. exfalso.
      apply FormulaFacts.find_first_some in E as [pre [post [Hrs [Hm _]]]].
      apply (H r); [rewrite Hrs; apply in_or_app; right; left; reflexivity|].
      apply FormulaFacts.matches_escaped, Hm.
    + split; [intros _|reflexivity]. intros r Hr Hm.
      apply FormulaFacts.matches_escaped in Hm.
      rewrite ((proj1 (FormulaFacts.find_first_none _ _ _ _)) E r Hr) in Hm. discriminate.
  - intros r. split.
    + intros H. destruct (Airtable.find_first _ _ _ _) as [r0|] eqn:E; [|discriminate].
      assert (Hj : Airtable.record_json r0 = Airtable.record_json r) by congruence.
      apply FormulaFacts.record_json_inj in Hj. subst r0.
      apply FormulaFacts.find_first_some in E as [pre [post [Hrs [Hm Hpre]]]].
      exists pre, post. split; [exact Hrs|]. split; [apply FormulaFacts.matches_escaped, Hm|].
      intros r' Hr' Hm'. apply FormulaFacts.matches_escaped in Hm'.
      rewrite (Hpre T r' Hr' eq_refl) in Hm'. discriminate.
    + intros [pre [post [Hrs [Hm Hpre]]]].
      assert (E : Airtable.find_first (Airtable.rows s) T F (Airtable.escapeFormulaValue v) = Some r).
      { apply FormulaFacts.find_first_some. exists pre, post. split; [exact Hrs|].
        split; [apply FormulaFacts.matches_escaped, Hm|].
        intros t' r' Hr' ->. destruct (Airtable.matches F _ r') eqn:Em; [|reflexivity].
        exfalso. apply (Hpre r' Hr'). apply FormulaFacts.matches_escaped, Em. }
      rewrite E. reflexivity.
Qed.

Module MappingFacts.
Import ProjectMapping.

Definition rec_shaped (x : string) : Prop := String.prefix "rec" x = true /\ trim x = x.

Lemma record_input_shaped o x : record_input o = Some x -> rec_shaped x.
Proof.
  destruct o as [y|]; simpl; [|discriminate].
  destruct (negb (String.eqb y "") && String.prefix "rec" (trim y)) eqn:E; [|discriminate].
  intros H. injection H as <-. apply andb_true_iff in E as [_ E].
  split; [exact E|apply StringFacts.trim_idem].
Qed.

Lemma linked_id_shaped f k x : linked_id f k = Some x -> rec_shaped x.
Proof.
  unfold linked_id. destruct (prop f k) as [[]|]; try discriminate.
  destruct (String.prefix "rec" (trim s)) eqn:E; [|discriminate].
  intros H. injection H as <-. split; [exact E|apply StringFacts.trim_idem].
Qed.

Lemma getRecord_trace server C b t i tr :
  snd (getRecord server C b t i tr) = tr \/
  snd (getRecord server C b t i tr) = (tr ++ [mk_get b t i])%list.
Proof.
  unfold getRecord. destruct (String.eqb (airtableApiKey C) ""); [left; reflexivity|].
  unfold bind, fetch. cbn [fst snd].
  destruct (negb (res_ok (server (mk_get b t i)))); [right; reflexivity|].
  destruct (body (server (mk_get b t i))); right; reflexivity.
Qed.

Lemma getRecord_no_key server C b t i tr :
  airtableApiKey C = "" -> getRecord server C b t i tr = (inl None, tr).
Proof. intros H. unfold getRecord. rewrite H. reflexivity. Qed.

End MappingFacts.

(** Every mapping [resolveProjectIds] returns holds a Client PM OS id that is
    trimmed and starts with [rec], and a Hive OS id that is [null] or trimmed
    and starting with [rec]. *)
Theorem resolveProjectIds_ids_well_formed
    (server : ProjectMapping.get -> ProjectMapping.response) (C : ProjectMapping.config)
    (inputClientPm inputHiveOs : option string) (tr tr' : list ProjectMapping.get)
    (m : ProjectMapping.ProjectIdMapping)
    (H : ProjectMapping.resolveProjectIds server C inputClientPm inputHiveOs tr = (inl (Some m), tr')) :
  String.prefix "rec" (ProjectMapping.clientPmProjectRecordId m) = true /\
  trim (ProjectMapping.clientPmProjectRecordId m) = ProjectMapping.clientPmProjectRecordId m /\
  (forall h, ProjectMapping.hiveOsProjectRecordId m = Some h ->
             String.prefix "rec" h = true /\ trim h = h).
Proof.
  unfold ProjectMapping.resolveProjectIds in H. cbv zeta in H.
  destruct (_ || _); [discriminate|].
  destruct (ProjectMapping.record_input inputClientPm) as [c|] eqn:Ec.
  - unfold ProjectMapping.bind in H.
    destruct (ProjectMapping.getRecord server C _ _ c tr) as [[[f|]|e] tr1]; try discriminate.
    destruct (truthy f); [|discriminate].
    injection H as <- _. simpl.
    destruct (MappingFacts.record_input_shaped _ _ Ec) as [H1 H2].
    split; [exact H1|split; [exact H2|]].
    intros h Hh. apply (MappingFacts.linked_id_shaped _ _ _ Hh).
  - destruct (ProjectMapping.record_input inputHiveOs) as [h|] eqn:Eh; [|discriminate].
    unfold ProjectMapping.bind in H.
    destruct (ProjectMapping.getRecord server C _ _ h tr) as [[[f|]|e] tr1]; try discriminate.
    destruct (truthy f); [|discriminate].
    destruct (ProjectMapping.linked_id f _) as [c|] eqn:El; [|discriminate].
    injection H as <- _. simpl.
    destruct (MappingFacts.linked_id_shaped _ _ _ El) as [H1 H2].
    split; [exact H1|split; [exact H2|]].
    intros h' Hh. injection Hh as <-. apply (MappingFacts.record_input_shaped _ _ Eh).
Qed.

Lemma resolveProjectIds_ids_well_formed_witness :
  ProjectMapping.resolveProjectIds mapping_sample_server mapping_sample_config
    (Some "  recCLIENT7 ") None [] =
  (inl (Some (ProjectMapping.mk_mapping "recCLIENT7" (Some "recHIVE42"))),
   [ProjectMapping.mk_get "appClient" "Projects" "recCLIENT7"]) /\
  String.prefix "rec" "recCLIENT7" = true.
Proof.
  split; [vm_compute; reflexivity|].
  exact (proj1 (resolveProjectIds_ids_well_formed mapping_sample_server mapping_sample_config
                  (Some "  recCLIENT7 ") None [] _
                  (ProjectMapping.mk_mapping "recCLIENT7" (Some "recHIVE42")) ltac:(vm_compute; reflexivity))).
Defined.

(** When the Client PM OS id is given (non-empty, starting with [rec] once
    trimmed), [resolveProjectIds] ignores the Hive OS id and sends at most one
    GET: the trimmed id in the Client PM OS base. *)
Theorem resolveProjectIds_clientPm_first
    (server : ProjectMapping.get -> ProjectMapping.response) (C : ProjectMapping.config)
    (inputClientPm inputHiveOs inputHiveOs' : option string) (c : string)
    (tr : list ProjectMapping.get)
    (Hc : ProjectMapping.record_input inputClientPm = Some c) :
  ProjectMapping.resolveProjectIds server C inputClientPm inputHiveOs tr =
  ProjectMapping.resolveProjectIds server C inputClientPm inputHiveOs' tr /\
  (snd (ProjectMapping.resolveProjectIds server C inputClientPm inputHiveOs tr) = tr \/
   snd (ProjectMapping.resolveProjectIds server C inputClientPm inputHiveOs tr) =
   (tr ++ [ProjectMapping.mk_get (ProjectMapping.clientPmOsBaseId C) (ProjectMapping.projects C) c])%list).
Proof.
  unfold ProjectMapping.resolveProjectIds. cbv zeta. rewrite Hc.
  split; [reflexivity|].
  destruct (_ || _); [left; reflexivity|].
  unfold ProjectMapping.bind.
  pose proof (MappingFacts.getRecord_trace server C (ProjectMapping.clientPmOsBaseId C)
                (ProjectMapping.projects C) c tr) as Ht.
  destruct (ProjectMapping.getRecord server C _ _ c tr) as [[[f|]|e] tr1]; simpl in Ht |- *;
    try exact Ht.
  destruct (truthy f); exact Ht.
Qed.

Lemma resolveProjectIds_clientPm_first_witness :
  ProjectMapping.resolveProjectIds mapping_sample_server mapping_sample_config
    (Some "recCLIENT7") (Some "recOTHER") [] =
  ProjectMapping.resolveProjectIds mapping_sample_server mapping_sample_config
    (Some "recCLIENT7") None [].
Proof.
  exact (proj1 (resolveProjectIds_clientPm_first mapping_sample_server mapping_sample_config
                  (Some "recCLIENT7") (Some "recOTHER") None "recCLIENT7" [] eq_refl)).
Defined.

(** Without both base ids, or without the API key, [resolveProjectIds] returns
    [null] and sends no request. *)
Theorem resolveProjectIds_unconfigured
    (server : ProjectMapping.get -> ProjectMapping.response) (C : ProjectMapping.config)
    (inputClientPm inputHiveOs : option string) (tr : list ProjectMapping.get)
    (H : ProjectMapping.clientPmOsBaseId C = "" \/ ProjectMapping.hiveOsBaseId C = "" \/
         ProjectMapping.airtableApiKey C = "") :
  ProjectMapping.resolveProjectIds server C inputClientPm inputHiveOs tr = (inl None, tr).
Proof.
  unfold ProjectMapping.resolveProjectIds. cbv zeta.
  destruct H as [H|[H|H]].
  - rewrite H. reflexivity.
  - rewrite H, orb_true_r. reflexivity.
  - destruct (_ || _); [reflexivity|]. unfold ProjectMapping.bind.
    destruct (ProjectMapping.record_input inputClientPm) as [c|];
      [|destruct (ProjectMapping.record_input inputHiveOs) as [h|]];
      try rewrite MappingFacts.getRecord_no_key by exact H; reflexivity.
Qed.

Lemma resolveProjectIds_unconfigured_witness :
  ProjectMapping.resolveProjectIds mapping_sample_server
    (ProjectMapping.mk_config "key" "appClient" "" "Projects") (Some "recCLIENT7") None [] =
  (inl None, []).
Proof. apply resolveProjectIds_unconfigured. right. left. reflexivity. Defined.

(** [verifyClientPmProjectExists] returns [true] only after exactly one GET of
    the record in a configured Client PM OS base that answered with a 2xx
    status and a body whose [fields] is present and not [null]. *)
Theorem verifyClientPmProjectExists_needs_fetch
    (server : ProjectMapping.get -> ProjectMapping.response) (C : ProjectMapping.config)
    (recordId : string) (tr tr' : list ProjectMapping.get)
    (H : ProjectMapping.verifyClientPmProjectExists server C recordId tr = (inl true, tr')) :
  let q := ProjectMapping.mk_get (ProjectMapping.clientPmOsBaseId C) (ProjectMapping.projects C) recordId in
  tr' = (tr ++ [q])%list /\ ProjectMapping.clientPmOsBaseId C <> "" /\
  ProjectMapping.res_ok (server q) = true /\
  exists data f, ProjectMapping.body (server q) = Some data /\
                 prop data "fields" = Some f /\ f <> JNull.
Proof.
  cbv zeta. unfold ProjectMapping.verifyClientPmProjectExists in H. cbv zeta in H.
  destruct (String.eqb (ProjectMapping.clientPmOsBaseId C) "") eqn:Eb; [discriminate|].
  unfold ProjectMapping.bind, ProjectMapping.getRecord in H.
  destruct (String.eqb (ProjectMapping.airtableApiKey C) ""); [discriminate|].
  unfold ProjectMapping.bind, ProjectMapping.fetch in H. cbn [fst snd] in H.
  destruct (ProjectMapping.res_ok (server _)) eqn:Eok; [|discriminate].
  destruct (ProjectMapping.body (server _)) as [data|] eqn:Ed; [|discriminate].
  cbn in H. destruct (prop data "fields") as [f|] eqn:Ef; [|discriminate].
  destruct f; [cbn in H; discriminate| | | | |]; injection H as <-;
    (split; [reflexivity|split; [intros E; rewrite E in Eb; discriminate|]]);
    (split; [reflexivity|]); eexists; eexists; (split; [reflexivity|split; [exact Ef|discriminate]]).
Qed.

Lemma verifyClientPmProjectExists_needs_fetch_witness :
  ProjectMapping.res_ok (mapping_sample_server
    (ProjectMapping.mk_get "appClient" "Projects" "recCLIENT7")) = true.
Proof.
  exact (proj1 (proj2 (proj2 (verifyClientPmProjectExists_needs_fetch mapping_sample_server
           mapping_sample_config "recCLIENT7" [] _ ltac:(vm_compute; reflexivity))))).
Defined.

Module BatchFacts.
Import Promote.

Lemma batches_concat n l : List.length l <= n -> concat (batches n l) = l.
Proof.
  revert l; induction n as [|n IH]; intros l Hl.
  - destruct l; [reflexivity | simpl in Hl; lia].
  - destruct l as [|x r]; [reflexivity|].
    change (concat (batches (S n) (x :: r))) with
      (firstn 10 (x :: r) ++ concat (batches n (skipn 10 (x :: r))))%list.
    rewrite IH; [apply firstn_skipn|].
    rewrite length_skipn; simpl in Hl |- *; lia.
Qed.

Lemma batches_sizes n l : Forall (fun b => 1 <= List.length b <= 10) (batches n l).
Proof.
  revert l; induction n as [|n IH]; intros l; [constructor|].
  destruct l as [|x r]; [constructor|].
  change (batches (S n) (x :: r)) with (firstn 10 (x :: r) :: batches n (skipn 10 (x :: r))).
  constructor; [|apply IH].
  rewrite length_firstn; cbn [List.length]; lia.
Qed.

Lemma create_batches_trace server t bs acc tr :
  exists k, snd (create_batches server t bs acc tr) = (tr ++ map (GasCreate t) (firstn k bs))%list /\
            (forall ids, fst (create_batches server t bs acc tr) = inl ids -> k = List.length bs).
Proof.
  revert acc tr; induction bs as [|b bs IH]; intros acc tr.
  - exists 0; simpl; split; [rewrite app_nil_r; reflexivity | reflexivity].
  - destruct (create_batches server t (b :: bs) acc tr) as [res tr'] eqn:E. simpl fst; simpl snd.
    cbn [create_batches] in E. unfold bind, fetch, throw, parse, ret in E. cbv beta iota in E.
    destruct (negb (code (server tr (GasCreate t b)) =? 200)%Z).
    + injection E as <- <-. exists 1; split; [reflexivity | discriminate].
    + destruct (body (server tr (GasCreate t b))) as [j|].
      * assert (Htr : snd (record_ids j (tr ++ [GasCreate t b])%list) = (tr ++ [GasCreate t b])%list).
        { unfold record_ids.
          destruct (js_or (prop j "records") (Some (JArr []))) as [[]|]; try reflexivity.
          destruct (existsb _ _); reflexivity. }
        destruct (record_ids j (tr ++ [GasCreate t b])%list) as [[ids|e] tr1].
        -- simpl in Htr; subst tr1.
           destruct (IH (acc ++ ids)%list (tr ++ [GasCreate t b])%list) as [k [Hk1 Hk2]].
           rewrite E in Hk1, Hk2. simpl in Hk1, Hk2.
           exists (S k); split.
           ++ rewrite Hk1; simpl; rewrite <- app_assoc; reflexivity.
           ++ intros ids' H; simpl; f_equal; eapply Hk2; exact H.
        -- simpl in Htr; subst tr1. injection E as <- <-.
           exists 1; split; [reflexivity | discriminate].
      * injection E as <- <-. exists 1; split; [reflexivity | discriminate].
Qed.

End BatchFacts.

(** [createAirtableRecords] sends the records in consecutive batches of one
    to ten records whose concatenation is the input; it stops at the first
    failing batch, so the calls made are a prefix of those batches, all of them
    when it returns. *)
Theorem createAirtableRecords_batches server t l tr :
  let bs := Promote.batches (List.length l) l in
  concat bs = l /\ Forall (fun b => 1 <= List.length b <= 10) bs /\
  exists k, snd (Promote.createAirtableRecords server t l tr) =
              (tr ++ map (Promote.GasCreate t) (firstn k bs))%list /\
            (forall ids, fst (Promote.createAirtableRecords server t l tr) = inl ids ->
                         k = List.length bs).
Proof.
  intros bs. split; [apply BatchFacts.batches_concat; lia|].
  split; [apply BatchFacts.batches_sizes|].
  destruct l as [|x r].
  - exists 0; simpl; split; [rewrite app_nil_r; reflexivity | reflexivity].
  - apply BatchFacts.create_batches_trace.
Qed.

(** When the Inbox GET does not answer 200, [promoteInboxItem] makes no other
    call and answers [ok = false] with an empty result: "Inbox record not
    found" on a 404, "Failed to fetch Inbox record: ..." otherwise. *)
Theorem promoteInboxItem_inbox_unavailable server id p tr
    (H : Promote.code (server tr (Promote.GasGet Promote.INBOX_TABLE id)) <> 200%Z) :
  exists msg,
    Promote.promoteInboxItem server id p tr =
      (inl (Promote.mk_result false id [] [] false (Some msg)),
       (tr ++ [Promote.GasGet Promote.INBOX_TABLE id])%list) /\
    (Promote.code (server tr (Promote.GasGet Promote.INBOX_TABLE id)) = 404%Z ->
       msg = "Inbox record not found: " ++ id) /\
    (Promote.code (server tr (Promote.GasGet Promote.INBOX_TABLE id)) <> 404%Z ->
       exists e, msg = "Failed to fetch Inbox record: " ++ e).
Proof.
  unfold Promote.promoteInboxItem, Promote.getAirtableRecord, Promote.bind, Promote.attempt,
    Promote.fetch, Promote.ret, Promote.throw.
  destruct (Z.eqb_spec (Promote.code (server tr (Promote.GasGet Promote.INBOX_TABLE id))) 404) as [E|E].
  - eexists; split; [reflexivity|]. split; [reflexivity | intros C; contradiction].
  - apply Z.eqb_neq in H. rewrite H. simpl.
    eexists; split; [reflexivity|]. split; [intros C; contradiction | eexists; reflexivity].
Qed.

(** With the Inbox record present and no tasks and no decisions,
    [promoteInboxItem] makes the GET only and answers [ok = false] with the
    error "No tasks or decisions to create - nothing to promote". *)
Theorem promoteInboxItem_nothing_to_promote server id p tr j
    (Hc : Promote.code (server tr (Promote.GasGet Promote.INBOX_TABLE id)) = 200%Z)
    (Hb : Promote.body (server tr (Promote.GasGet Promote.INBOX_TABLE id)) = Some j)
    (Ht : truthy j = true) (Hp : Promote.tasks p = []) (Hd : Promote.decisions p = []) :
  Promote.promoteInboxItem server id p tr =
    (inl (Promote.mk_result false id [] [] false
            (Some "No tasks or decisions to create - nothing to promote")),
     (tr ++ [Promote.GasGet Promote.INBOX_TABLE id])%list).
Proof.
  unfold Promote.promoteInboxItem, Promote.getAirtableRecord, Promote.bind, Promote.attempt,
    Promote.fetch, Promote.parse.
  rewrite Hc, Hb. simpl. rewrite Ht.
  unfold Promote.promote_tasks. rewrite Hp. simpl.
  unfold Promote.promote_decisions. rewrite Hd. reflexivity.
Qed.

Lemma promoteInboxItem_inbox_unavailable_witness :
  exists msg,
    Promote.promoteInboxItem inbox_404_server "recINBOX1" (Promote.mk_payload [JObj []] []) [] =
      (inl (Promote.mk_result false "recINBOX1" [] [] false (Some msg)),
       [Promote.GasGet Promote.INBOX_TABLE "recINBOX1"]) /\
    (Promote.code (inbox_404_server [] (Promote.GasGet Promote.INBOX_TABLE "recINBOX1")) = 404%Z ->
       msg = "Inbox record not found: " ++ "recINBOX1") /\
    (Promote.code (inbox_404_server [] (Promote.GasGet Promote.INBOX_TABLE "recINBOX1")) <> 404%Z ->
       exists e, msg = "Failed to fetch Inbox record: " ++ e).
Proof.
  apply (promoteInboxItem_inbox_unavailable inbox_404_server "recINBOX1"
           (Promote.mk_payload [JObj []] []) []).
  simpl; discriminate.
Defined.

Lemma promoteInboxItem_nothing_to_promote_witness :
  Promote.promoteInboxItem inbox_present_server "recINBOX1" (Promote.mk_payload [] []) [] =
    (inl (Promote.mk_result false "recINBOX1" [] [] false
            (Some "No tasks or decisions to create - nothing to promote")),
     [Promote.GasGet Promote.INBOX_TABLE "recINBOX1"]).
Proof.
  apply (promoteInboxItem_nothing_to_promote inbox_present_server "recINBOX1"
           (Promote.mk_payload [] []) [] (JObj [("id", JStr "recINBOX1")]));
    reflexivity.
Defined.

Module DoPostFacts.

Lemma js_or_empty_default a p :
  js_or a (Some (JStr "")) = Some (JStr p) -> p <> "" -> a = Some (JStr p).
Proof.
  destruct a as [v|]; simpl; [destruct (truthy v); congruence | congruence].
Qed.

End DoPostFacts.

(** [doPost] makes no Airtable call and answers [{ok: false, error}] unless the
    body is JSON, a shared secret is configured (non-empty) and the payload's
    [secret] is exactly that string, [action] is the string "promote" and
    [inboxRecordId] is truthy. *)
Theorem doPost_rejects_without_call promote SHARED_SECRET contents tr
    (H : ~ exists payload secret,
           contents = Some payload /\ SHARED_SECRET = Some secret /\ secret <> "" /\
           prop payload "secret" = Some (JStr secret) /\
           prop payload "action" = Some (JStr "promote") /\
           StoreM.truthy_opt (prop payload "inboxRecordId") = true) :
  exists msg, PromoteEntry.doPost promote SHARED_SECRET contents tr =
              (inl (PromoteEntry.failure msg), tr).
Proof.
  destruct contents as [payload|]; [|eexists; reflexivity].
  assert (Hp : forall P, payload = P -> P <> JNull ->
     exists msg, PromoteEntry.doPost promote SHARED_SECRET (Some P) tr =
                 (inl (PromoteEntry.failure msg), tr)).
  { intros P <- Hnn.
    assert (Hd : PromoteEntry.doPost promote SHARED_SECRET (Some payload) =
      let providedSecret := js_or (prop payload "secret") (Some (JStr "")) in
      let authorized :=
        match SHARED_SECRET, providedSecret with
        | Some secret, Some (JStr provided) => negb (String.eqb secret "") && String.eqb provided secret
        | _, _ => false
        end in
      if negb authorized then Promote.ret (PromoteEntry.failure "Unauthorized") else
      let action := prop payload "action" in
      let inboxRecordId := prop payload "inboxRecordId" in
      if negb (match action with Some (JStr a) => String.eqb a "promote" | _ => false end)
      then Promote.ret (PromoteEntry.failure ("Unknown action: " ++
                         match action with Some a => StoreM.js_template a | None => "undefined" end))
      else if negb (match inboxRecordId with Some v => truthy v | None => false end)
      then Promote.ret (PromoteEntry.failure "inboxRecordId is required")
      else
        Promote.bind (Promote.attempt (promote (match inboxRecordId with Some v => v | None => JNull end) payload))
          (fun r => match r with
                    | inl result => Promote.ret result
                    | inr msg => Promote.ret (PromoteEntry.caught msg)
                    end)).
    { destruct payload; [congruence|..]; reflexivity. }
    rewrite Hd; cbv zeta.
    destruct (match SHARED_SECRET, js_or (prop payload "secret") (Some (JStr "")) with
              | Some secret, Some (JStr provided) => negb (String.eqb secret "") && String.eqb provided secret
              | _, _ => false
              end) eqn:Ea; [|eexists; reflexivity].
    destruct (match prop payload "action" with Some (JStr a) => String.eqb a "promote" | _ => false end)
      eqn:Eb; [|eexists; reflexivity].
    destruct (match prop payload "inboxRecordId" with Some v => truthy v | None => false end)
      eqn:Ec; [|eexists; reflexivity].
    exfalso; apply H.
    destruct SHARED_SECRET as [s|]; [|discriminate Ea].
    destruct (js_or (prop payload "secret") (Some (JStr ""))) as [[| | |p| |]|] eqn:Eo;
      try discriminate Ea.
    apply andb_prop in Ea as [Ea1 Ea2].
    apply negb_true_iff, String.eqb_neq in Ea1. apply String.eqb_eq in Ea2; subst p.
    exists payload, s.
    split; [reflexivity|]. split; [reflexivity|]. split; [exact Ea1|].
    split; [apply DoPostFacts.js_or_empty_default; assumption|]. split.
    - destruct (prop payload "action") as [[| | |a| |]|]; try discriminate Eb.
      apply String.eqb_eq in Eb; subst a; reflexivity.
    - exact Ec. }
  destruct payload; [eexists; reflexivity| ..]; apply (Hp _ eq_refl); discriminate.
Qed.

Lemma doPost_rejects_without_call_witness :
  exists msg, PromoteEntry.doPost (fun _ _ => Promote.throw "unreachable") (Some "s3cret")
                (Some (JObj [("secret", JStr "guess"); ("action", JStr "promote");
                             ("inboxRecordId", JStr "recINBOX1")])) [] =
              (inl (PromoteEntry.failure msg), []).
Proof.
  apply doPost_rejects_without_call.
  intros (payload & secret & E1 & E2 & E3 & E4 & _).
  injection E1 as <-. injection E2 as <-. simpl in E4. discriminate E4.
Defined.

(** The inbox route answers an error and leaves the store untouched (no
    request reaches Airtable) unless every environment variable is set, the
    [x-inbox-secret] header is exactly the non-empty configured secret, and the
    body is a JSON object with truthy [gmailMessageId], [gmailThreadId],
    [from.email] and [subject]. *)
Theorem POST_validation_gates server E traceId req now s
    (H : ~ (OSRoute.missingEnvVars E = [] /\
            (exists p, OSRoute.x_inbox_secret req = Some p /\ OSRoute.INBOX_SHARED_SECRET E = Some p /\ p <> "") /\
            exists l, OSRoute.body req = Some (JObj l) /\
              StoreM.truthy_opt (prop (JObj l) "gmailMessageId") = true /\
              StoreM.truthy_opt (prop (JObj l) "gmailThreadId") = true /\
              (exists f, prop (JObj l) "from" = Some f /\ StoreM.truthy_opt (prop f "email") = true) /\
              StoreM.truthy_opt (prop (JObj l) "subject") = true)) :
  exists msg status,
    OSRoute.POST server E traceId req now s = (OSRoute.errorResponse traceId msg status, s) /\
    (status = 500 \/ status = 401 \/ status = 400)%Z.
Proof.
  unfold OSRoute.POST, OSRoute.post_main. cbv zeta.
  destruct (Nat.eqb (List.length (OSRoute.missingEnvVars E)) 0) eqn:Em;
    [|eexists _, _; split; [reflexivity | left; reflexivity]].
  destruct (match OSRoute.x_inbox_secret req, OSRoute.INBOX_SHARED_SECRET E with
            | Some provided, Some secret => negb (String.eqb provided "") && String.eqb provided secret
            | _, _ => false
            end) eqn:Ea;
    [|eexists _, _; split; [reflexivity | right; left; reflexivity]].
  cbn [negb].
  destruct (OSRoute.body req) as [payload|] eqn:Eb;
    [|eexists _, _; split; [reflexivity | right; right; reflexivity]].
  destruct payload as [| | | | | l];
    try (eexists _, _; split; [reflexivity | auto]).
  unfold OSRoute.post_payload.
  unfold StoreM.bind at 1. unfold StoreM.get_prop at 1. unfold StoreM.ret at 1. cbv beta iota.
  destruct (StoreM.truthy_opt (prop (JObj l) "gmailMessageId")) eqn:E1;
    [|eexists _, _; split; [reflexivity | right; right; reflexivity]].
  cbn [negb].
  unfold StoreM.bind at 1. unfold StoreM.get_prop at 1. unfold StoreM.ret at 1. cbv beta iota.
  destruct (StoreM.truthy_opt (prop (JObj l) "gmailThreadId")) eqn:E2;
    [|eexists _, _; split; [reflexivity | right; right; reflexivity]].
  cbn [negb].
  unfold StoreM.bind at 1. unfold StoreM.get_prop at 1. unfold StoreM.ret at 1. cbv beta iota.
  match goal with |- context [negb (StoreM.truthy_opt ?x)] => destruct (StoreM.truthy_opt x) eqn:E3 end;
    [|eexists _, _; split; [reflexivity | right; right; reflexivity]].
  cbn [negb].
  unfold StoreM.bind at 1. unfold StoreM.get_prop at 1. unfold StoreM.ret at 1. cbv beta iota.
  destruct (StoreM.truthy_opt (prop (JObj l) "subject")) eqn:E4;
    [|eexists _, _; split; [reflexivity | right; right; reflexivity]].
  exfalso; apply H.
  split; [destruct (OSRoute.missingEnvVars E); [reflexivity | discriminate Em]|].
  split.
  - destruct (OSRoute.x_inbox_secret req) as [p|]; [|discriminate Ea].
    destruct (OSRoute.INBOX_SHARED_SECRET E) as [q|]; [|discriminate Ea].
    apply andb_prop in Ea as [Ea1 Ea2].
    apply negb_true_iff, String.eqb_neq in Ea1. apply String.eqb_eq in Ea2; subst q.
    exists p; auto.
  - exists l; split; [reflexivity|]. split; [exact E1|]. split; [exact E2|]. split; [|exact E4].
    destruct (prop (JObj l) "from") as [f|]; [|discriminate E3].
    exists f; split; [reflexivity|]. destruct f; [discriminate E3|..]; exact E3.
Qed.

Lemma POST_validation_gates_witness :
  exists msg status,
    OSRoute.POST Airtable.mem_server
      (OSRoute.mk_env (Some "key") (Some "app") (Some "Companies") (Some "Opportunities")
                      (Some "Inbox Items") (Some "s3cret")) "inb-1"
      (OSRoute.mk_req (Some "s3cret")
         (Some (JObj [("gmailMessageId", JStr "m1"); ("gmailThreadId", JStr "t1");
                      ("from", JObj [("email", JStr "jo@example.com")])])))
      "2026-01-01T00:00:00.000Z" (Airtable.mk_store [] 0) =
    (OSRoute.errorResponse "inb-1" msg status, Airtable.mk_store [] 0) /\
    (status = 500 \/ status = 401 \/ status = 400)%Z.
Proof.
  apply POST_validation_gates.
  intros (_ & _ & l & El & _ & _ & _ & Hs).
  injection El as <-. simpl in Hs. discriminate Hs.
Defined.
